(** * PawSafe hazard reports: store, voting, sync merge and proximity latch

    A shallow embedding of the report store and vote engine of
    [src/lib/db.ts], of [mergeReports] from the realtime-database sync
    module and of [checkProximity] from the proximity-alert hook, with
    the properties the specification states about them. *)

From stdpp Require Import gmap strings list.
From Stdlib Require Import ZArith QArith Lia.

Close Scope Q_scope.
Open Scope Z_scope.

(** ** Data model ([src/lib/db.ts], interfaces [Confirmation] and [Report]) *)

(** A confirmation's [timestamp] is the ISO-8601 string written by
    [new Date().toISOString()]; the code only ever reads it back with
    [new Date(c.timestamp).getTime()], so it is held as the epoch
    milliseconds it denotes. *)
Record Confirmation := mkConfirmation {
  deviceId : string;
  timestamp : Z
}.

Inductive SyncStatus := synced | pending | conflict.

(** JavaScript numbers: the coordinates are finite doubles, held as the
    rationals they denote; counts and epoch milliseconds are integers.
    Fields declared with [?] may be [undefined] ([None]).  The two
    ledgers are declared non-optional, yet every read in the code guards
    against [undefined] ([?.], [|| []]), so they are optional here. *)
Record Report := mkReport {
  id : string;
  lat : Q;
  lng : Q;
  desc : string;
  photoBase64 : option string;
  photoUrl : option string;
  date : string;
  clearedCount : Z;
  resolved : bool;
  stillThereCount : Z;
  stillThereConfirmations : option (list Confirmation);
  clearedConfirmations : option (list Confirmation);
  syncStatus : SyncStatus;
  lastModified : Z;
  firebaseId : option string;
  archived : option bool;
  archivedAt : option Z;
  flagged : option bool;
  noGlassFound : option bool
}.

#[global] Instance Confirmation_eq_dec : EqDecision Confirmation.
Proof. solve_decision. Defined.
#[global] Instance SyncStatus_eq_dec : EqDecision SyncStatus.
Proof. solve_decision. Defined.
#[global] Instance Q_eq_dec : EqDecision Q.
Proof. solve_decision. Defined.
#[global] Instance Report_eq_dec : EqDecision Report.
Proof. solve_decision. Defined.

(** [x || []] on a possibly-undefined array. *)
Definition orEmpty {A} (o : option (list A)) : list A := default [] o.

(** [!x] and plain truthiness of an optional boolean: [undefined] is falsy. *)
Definition truthy (o : option bool) : bool := default false o.

(** [x || 0] on a number. *)
Definition orZero (x : Z) : Z := if x =? 0 then 0 else x.

(** One key of a [Partial<Report>] object literal.  For the optional
    fields the value [None] is [undefined], which Dexie's [update]
    treats as deleting the property. *)
Inductive Change :=
| set_lat (v : Q)
| set_lng (v : Q)
| set_desc (v : string)
| set_photoBase64 (v : option string)
| set_photoUrl (v : option string)
| set_date (v : string)
| set_clearedCount (v : Z)
| set_resolved (v : bool)
| set_stillThereCount (v : Z)
| set_stillThereConfirmations (v : option (list Confirmation))
| set_clearedConfirmations (v : option (list Confirmation))
| set_syncStatus (v : SyncStatus)
| set_lastModified (v : Z)
| set_firebaseId (v : option string)
| set_archived (v : option bool)
| set_archivedAt (v : option Z)
| set_flagged (v : option bool)
| set_noGlassFound (v : option bool).

Definition applyChange (r : Report) (c : Change) : Report :=
  let '(mkReport i la ln de pb pu da cc re sc stc clc ss lm fi ar aa fl ng) := r in
  match c with
  | set_lat v => mkReport i v ln de pb pu da cc re sc stc clc ss lm fi ar aa fl ng
  | set_lng v => mkReport i la v de pb pu da cc re sc stc clc ss lm fi ar aa fl ng
  | set_desc v => mkReport i la ln v pb pu da cc re sc stc clc ss lm fi ar aa fl ng
  | set_photoBase64 v => mkReport i la ln de v pu da cc re sc stc clc ss lm fi ar aa fl ng
  | set_photoUrl v => mkReport i la ln de pb v da cc re sc stc clc ss lm fi ar aa fl ng
  | set_date v => mkReport i la ln de pb pu v cc re sc stc clc ss lm fi ar aa fl ng
  | set_clearedCount v => mkReport i la ln de pb pu da v re sc stc clc ss lm fi ar aa fl ng
  | set_resolved v => mkReport i la ln de pb pu da cc v sc stc clc ss lm fi ar aa fl ng
  | set_stillThereCount v => mkReport i la ln de pb pu da cc re v stc clc ss lm fi ar aa fl ng
  | set_stillThereConfirmations v => mkReport i la ln de pb pu da cc re sc v clc ss lm fi ar aa fl ng
  | set_clearedConfirmations v => mkReport i la ln de pb pu da cc re sc stc v ss lm fi ar aa fl ng
  | set_syncStatus v => mkReport i la ln de pb pu da cc re sc stc clc v lm fi ar aa fl ng
  | set_lastModified v => mkReport i la ln de pb pu da cc re sc stc clc ss v fi ar aa fl ng
  | set_firebaseId v => mkReport i la ln de pb pu da cc re sc stc clc ss lm v ar aa fl ng
  | set_archived v => mkReport i la ln de pb pu da cc re sc stc clc ss lm fi v aa fl ng
  | set_archivedAt v => mkReport i la ln de pb pu da cc re sc stc clc ss lm fi ar v fl ng
  | set_flagged v => mkReport i la ln de pb pu da cc re sc stc clc ss lm fi ar aa v ng
  | set_noGlassFound v => mkReport i la ln de pb pu da cc re sc stc clc ss lm fi ar aa fl v
  end.

(** The keys of an object literal are applied left to right, so a later
    key overrides an earlier one (as with [{...updates, lastModified}]). *)
Definition applyChanges (r : Report) (changes : list Change) : Report :=
  foldl applyChange r changes.

(** ** The store and the clock

    [db.reports] is a Dexie table whose primary key is the inbound key
    path [id].  Every [Date.now()] and [new Date()] reads the wall clock;
    the clock is an oracle [clock : nat -> Z] giving the n-th reading of
    a run, and the world counts the readings taken so far. *)
Record World := mkWorld {
  reports : gmap string Report;
  ticks : nat
}.

(** An [async] function: a computation over the world. *)
Definition Task (A : Type) : Type := World -> A * World.

Definition ret {A} (a : A) : Task A := fun w => (a, w).

Definition bind {A B} (m : Task A) (k : A -> Task B) : Task B :=
  fun w => let '(a, w') := m w in k a w'.

Declare Scope task_scope.
Delimit Scope task_scope with task.
Notation "x <- m ;; k" := (bind m (fun x => k))
  (at level 100, m at next level, right associativity) : task_scope.
Notation "m ;;; k" := (bind m (fun _ => k))
  (at level 100, right associativity) : task_scope.
Open Scope task_scope.

Definition result {A} (m : Task A) (w : World) : A := fst (m w).
Definition after {A} (m : Task A) (w : World) : World := snd (m w).

(** [for (const x of xs) await f(x)] *)
Fixpoint forEach {A} (f : A -> Task unit) (xs : list A) : Task unit :=
  match xs with
  | [] => ret tt
  | x :: xs' => f x ;;; forEach f xs'
  end.

(** The rows of a well-formed table carry their own key. *)
Definition keyed (m : gmap string Report) : Prop :=
  forall k r, m !! k = Some r -> id r = k.

Module Table.

(** [db.reports.get(id)] *)
Definition get (key : string) : Task (option Report) :=
  fun w => (reports w !! key, w).

(** [db.reports.toArray()].  Dexie lists the rows in primary-key order;
    here they come in the order of [map_to_list], and nothing below
    depends on which order that is. *)
Definition toArray : Task (list Report) :=
  fun w => ((map_to_list (reports w)).*2, w).

(** [db.reports.update(key, changes)]: the changes are written to the
    row under [key]; the answer is the number of rows the key matches,
    1 when there is such a row and 0 when there is none. *)
Definition update (key : string) (changes : list Change) : Task Z :=
  fun w =>
    match reports w !! key with
    | None => (0, w)
    | Some r =>
        let r' := applyChanges r changes in
        (1,
         mkWorld (<[key := r']> (reports w)) (ticks w))
    end.

(** [db.reports.bulkUpdate(keysAndChanges)]: absent keys are skipped. *)
Fixpoint bulkUpdate (items : list (string * list Change)) : Task unit :=
  match items with
  | [] => ret tt
  | (key, changes) :: rest => update key changes ;;; bulkUpdate rest
  end.

(** [db.reports.put(report)] *)
Definition put (r : Report) : Task unit :=
  fun w => (tt, mkWorld (<[id r := r]> (reports w)) (ticks w)).

(** [db.reports.add(report)]: the new key, or [None] when the promise
    is rejected because the key is already taken. *)
Definition add (r : Report) : Task (option string) :=
  fun w =>
    match reports w !! id r with
    | Some _ => (None, w)
    | None => (Some (id r), mkWorld (<[id r := r]> (reports w)) (ticks w))
    end.

(** [db.reports.delete(key)] *)
Definition delete (key : string) : Task unit :=
  fun w => (tt, mkWorld (base.delete key (reports w)) (ticks w)).

End Table.

(** ** Report operations ([src/lib/db.ts]) *)

Definition DAY_MS : Z := 24 * 60 * 60 * 1000.

(** The [{ success, alreadyConfirmed }] object returned by a vote cast. *)
Record VoteResult := mkVoteResult {
  success : bool;
  alreadyConfirmed : bool
}.

(** [report.clearedConfirmations?.some(c => c.deviceId === deviceId) ?? false] *)
Definition hasDeviceConfirmedCleared (report : Report) (device : string) : bool :=
  match clearedConfirmations report with
  | Some cs => existsb (fun c => String.eqb (deviceId c) device) cs
  | None => false
  end.

Section Db.

Variable clock : nat -> Z.

(** [Date.now()]; [new Date()] reads the same clock. *)
Definition Date_now : Task Z :=
  fun w => (clock (ticks w), mkWorld (reports w) (S (ticks w))).

Definition getAllReports : Task (list Report) := Table.toArray.

Definition getReport (key : string) : Task (option Report) := Table.get key.

Definition updateReport (key : string) (updates : list Change) : Task Z :=
  now <- Date_now ;;
  Table.update key (updates ++ [set_lastModified now; set_syncStatus pending]).

Definition hasDeviceConfirmedStillThereRecently
    (report : Report) (device : string) : Task bool :=
  now <- Date_now ;;
  let oneDayAgo := now - DAY_MS in
  ret match stillThereConfirmations report with
      | Some cs =>
          existsb (fun c => String.eqb (deviceId c) device
                            && (oneDayAgo <? timestamp c)) cs
      | None => false
      end.

Definition incrementClearedCount (key device : string) : Task VoteResult :=
  report <- Table.get key ;;
  match report with
  | None => ret (mkVoteResult false false)
  | Some report =>
      if hasDeviceConfirmedCleared report device
      then ret (mkVoteResult false true)
      else
        stamp <- Date_now ;;
        let newConfirmations :=
          orEmpty (clearedConfirmations report) ++ [mkConfirmation device stamp] in
        let newCount := Z.of_nat (length newConfirmations) in
        now <- Date_now ;;
        Table.update key
          [ set_clearedCount newCount;
            set_clearedConfirmations (Some newConfirmations);
            set_resolved (3 <=? newCount);
            set_lastModified now;
            set_syncStatus pending ] ;;;
        ret (mkVoteResult true false)
  end.

Definition incrementStillThereCount (key device : string) : Task VoteResult :=
  report <- Table.get key ;;
  match report with
  | None => ret (mkVoteResult false false)
  | Some report =>
      recently <- hasDeviceConfirmedStillThereRecently report device ;;
      if recently : bool
      then ret (mkVoteResult false true)
      else
        stamp <- Date_now ;;
        let newConfirmations :=
          orEmpty (stillThereConfirmations report) ++ [mkConfirmation device stamp] in
        let newStillThereCount := Z.of_nat (length newConfirmations) in
        let shouldResetCleared := 2 <=? newStillThereCount in
        now <- Date_now ;;
        Table.update key
          [ set_stillThereCount newStillThereCount;
            set_stillThereConfirmations (Some newConfirmations);
            set_clearedCount (if shouldResetCleared then 0 else clearedCount report);
            set_clearedConfirmations
              (if shouldResetCleared then Some [] else clearedConfirmations report);
            set_resolved false;
            set_lastModified now;
            set_syncStatus pending ] ;;;
        ret (mkVoteResult true false)
  end.

Definition markAsResolved (key : string) : Task unit :=
  now <- Date_now ;;
  Table.update key
    [set_resolved true; set_lastModified now; set_syncStatus pending] ;;;
  ret tt.

Definition bulkMarkResolved (ids : list string) : Task unit :=
  now <- Date_now ;;
  Table.bulkUpdate
    (map (fun key => (key, [set_resolved true; set_lastModified now;
                            set_syncStatus pending])) ids).

(** [firebaseIds?.[id]] is [undefined] when the table or the entry is
    missing, and the update then deletes [firebaseId]. *)
Definition markAsSynced
    (ids : list string) (firebaseIds : option (gmap string string)) : Task unit :=
  forEach (fun key =>
    Table.update key
      [set_syncStatus synced; set_firebaseId (firebaseIds ≫= (.!! key))] ;;;
    ret tt) ids.

Definition getActiveReports : Task (list Report) :=
  all <- Table.toArray ;;
  ret (filter (fun r => negb (truthy (archived r)) = true) all).

Definition archiveReport (key : string) : Task unit :=
  at_ <- Date_now ;;
  now <- Date_now ;;
  Table.update key
    [ set_archived (Some true); set_archivedAt (Some at_);
      set_lastModified now; set_syncStatus pending ] ;;;
  ret tt.

Definition unarchiveReport (key : string) : Task unit :=
  now <- Date_now ;;
  Table.update key
    [ set_archived (Some false); set_archivedAt None;
      set_lastModified now; set_syncStatus pending ] ;;;
  ret tt.

Definition toggleFlagged (key : string) : Task bool :=
  report <- Table.get key ;;
  match report with
  | None => ret false
  | Some report =>
      let newFlagged := negb (truthy (flagged report)) in
      now <- Date_now ;;
      Table.update key
        [set_flagged (Some newFlagged); set_lastModified now;
         set_syncStatus pending] ;;;
      ret newFlagged
  end.

Definition toggleNoGlassFound (key : string) : Task bool :=
  report <- Table.get key ;;
  match report with
  | None => ret false
  | Some report =>
      let newNoGlassFound := negb (truthy (noGlassFound report)) in
      now <- Date_now ;;
      Table.update key
        [set_noGlassFound (Some newNoGlassFound); set_lastModified now;
         set_syncStatus pending] ;;;
      ret newNoGlassFound
  end.

(** The filter of the auto-archive sweep. *)
Definition shouldArchive (sevenDaysAgo : Z) (r : Report) : bool :=
  resolved r && negb (truthy (archived r)) && (lastModified r <? sevenDaysAgo).

Definition autoArchiveOldResolvedReports : Task Z :=
  now <- Date_now ;;
  let sevenDaysAgo := now - 7 * DAY_MS in
  all <- Table.toArray ;;
  let toArchive := filter (fun r => shouldArchive sevenDaysAgo r = true) all in
  forEach (fun report => archiveReport (id report)) toArchive ;;;
  ret (Z.of_nat (length toArchive)).

(** The argument has the five defaulted fields left out
    ([Omit<Report, ...>]); whatever it holds there is overwritten. *)
Definition addReport (report : Report) : Task (option string) :=
  now <- Date_now ;;
  Table.add (applyChanges report
               [ set_stillThereCount 0;
                 set_stillThereConfirmations (Some []);
                 set_clearedConfirmations (Some []);
                 set_syncStatus pending;
                 set_lastModified now ]).

Definition deleteReport (key : string) : Task unit := Table.delete key.

(** [db.reports.where('syncStatus').equals('pending').toArray()] *)
Definition getPendingReports : Task (list Report) :=
  all <- Table.toArray ;;
  ret (filter (fun r => syncStatus r = pending) all).

End Db.

(** ** Schema upgrades ([db.version(2..4).upgrade], [src/lib/db.ts]) *)

(** A stored row as an upgrade callback meets it: written by some
    earlier version of the app, so the fields added after version 1 may
    be missing ([None]). *)
Record StoredRow := mkStoredRow {
  row_id : string;
  row_lat : Q;
  row_lng : Q;
  row_desc : string;
  row_photoBase64 : option string;
  row_date : string;
  row_clearedCount : Z;
  row_resolved : bool;
  row_stillThereCount : option Z;
  row_stillThereConfirmations : option (list Confirmation);
  row_clearedConfirmations : option (list Confirmation);
  row_syncStatus : option SyncStatus;
  row_lastModified : option Z;
  row_firebaseId : option string;
  row_photoUrl : option string;
  row_archived : option bool;
  row_archivedAt : option Z;
  row_flagged : option bool;
  row_noGlassFound : option bool
}.

(** [x ?? d]: the default replaces only a missing value. *)
Definition orElse {A} (x : option A) (d : A) : option A := Some (default d x).

(** The version 2 callback.  [Date.now()] is on the right of [??] and is
    read only for a row without [lastModified]; [t] counts the readings. *)
Definition upgradeV2 (clock : nat -> Z) (report : StoredRow) (t : nat)
    : StoredRow * nat :=
  let '(mkStoredRow i la ln de pb da cc re sc stc clc ss lm fi pu ar aa fl ng) :=
    report in
  let '(lm', t') :=
    match lm with
    | Some v => (Some v, t)
    | None => (Some (clock t), S t)
    end in
  (mkStoredRow i la ln de pb da cc re
     (orElse sc 0) (orElse stc []) (orElse clc []) (orElse ss pending) lm'
     fi pu ar aa fl ng, t').

(** The version 3 callback. *)
Definition upgradeV3 (report : StoredRow) : StoredRow :=
  let '(mkStoredRow i la ln de pb da cc re sc stc clc ss lm fi pu ar aa fl ng) :=
    report in
  mkStoredRow i la ln de pb da cc re sc stc clc ss lm fi pu
              (orElse ar false) aa (orElse fl false) ng.

(** The version 4 callback. *)
Definition upgradeV4 (report : StoredRow) : StoredRow :=
  let '(mkStoredRow i la ln de pb da cc re sc stc clc ss lm fi pu ar aa fl ng) :=
    report in
  mkStoredRow i la ln de pb da cc re sc stc clc ss lm fi pu ar aa fl
              (orElse ng false).

(** [toCollection().modify(callback)]: the callback runs on every row in turn. *)
Fixpoint modify (callback : StoredRow -> nat -> StoredRow * nat)
    (rows : list StoredRow) (t : nat) : list StoredRow * nat :=
  match rows with
  | [] => ([], t)
  | row :: rest =>
      let '(row', t') := callback row t in
      let '(rest', t'') := modify callback rest t' in
      (row' :: rest', t'')
  end.

(** Opening a version 1 database with the version 4 code runs the three
    upgrades in order. *)
Definition upgradeToV4 (clock : nat -> Z) (rows : list StoredRow) (t : nat)
    : list StoredRow * nat :=
  let '(rows2, t2) := modify (upgradeV2 clock) rows t in
  let '(rows3, t3) := modify (fun row t => (upgradeV3 row, t)) rows2 t2 in
  modify (fun row t => (upgradeV4 row, t)) rows3 t3.

(** ** Realtime Database documents (sync module) *)

(** The [updatedAt] of a document: the [serverTimestamp()] placeholder a
    client writes, the number the server puts in its place, or nothing. *)
Inductive Stamp := serverTimestamp | millis (t : Z) | noStamp.

(** A document under [reports/<id>].  The reader casts [lat], [lng],
    [desc] and [date] without a fallback, so a document is taken to carry
    them; every field it reads with a fallback may be missing. *)
Record RemoteDoc := mkRemoteDoc {
  doc_id : option string;
  doc_lat : Q;
  doc_lng : Q;
  doc_desc : string;
  doc_photoBase64 : option string;
  doc_photoUrl : option string;
  doc_date : string;
  doc_clearedCount : option Z;
  doc_resolved : option bool;
  doc_stillThereCount : option Z;
  doc_stillThereConfirmations : option (list Confirmation);
  doc_clearedConfirmations : option (list Confirmation);
  doc_updatedAt : Stamp;
  doc_archived : option bool;
  doc_archivedAt : option Z;
  doc_flagged : option bool
}.

(** [s || ''] on a string. *)
Definition orBlank (s : string) : string := if String.eqb s "" then "" else s.

(** An optional string that passes [if (s)]: present and not empty. *)
Definition nonBlank (o : option string) : option string :=
  match o with
  | Some s => if String.eqb s "" then None else Some s
  | None => None
  end.

(** An optional number that passes [if (n)]: present and not zero. *)
Definition nonZero (o : option Z) : option Z :=
  match o with
  | Some n => if n =? 0 then None else Some n
  | None => None
  end.

Definition toRealtimeDbReport (report : Report) : RemoteDoc :=
  mkRemoteDoc
    (Some (id report))
    (lat report) (lng report)
    (orBlank (desc report))
    (nonBlank (photoBase64 report))
    (nonBlank (photoUrl report))
    (date report)
    (Some (orZero (clearedCount report)))
    (Some (resolved report || false))
    (Some (orZero (stillThereCount report)))
    (Some (orEmpty (stillThereConfirmations report)))
    (Some (orEmpty (clearedConfirmations report)))
    serverTimestamp
    (Some (truthy (archived report)))
    (nonZero (archivedAt report))
    (Some (truthy (flagged report))).

(** [typeof data.updatedAt === 'number' ? data.updatedAt : Date.now()]
    is the only clock reading, taken while the object is built. *)
Definition fromRealtimeDbReport (clock : nat -> Z) (data : RemoteDoc)
    (key : string) : Task Report :=
  modified <- match doc_updatedAt data with
              | millis t => ret t
              | _ => Date_now clock
              end ;;
  ret (mkReport
         (default key (nonBlank (doc_id data)))
         (doc_lat data) (doc_lng data) (doc_desc data)
         (doc_photoBase64 data) (doc_photoUrl data) (doc_date data)
         (orZero (default 0 (doc_clearedCount data)))
         (truthy (doc_resolved data))
         (orZero (default 0 (doc_stillThereCount data)))
         (Some (orEmpty (doc_stillThereConfirmations data)))
         (Some (orEmpty (doc_clearedConfirmations data)))
         synced
         modified
         (Some key)
         (Some (truthy (doc_archived data)))
         (doc_archivedAt data)
         (Some (truthy (doc_flagged data)))
         None).

(** ** Pushing pending reports (sync module) *)

(** What a rejected [set] throws: [err.code] and [err.message]. *)
Record FirebaseError := mkFirebaseError {
  err_code : option string;
  err_message : option string
}.

(** The toasts of the sync module, one constructor per call site. *)
Inductive Toast :=
| toastPermissionDenied
| toastNetworkError
| toastFirebaseError (message : string)
| toastFailedToSync (count : nat)
| toastSyncFailedLocalOnly.

(** [s.includes(part)] *)
Definition includesText (part s : string) : bool :=
  if String.index 0 part s is Some _ then true else false.

(** The toast chosen in the [catch] of [syncReportToFirestore]. *)
Definition errorToast (err : FirebaseError) : Toast :=
  if bool_decide (err_code err = Some "PERMISSION_DENIED")
     || (if err_message err is Some m then includesText "permission" m else false)
  then toastPermissionDenied
  else if bool_decide (err_code err = Some "NETWORK_ERROR")
  then toastNetworkError
  else toastFirebaseError (default "Unknown error" (nonBlank (err_message err))).

(** The running state of the loop in [syncPendingToFirestore], with the
    documents the remote store accepted and the toasts shown so far. *)
Record PushState := mkPushState {
  firebaseIds : gmap string string;
  syncedIds : list string;
  errors : list string;
  accepted : list (string * RemoteDoc);
  toasts : list Toast
}.

(** What a push leaves in the outside world. *)
Record PushOutcome := mkPushOutcome {
  acceptedDocs : list (string * RemoteDoc);
  shownToasts : list Toast
}.

Section Push.

(** [set(ref(database, 'reports/' + id), doc)]: [None] when the remote
    store accepts the write, the error it throws otherwise. *)
Variable remoteSet : string -> RemoteDoc -> option FirebaseError.

(** The id on success, the rethrown error on failure, and the toast. *)
Definition syncReportToFirestore (report : Report)
    : (FirebaseError + string) * list Toast :=
  match remoteSet (id report) (toRealtimeDbReport report) with
  | None => (inr (id report), [])
  | Some err => (inl err, [errorToast err])
  end.

(** One turn of [for (const report of pendingReports)] with its [try]. *)
Definition pushOne (st : PushState) (report : Report) : PushState :=
  match syncReportToFirestore report with
  | (inr firebaseId, shown) =>
      mkPushState (<[id report := firebaseId]> (firebaseIds st))
                  (syncedIds st ++ [id report])
                  (errors st)
                  (accepted st ++ [(id report, toRealtimeDbReport report)])
                  (toasts st ++ shown)
  | (inl _, shown) =>
      mkPushState (firebaseIds st) (syncedIds st) (errors st ++ [id report])
                  (accepted st) (toasts st ++ shown)
  end.

Definition syncPendingToFirestore : Task PushOutcome :=
  pendingReports <- getPendingReports ;;
  if (length pendingReports =? 0)%nat then ret (mkPushOutcome [] [])
  else
    let st := foldl pushOne (mkPushState ∅ [] [] [] []) pendingReports in
    (if (0 <? length (syncedIds st))%nat
     then markAsSynced (syncedIds st) (Some (firebaseIds st))
     else ret tt) ;;;
    ret (mkPushOutcome
           (accepted st)
           (toasts st ++ if (0 <? length (errors st))%nat
                         then [toastFailedToSync (length (errors st))]
                         else [])).

End Push.

(** ** Pulling the remote snapshot (sync module) *)

(** The loop over [Object.entries(data)]. *)
Fixpoint entriesToReports (clock : nat -> Z) (data : list (string * RemoteDoc))
    : Task (list Report) :=
  match data with
  | [] => ret []
  | (key, reportData) :: rest =>
      report <- fromRealtimeDbReport clock reportData key ;;
      reports <- entriesToReports clock rest ;;
      ret (report :: reports)
  end.

(** [got] is what [get(reportsRef)] does: it throws, or yields a
    snapshot that is empty ([None]) or holds the entries under
    [reports/].  A thrown error is rethrown. *)
Definition fetchFromFirestore (clock : nat -> Z)
    (got : FirebaseError + option (list (string * RemoteDoc)))
    : Task (FirebaseError + list Report) :=
  match got with
  | inl err => ret (inl err)
  | inr None => ret (inr [])
  | inr (Some data) =>
      reports <- entriesToReports clock data ;; ret (inr reports)
  end.

(** ** Merging local and remote reports ([mergeReports], sync module) *)

(** A JavaScript [Map<string, Report>]: entries in insertion order;
    [set] on an existing key replaces the value in place. *)
Module JsMap.

Definition t : Type := list (string * Report).

Definition empty : t := [].

Fixpoint get (key : string) (m : t) : option Report :=
  match m with
  | [] => None
  | (k, v) :: m' => if String.eqb k key then Some v else get key m'
  end.

Fixpoint set (key : string) (v : Report) (m : t) : t :=
  match m with
  | [] => [(key, v)]
  | (k, v') :: m' =>
      if String.eqb k key then (key, v) :: m' else (k, v') :: set key v m'
  end.

Definition values (m : t) : list Report := m.*2.

End JsMap.

(** The body of the second loop of [mergeReports]. *)
Definition mergeRemote (merged : JsMap.t) (remoteReport : Report) : JsMap.t :=
  match JsMap.get (id remoteReport) merged with
  | None => JsMap.set (id remoteReport) remoteReport merged
  | Some localReport =>
      let localTime := orZero (lastModified localReport) in
      let remoteTime := orZero (lastModified remoteReport) in
      if localTime <? remoteTime then
        JsMap.set (id remoteReport)
          (applyChange remoteReport (set_syncStatus synced)) merged
      else if (remoteTime <? localTime)
              && bool_decide (syncStatus localReport = pending) then
        JsMap.set (id remoteReport) localReport merged
      else merged
  end.

Definition mergeReports (localReports remoteReports : list Report) : list Report :=
  let merged := foldl (fun m report => JsMap.set (id report) report m)
                      JsMap.empty localReports in
  JsMap.values (foldl mergeRemote merged remoteReports).

(** ** Full sync and the live listener (sync module) *)

(** [fullSync]: the reports it returns and what it leaves outside.  Its
    [catch] answers any failure with a toast and the local reports. *)
Definition fullSync (clock : nat -> Z)
    (remoteSet : string -> RemoteDoc -> option FirebaseError)
    (got : FirebaseError + option (list (string * RemoteDoc)))
    : Task (list Report * PushOutcome) :=
  fetched <- fetchFromFirestore clock got ;;
  match fetched with
  | inl _ =>
      localReports <- getAllReports ;;
      ret (localReports, mkPushOutcome [] [toastSyncFailedLocalOnly])
  | inr remoteReports =>
      localReports <- getAllReports ;;
      let mergedReports := mergeReports localReports remoteReports in
      forEach Table.put mergedReports ;;;
      outcome <- syncPendingToFirestore remoteSet ;;
      ret (mergedReports, outcome)
  end.

(** The [onValue] callback of [initializeSync]: [online] is
    [navigator.onLine]; the result is the list handed to
    [onReportsUpdate], if it is called. *)
Definition onRemoteValue (clock : nat -> Z) (online : bool)
    (snapshot : option (list (string * RemoteDoc)))
    : Task (option (list Report)) :=
  if negb online then ret None
  else
    remoteReports <- entriesToReports clock (default [] snapshot) ;;
    localReports <- getAllReports ;;
    let merged := mergeReports localReports remoteReports in
    forEach Table.put merged ;;;
    ret (Some merged).

(** ** Proximity detector ([useProximityAlerts], proximity-alert hook) *)

Definition ENTRY_RADIUS_METERS : Q := 3%Q.
Definition EXIT_RADIUS_METERS : Q := 6%Q.
Definition DEBOUNCE_MS : Z := 1000.

(** [position.coords] of a [GeolocationPosition]. *)
Record Coords := mkCoords {
  latitude : Q;
  longitude : Q
}.

Record ProximityAlertState := mkProximityAlertState {
  isInProximity : bool;
  nearbyReportIds : list string;
  userLocation : option (Q * Q)
}.

(** The hook's refs and its React state. *)
Record Detector := mkDetector {
  lastCheckRef : Z;
  previouslyInProximityRef : gset string;
  hasTriggeredAlertRef : bool;
  state : ProximityAlertState
}.

(** The calls a fix can make on the outside world, in call order. *)
Inductive Effect :=
| triggerVibration
| showNotification
| onAlertTriggered (reportIds : list string)
| onAlertCleared.

Definition initialDetector : Detector :=
  mkDetector 0 ∅ false (mkProximityAlertState false [] None).

(** The effect run when [enabled] turns false. *)
Definition resetDetector (d : Detector) : Detector :=
  mkDetector (lastCheckRef d) ∅ false (mkProximityAlertState false [] None).

Section Proximity.

(** [calculateDistance] lives in [./utils], outside the sources at hand:
    it is a parameter, the distance in metres between two coordinates. *)
Variable calculateDistance : Q -> Q -> Q -> Q -> Q.

(** The hook's props. *)
Variable reportList : list Report.
Variable suppressedReportIds : list string.

Definition includes (ids : list string) (key : string) : bool :=
  existsb (String.eqb key) ids.

(** One iteration of the [for (const report of activeReports)] loop. *)
Definition scanReport (previously : gset string) (position : Coords)
    (acc : list string * gset string) (report : Report)
    : list string * gset string :=
  let '(nearbyIds, currentlyInProximity) := acc in
  if includes suppressedReportIds (id report) then acc
  else
    let distance :=
      calculateDistance (latitude position) (longitude position)
                        (lat report) (lng report) in
    if Qle_bool distance ENTRY_RADIUS_METERS then
      (nearbyIds ++ [id report], {[id report]} ∪ currentlyInProximity)
    else if Qle_bool distance EXIT_RADIUS_METERS
            && bool_decide (id report ∈ previously) then
      (nearbyIds ++ [id report], {[id report]} ∪ currentlyInProximity)
    else acc.

(** The geolocation callback; [now] is the [Date.now()] it reads on entry. *)
Definition checkProximity (now : Z) (position : Coords) (d : Detector)
    : Detector * list Effect :=
  if now - lastCheckRef d <? DEBOUNCE_MS then (d, [])
  else
    let userLoc := (latitude position, longitude position) in
    let activeReports :=
      filter (fun r => negb (resolved r) && negb (truthy (archived r)) = true)
             reportList in
    let previously := previouslyInProximityRef d in
    let '(nearbyIds, currentlyInProximity) :=
      foldl (scanReport previously position) ([], ∅) activeReports in
    let newlyEntered :=
      filter (fun key => key ∉ previously) nearbyIds in
    let justExited :=
      (length nearbyIds =? 0)%nat && (0 <? size previously)%nat in
    let st := mkProximityAlertState (0 <? length nearbyIds)%nat nearbyIds
                                    (Some userLoc) in
    let fire := (0 <? length newlyEntered)%nat && negb (hasTriggeredAlertRef d) in
    let triggered := if fire then true else hasTriggeredAlertRef d in
    let entryCalls :=
      if fire then [triggerVibration; showNotification; onAlertTriggered nearbyIds]
      else [] in
    let exitCalls := if justExited then [onAlertCleared] else [] in
    (mkDetector now currentlyInProximity
                (if justExited then false else triggered) st,
     entryCalls ++ exitCalls).

(** The fixes of a watch, oldest first, each with the clock reading of
    its callback; the calls made by each fix are collected in order. *)
Fixpoint watch (fixes : list (Z * Coords)) (d : Detector)
    : Detector * list (list Effect) :=
  match fixes with
  | [] => (d, [])
  | (now, position) :: rest =>
      let '(d', calls) := checkProximity now position d in
      let '(d'', more) := watch rest d' in
      (d'', calls :: more)
  end.

End Proximity.

(** ** Admin page *)

(** The [filterStatus] state of the admin page. *)
Inductive FilterStatus :=
| filterAll
| filterActive
| filterResolved
| filterArchived
| filterFlagged
| filterNoGlassFound.

(** The reports listed under a filter; ['all'] shows the non-archived. *)
Definition filteredReports (filterStatus : FilterStatus)
    (reportsState : list Report) : list Report :=
  filter (fun report =>
            match filterStatus with
            | filterActive => negb (resolved report) && negb (truthy (archived report))
            | filterResolved => resolved report && negb (truthy (archived report))
            | filterArchived => truthy (archived report)
            | filterFlagged => truthy (flagged report)
            | filterNoGlassFound => truthy (noGlassFound report)
            | filterAll => negb (truthy (archived report))
            end = true)
         reportsState.

(** [handleToggleResolved] of the map view: [reportsState] is the React
    state it closes over, the result is the state it sets.  The report
    is looked up in that state, not in the table. *)
Definition handleToggleResolved (clock : nat -> Z)
    (reportsState : list Report) (key : string) : Task (list Report) :=
  match find (fun r => String.eqb (id r) key) reportsState with
  | None => ret reportsState
  | Some report =>
      let newResolved := negb (resolved report) in
      bulkMarkResolved clock (if newResolved then [key] else []) ;;;
      (if negb newResolved
       then now <- Date_now clock ;;
            Table.update key
              [set_resolved false; set_lastModified now; set_syncStatus pending] ;;;
            ret tt
       else ret tt) ;;;
      ret (map (fun r => if String.eqb (id r) key
                         then applyChange r (set_resolved newResolved) else r)
               reportsState)
  end.

(** * Vocabulary of the properties *)

(** ** Runs, ledgers and the net effect of the loops *)

(** Run [f] on each element in turn and collect the results. *)
Fixpoint traverse {A B} (f : A -> Task B) (xs : list A) : Task (list B) :=
  match xs with
  | [] => ret []
  | x :: xs' => b <- f x ;; bs <- traverse f xs' ;; ret (b :: bs)
  end.

(** The device ids on a ledger, oldest first. *)
Definition voters (ledger : option (list Confirmation)) : list string :=
  map deviceId (orEmpty ledger).

(** The local mutations of a report offered by [src/lib/db.ts]. *)
Inductive Mutation :=
| CastCleared (key device : string)
| CastStillThere (key device : string)
| ToggleFlagged (key : string)
| ToggleNoGlassFound (key : string)
| ArchiveReport (key : string)
| UnarchiveReport (key : string)
| MarkAsResolved (key : string)
| BulkMarkResolved (ids : list string)
| UpdateReport (key : string) (updates : list Change).

Definition perform (clock : nat -> Z) (m : Mutation) : Task unit :=
  match m with
  | CastCleared key device => incrementClearedCount clock key device ;;; ret tt
  | CastStillThere key device => incrementStillThereCount clock key device ;;; ret tt
  | ToggleFlagged key => toggleFlagged clock key ;;; ret tt
  | ToggleNoGlassFound key => toggleNoGlassFound clock key ;;; ret tt
  | ArchiveReport key => archiveReport clock key
  | UnarchiveReport key => unarchiveReport clock key
  | MarkAsResolved key => markAsResolved clock key
  | BulkMarkResolved ids => bulkMarkResolved clock ids
  | UpdateReport key updates => updateReport clock key updates ;;; ret tt
  end.


(** The row [archiveReport] writes when its first clock reading is the
    [i]-th of the run. *)
Definition archivedAtTick (clock : nat -> Z) (i : nat) (r : Report) : Report :=
  applyChanges r [ set_archived (Some true); set_archivedAt (Some (clock i));
                   set_lastModified (clock (S i)); set_syncStatus pending ].

(** A report the sweep is meant to archive at time [now]. *)
Definition due (now : Z) (r : Report) : Prop :=
  resolved r = true /\ truthy (archived r) = false /\
  7 * DAY_MS < now - lastModified r.

#[global] Instance due_dec now r : Decision (due now r).
Proof. unfold due. apply _. Defined.

(** What one remote record leaves under its id, given what the map held
    there before: last write wins, a remote win is marked [synced]. *)
Definition mergeOne (held : option Report) (remoteReport : Report) : Report :=
  match held with
  | None => remoteReport
  | Some localReport =>
      if lastModified localReport <? lastModified remoteReport
      then applyChange remoteReport (set_syncStatus synced)
      else localReport
  end.

(** Every entry of the map sits under the id of its value. *)
Definition keyedEntries (m : JsMap.t) : Prop :=
  forall kv, kv ∈ m -> id kv.2 = kv.1.

(** The distance from a fix to a report, in metres. *)
Definition distanceTo (calculateDistance : Q -> Q -> Q -> Q -> Q)
    (position : Coords) (report : Report) : Q :=
  calculateDistance (latitude position) (longitude position)
                    (lat report) (lng report).

(** The reports a fix looks at: active and not suppressed. *)
Definition candidate (suppressedReportIds : list string) (report : Report) : bool :=
  negb (resolved report) && negb (truthy (archived report))
  && negb (includes suppressedReportIds (id report)).

(** The test one loop iteration applies to an unsuppressed report. *)
Definition inRange (calculateDistance : Q -> Q -> Q -> Q -> Q)
    (previously : gset string) (position : Coords) (report : Report) : bool :=
  Qle_bool (distanceTo calculateDistance position report) ENTRY_RADIUS_METERS
  || (Qle_bool (distanceTo calculateDistance position report) EXIT_RADIUS_METERS
      && bool_decide (id report ∈ previously)).

(** The reports one fix finds nearby, in list order. *)
Definition near (calculateDistance : Q -> Q -> Q -> Q -> Q)
    (reportList : list Report) (suppressedReportIds : list string)
    (previously : gset string) (position : Coords) : list Report :=
  filter (fun r => candidate suppressedReportIds r
                   && inRange calculateDistance previously position r = true)
         reportList.

(** ** What a mutation writes *)

(** The row a local mutation puts in place of [r] when it writes. *)
Definition written (m : Mutation) (r r' : Report) : Prop :=
  match m with
  | CastCleared _ device =>
      hasDeviceConfirmedCleared r device = false /\
      exists stamp now,
        let ledger := orEmpty (clearedConfirmations r)
                      ++ [mkConfirmation device stamp] in
        r' = applyChanges r
               [ set_clearedCount (Z.of_nat (length ledger));
                 set_clearedConfirmations (Some ledger);
                 set_resolved (3 <=? Z.of_nat (length ledger));
                 set_lastModified now; set_syncStatus pending ]
  | CastStillThere _ device =>
      exists stamp now,
        let ledger := orEmpty (stillThereConfirmations r)
                      ++ [mkConfirmation device stamp] in
        let reset := 2 <=? Z.of_nat (length ledger) in
        r' = applyChanges r
               [ set_stillThereCount (Z.of_nat (length ledger));
                 set_stillThereConfirmations (Some ledger);
                 set_clearedCount (if reset then 0 else clearedCount r);
                 set_clearedConfirmations
                   (if reset then Some [] else clearedConfirmations r);
                 set_resolved false;
                 set_lastModified now; set_syncStatus pending ]
  | ToggleFlagged _ =>
      exists now,
        r' = applyChanges r
               [ set_flagged (Some (negb (truthy (flagged r))));
                 set_lastModified now; set_syncStatus pending ]
  | ToggleNoGlassFound _ =>
      exists now,
        r' = applyChanges r
               [ set_noGlassFound (Some (negb (truthy (noGlassFound r))));
                 set_lastModified now; set_syncStatus pending ]
  | ArchiveReport _ =>
      exists at_ now,
        r' = applyChanges r
               [ set_archived (Some true); set_archivedAt (Some at_);
                 set_lastModified now; set_syncStatus pending ]
  | UnarchiveReport _ =>
      exists now,
        r' = applyChanges r
               [ set_archived (Some false); set_archivedAt None;
                 set_lastModified now; set_syncStatus pending ]
  | MarkAsResolved _ | BulkMarkResolved _ =>
      exists now,
        r' = applyChanges r
               [ set_resolved true; set_lastModified now; set_syncStatus pending ]
  | UpdateReport _ updates =>
      exists now,
        r' = applyChanges r
               (updates ++ [set_lastModified now; set_syncStatus pending])
  end.

(** The user content of a report, fixed when it is created. *)
Definition sameContent (r r' : Report) : Prop :=
  id r' = id r /\ lat r' = lat r /\ lng r' = lng r /\ desc r' = desc r /\
  photoBase64 r' = photoBase64 r /\ photoUrl r' = photoUrl r /\ date r' = date r.

(** The vote state of a report. *)
Definition sameVotes (r r' : Report) : Prop :=
  clearedCount r' = clearedCount r /\
  clearedConfirmations r' = clearedConfirmations r /\
  stillThereCount r' = stillThereCount r /\
  stillThereConfirmations r' = stillThereConfirmations r /\
  resolved r' = resolved r.

(** The two counts agree with their ledgers, and no device is on the
    cleared ledger twice. *)
Definition talliesAgree (r : Report) : Prop :=
  clearedCount r = Z.of_nat (length (orEmpty (clearedConfirmations r))) /\
  stillThereCount r = Z.of_nat (length (orEmpty (stillThereConfirmations r))) /\
  NoDup (voters (clearedConfirmations r)).

(** The keys a mutation is called with. *)
Definition aimedAt (m : Mutation) : list string :=
  match m with
  | CastCleared key _ | CastStillThere key _ | ToggleFlagged key
  | ToggleNoGlassFound key | ArchiveReport key | UnarchiveReport key
  | MarkAsResolved key | UpdateReport key _ => [key]
  | BulkMarkResolved ids => ids
  end.

Definition isUpdateReport (m : Mutation) : bool :=
  match m with UpdateReport _ _ => true | _ => false end.

(** ** Upgraded rows *)

(** A complete row read as a [Report]; [None] while a field the
    interface requires is still missing. *)
Definition toReport (row : StoredRow) : option Report :=
  match row_stillThereCount row, row_stillThereConfirmations row,
        row_clearedConfirmations row, row_syncStatus row, row_lastModified row with
  | Some sc, Some stc, Some clc, Some ss, Some lm =>
      Some (mkReport (row_id row) (row_lat row) (row_lng row) (row_desc row)
                     (row_photoBase64 row) (row_photoUrl row) (row_date row)
                     (row_clearedCount row) (row_resolved row)
                     sc (Some stc) (Some clc) ss lm (row_firebaseId row)
                     (row_archived row) (row_archivedAt row)
                     (row_flagged row) (row_noGlassFound row))
  | _, _, _, _, _ => None
  end.

(** [new] is [old] with each added field filled in where it was
    missing, [lastModified] from a clock reading between [t] and [t']. *)
Definition backfilled (clock : nat -> Z) (t t' : nat) (old new : StoredRow) : Prop :=
  row_id new = row_id old /\ row_lat new = row_lat old /\
  row_lng new = row_lng old /\ row_desc new = row_desc old /\
  row_photoBase64 new = row_photoBase64 old /\ row_date new = row_date old /\
  row_clearedCount new = row_clearedCount old /\
  row_resolved new = row_resolved old /\
  row_firebaseId new = row_firebaseId old /\
  row_photoUrl new = row_photoUrl old /\
  row_archivedAt new = row_archivedAt old /\
  row_stillThereCount new = Some (default 0 (row_stillThereCount old)) /\
  row_stillThereConfirmations new
    = Some (default [] (row_stillThereConfirmations old)) /\
  row_clearedConfirmations new
    = Some (default [] (row_clearedConfirmations old)) /\
  row_syncStatus new = Some (default pending (row_syncStatus old)) /\
  row_archived new = Some (default false (row_archived old)) /\
  row_flagged new = Some (default false (row_flagged old)) /\
  row_noGlassFound new = Some (default false (row_noGlassFound old)) /\
  match row_lastModified old with
  | Some v => row_lastModified new = Some v
  | None => exists i, (t <= i < t')%nat /\ row_lastModified new = Some (clock i)
  end.

(** ** Sync vocabulary *)

(** The record a list holds for an id (the first, if there are several). *)
Definition recordOf (xs : list Report) (key : string) : option Report :=
  JsMap.get key ((fun r => (id r, r)) <$> xs).

(** The document as the server keeps it when its clock reads [t]: the
    [serverTimestamp()] placeholder becomes the number [t]. *)
Definition stampedBy (t : Z) (d : RemoteDoc) : RemoteDoc :=
  mkRemoteDoc (doc_id d) (doc_lat d) (doc_lng d) (doc_desc d)
              (doc_photoBase64 d) (doc_photoUrl d) (doc_date d)
              (doc_clearedCount d) (doc_resolved d) (doc_stillThereCount d)
              (doc_stillThereConfirmations d) (doc_clearedConfirmations d)
              (match doc_updatedAt d with
               | serverTimestamp => millis t
               | stamp => stamp
               end)
              (doc_archived d) (doc_archivedAt d) (doc_flagged d).

(** The remote store takes the write of this report. *)
Definition accepts (remoteSet : string -> RemoteDoc -> option FirebaseError)
    (r : Report) : Prop :=
  remoteSet (id r) (toRealtimeDbReport r) = None.

#[global] Instance accepts_dec remoteSet r : Decision (accepts remoteSet r).
Proof. unfold accepts. apply _. Defined.

(** A pushed row: marked [synced], with its key as [firebaseId]. *)
Definition markedSynced (key : string) (r : Report) : Report :=
  applyChanges r [set_syncStatus synced; set_firebaseId (Some key)].

(** The id a snapshot entry is read under: the [id] field of the
    document, or the key it sits under when that field is missing or
    empty. *)
Definition docKey (entry : string * RemoteDoc) : string :=
  default entry.1 (nonBlank (doc_id entry.2)).

(** The document carries a number as [updatedAt]. *)
Definition isStamped (d : RemoteDoc) : bool :=
  if doc_updatedAt d is millis _ then true else false.

(** The toast a rejected write of this report shows, if it is rejected. *)
Definition rejectionToast (remoteSet : string -> RemoteDoc -> option FirebaseError)
    (r : Report) : option Toast :=
  errorToast <$> remoteSet (id r) (toRealtimeDbReport r).

(** What the table holds for a report once the push is over. *)
Definition pushed (remoteSet : string -> RemoteDoc -> option FirebaseError)
    (key : string) (r : Report) : Report :=
  if decide (syncStatus r = pending /\ accepts remoteSet r)
  then markedSynced key r else r.

(** ** Detector vocabulary *)

(** The hook's refs and its state tell the same story: the in-range set
    holds the listed ids, the banner flag says whether there are any, and
    the alert latch equals the banner flag. *)
Definition coherent (d : Detector) : Prop :=
  previouslyInProximityRef d = list_to_set (nearbyReportIds (state d)) /\
  isInProximity (state d) = (0 <? length (nearbyReportIds (state d)))%nat /\
  hasTriggeredAlertRef d = isInProximity (state d).

(** The latch as the two callbacks see it: [onAlertTriggered] has to find
    it open and closes it, [onAlertCleared] has to find it closed and
    opens it; [None] when a call comes out of turn. *)
Fixpoint latchAfter (latched : bool) (calls : list Effect) : option bool :=
  match calls with
  | [] => Some latched
  | onAlertTriggered _ :: rest => if latched then None else latchAfter true rest
  | onAlertCleared :: rest => if latched then latchAfter false rest else None
  | _ :: rest => latchAfter latched rest
  end.

(** ** Sample data *)

(** A clock that advances one millisecond per reading. *)
Definition tickClock (n : nat) : Z := 1700000000000 + Z.of_nat n.

(** A clock that stands still at [t]. *)
Definition frozenClock (t : Z) (n : nat) : Z := t.

(** A report as [addReport] stores it, last modified at [modified]. *)
Definition demoReport (key : string) (modified : Z) : Report :=
  mkReport key 0 0 "broken bottle" None None "2024-05-01T10:00:00.000Z"
           0 false 0 (Some []) (Some []) pending modified None None None None None.

Definition demoWorld : World :=
  mkWorld {[ "r1" := demoReport "r1" 1000 ]} 0.

(** [r1] after device [a] has cast a cleared vote. *)
Definition votedReport : Report :=
  applyChanges (demoReport "r1" 1000)
    [ set_clearedCount 1;
      set_clearedConfirmations (Some [mkConfirmation "a" 1500]);
      set_lastModified 1500 ].

Definition votedWorld : World := mkWorld {[ "r1" := votedReport ]} 0.

(** [r1] resolved by three cleared votes. *)
Definition resolvedReport : Report :=
  applyChanges (demoReport "r1" 1000)
    [ set_clearedCount 3;
      set_clearedConfirmations
        (Some [mkConfirmation "a" 1500; mkConfirmation "b" 1600;
               mkConfirmation "c" 1700]);
      set_resolved true;
      set_lastModified 1700 ].

Definition resolvedWorld : World := mkWorld {[ "r1" := resolvedReport ]} 0.

(** [r1] with one still-there vote by device [x], stamped [stamp]. *)
Definition disputedReport (stamp : Z) : Report :=
  applyChanges (demoReport "r1" 1000)
    [ set_stillThereCount 1;
      set_stillThereConfirmations (Some [mkConfirmation "x" stamp]) ].

Definition disputedWorld (stamp : Z) : World :=
  mkWorld {[ "r1" := disputedReport stamp ]} 0.

(** A resolved report last modified [age] milliseconds before [now]. *)
Definition agedReport (key : string) (now age : Z) : Report :=
  applyChanges (demoReport key (now - age)) [set_resolved true].

(** Three reports at time [demoNow]: resolved 8 days ago, resolved 6 days
    ago, and an old one that is not resolved. *)
Definition demoNow : Z := 1700000000000.

Definition sweepWorld : World :=
  mkWorld (<[ "old" := agedReport "old" demoNow (8 * DAY_MS) ]>
           (<[ "young" := agedReport "young" demoNow (6 * DAY_MS) ]>
            {[ "open" := demoReport "open" 1000 ]})) 0.

(** [r1] with a cleared vote by device [a] and a still-there vote by
    device [x]. *)
Definition contestedReport : Report :=
  applyChanges votedReport
    [ set_stillThereCount 1;
      set_stillThereConfirmations (Some [mkConfirmation "x" 0]) ].

Definition contestedWorld : World := mkWorld {[ "r1" := contestedReport ]} 0.

(** One resolved report, last modified exactly seven days before the
    first reading of [tickClock]. *)
Definition edgeWorld : World :=
  mkWorld {[ "edge" := agedReport "edge" (tickClock 0) (7 * DAY_MS) ]} 0.

(** A row whose stored [clearedCount] is behind its ledger: the count
    says 0, the ledger holds the votes of [b] and [c]. *)
Definition staleCountReport : Report :=
  applyChanges (demoReport "r1" 1000)
    [ set_clearedConfirmations
        (Some [mkConfirmation "b" 1500; mkConfirmation "c" 1600]) ].

Definition staleCountWorld : World := mkWorld {[ "r1" := staleCountReport ]} 0.

(** Distances along one axis: the fix's latitude is its distance in
    metres from a report at latitude 0. *)
Definition axisDistance (la lo rla rlo : Q) : Q := (la - rla)%Q.

Definition fixAt (metres : Q) : Coords := mkCoords metres 0.

(** Local and remote sides of a merge: [a] is newer remotely, [b] is
    newer locally and pending, [c] is local only, [d] is remote only. *)
Definition remoteRecord (key : string) (modified : Z) : Report :=
  applyChanges (demoReport key modified)
    [set_syncStatus synced; set_firebaseId (Some key)].

Definition demoLocal : list Report :=
  [demoReport "a" 100; demoReport "b" 300; demoReport "c" 50].

Definition demoRemote : list Report :=
  [remoteRecord "a" 200; remoteRecord "b" 200; remoteRecord "d" 400].

(** One active report at latitude 0, and a walk past it: 2 m, 5 m, 7 m
    away, one fix per second. *)
Definition demoReports : list Report := [demoReport "r1" 1000].

Definition demoWalk : list (Z * Coords) :=
  [(demoNow, fixAt 2); (demoNow + 1000, fixAt 5); (demoNow + 2000, fixAt 7)].

(** A table with two pending reports and one that is synced. *)
Definition pushWorld : World :=
  mkWorld (<[ "a" := demoReport "a" 100 ]>
           (<[ "b" := demoReport "b" 300 ]>
            {[ "c" := remoteRecord "c" 50 ]})) 0.

(** A remote store whose rules refuse the report [b]. *)
Definition refusesB (key : string) (doc : RemoteDoc) : option FirebaseError :=
  if String.eqb key "b"
  then Some (mkFirebaseError (Some "PERMISSION_DENIED") None)
  else None.

(** What the remote store holds after another device has pushed [a] at
    server time 200 and [d] at server time 400. *)
Definition demoSnapshot : option (list (string * RemoteDoc)) :=
  Some [ ("a", stampedBy 200 (toRealtimeDbReport (demoReport "a" 150)));
         ("d", stampedBy 400 (toRealtimeDbReport (demoReport "d" 350))) ].

(** The detector after the first fix of the walk, with its alert up. *)
Definition latchedDetector : Detector :=
  (checkProximity axisDistance demoReports [] demoNow (fixAt 2) initialDetector).1.

(** * Properties *)

(** ** Sequencing *)

Lemma traverse_cons {A B} (f : A -> Task B) x xs w :
  traverse f (x :: xs) w =
  (result (f x) w :: result (traverse f xs) (after (f x) w),
   after (traverse f xs) (after (f x) w)).
Proof.
  unfold result, after. simpl. unfold bind, ret.
  destruct (f x w) as [b w1]. simpl. now destruct (traverse f xs w1).
Qed.

Lemma hasDeviceConfirmedCleared_voters r dev :
  hasDeviceConfirmedCleared r dev = true <-> dev ∈ voters (clearedConfirmations r).
Proof.
  unfold hasDeviceConfirmedCleared, voters, orEmpty.
  destruct (clearedConfirmations r) as [cs|]; simpl.
  - rewrite existsb_exists, list_elem_of_fmap. split.
    + intros (c & Hc & E). apply String.eqb_eq in E.
      exists c. split; [done | now apply list_elem_of_In].
    + intros (c & E & Hc). exists c. split; [now apply list_elem_of_In |].
      now apply String.eqb_eq.
  - split; [discriminate | intros H; inversion H].
Qed.

(** ** The table after [update] and [bulkUpdate] *)

Lemma update_after key cs w :
  after (Table.update key cs) w
  = mkWorld (alter (fun r => applyChanges r cs) key (reports w)) (ticks w).
Proof.
  unfold after, Table.update.
  destruct (reports w !! key) as [r|] eqn:E; simpl; f_equal.
  - apply map_eq. intros k. rewrite lookup_alter, lookup_insert.
    destruct (decide (key = k)) as [<-|]; [now rewrite E | reflexivity].
  - destruct w as [m t]. simpl in *. f_equal. apply map_eq. intros k.
    rewrite lookup_alter. destruct (decide (key = k)) as [<-|]; [now rewrite E | reflexivity].
Qed.

Lemma update_lookup key cs w k :
  reports (after (Table.update key cs) w) !! k
  = if decide (key = k) then (fun r => applyChanges r cs) <$> reports w !! k
    else reports w !! k.
Proof.
  rewrite update_after. simpl. rewrite lookup_alter.
  destruct (decide (key = k)) as [<-|]; reflexivity.
Qed.

Lemma update_ticks key cs w : ticks (after (Table.update key cs) w) = ticks w.
Proof. now rewrite update_after. Qed.

Lemma bind_after {A B} (m : Task A) (k : A -> Task B) w :
  after (bind m k) w = after (k (result m w)) (after m w).
Proof. unfold after, result, bind. now destruct (m w). Qed.

(** A run of [update]s, one per key of [ids], where the changes [cs key]
    written to a key are idempotent: each listed key that has a row gets
    its changes, every other row stays as it was. *)
Lemma foldl_update_lookup (cs : string -> list Change) (ids : list string) :
  (forall k r, applyChanges (applyChanges r (cs k)) (cs k) = applyChanges r (cs k)) ->
  forall w,
    let w' := foldl (fun w key => after (Table.update key (cs key)) w) w ids in
    ticks w' = ticks w /\
    forall k, reports w' !! k
              = if decide (k ∈ ids)
                then (fun r => applyChanges r (cs k)) <$> reports w !! k
                else reports w !! k.
Proof.
  intros Hidem. induction ids as [|key ids IH]; intros w w'; subst w'.
  - split; [reflexivity|]. intros k. destruct (decide (k ∈ [])) as [H|]; [|reflexivity].
    inversion H.
  - simpl foldl.
    destruct (IH (after (Table.update key (cs key)) w)) as [Ht Hk].
    split; [now rewrite Ht, update_ticks|].
    intros k. rewrite Hk, update_lookup.
    destruct (decide (k ∈ ids)) as [Hin|Hnin];
      destruct (decide (key = k)) as [<-|Hne];
      destruct (decide (_ ∈ _ :: ids)) as [Hin'|Hnin']; try reflexivity.
    + destruct (reports w !! key); simpl; [now rewrite Hidem | reflexivity].
    + exfalso. apply Hnin'. now left.
    + exfalso. apply Hnin'. now right.
    + exfalso. apply Hnin'. now left.
    + apply elem_of_cons in Hin' as [->|?]; [congruence | contradiction].
Qed.

Lemma bulkUpdate_foldl (cs : string -> list Change) (ids : list string) : forall w,
  after (Table.bulkUpdate (map (fun key => (key, cs key)) ids)) w
  = foldl (fun w key => after (Table.update key (cs key)) w) w ids.
Proof.
  induction ids as [|key ids IH]; intros w; [reflexivity|].
  simpl map. simpl Table.bulkUpdate. rewrite bind_after. cbv beta.
  now rewrite IH.
Qed.

Lemma forEach_after_cons {A} (f : A -> Task unit) x xs w :
  after (forEach f (x :: xs)) w = after (forEach f xs) (after (f x) w).
Proof. simpl forEach. now rewrite bind_after. Qed.

Section ClearedVotes.

Variable clock : nat -> Z.

(** The report written by a cast from a device that has not voted yet. *)
Lemma incrementClearedCount_fresh key dev w r :
  reports w !! key = Some r ->
  hasDeviceConfirmedCleared r dev = false ->
  let ledger := orEmpty (clearedConfirmations r)
                ++ [mkConfirmation dev (clock (ticks w))] in
  incrementClearedCount clock key dev w =
  (mkVoteResult true false,
   mkWorld (<[key := applyChanges r
               [ set_clearedCount (Z.of_nat (length ledger));
                 set_clearedConfirmations (Some ledger);
                 set_resolved (3 <=? Z.of_nat (length ledger));
                 set_lastModified (clock (S (ticks w)));
                 set_syncStatus pending ]]> (reports w))
           (S (S (ticks w)))).
Proof.
  intros Hr Hfresh ledger.
  unfold incrementClearedCount, bind, Table.get, Table.update, Date_now, ret.
  simpl. rewrite Hr, Hfresh. simpl. now rewrite Hr.
Qed.

(** A cast from a device already on the ledger is rejected and writes nothing. *)
Lemma incrementClearedCount_dup key dev w r :
  reports w !! key = Some r ->
  hasDeviceConfirmedCleared r dev = true ->
  incrementClearedCount clock key dev w = (mkVoteResult false true, w).
Proof.
  intros Hr Hdup.
  unfold incrementClearedCount, bind, Table.get, ret. simpl.
  now rewrite Hr, Hdup.
Qed.

Lemma voters_fresh_cast r dev stamp :
  voters (Some (orEmpty (clearedConfirmations r) ++ [mkConfirmation dev stamp]))
  = voters (clearedConfirmations r) ++ [dev].
Proof. unfold voters. simpl. now rewrite map_app. Qed.

(** A run of casts from devices that are new to the ledger and pairwise
    distinct: every cast succeeds, the ledger grows by exactly these
    devices, and [resolved] follows the size of the ledger. *)
Lemma castCleared_run key todo : forall w r,
  reports w !! key = Some r ->
  NoDup (voters (clearedConfirmations r) ++ todo) ->
  let m := traverse (incrementClearedCount clock key) todo in
  result m w = replicate (length todo) (mkVoteResult true false) /\
  exists r', reports (after m w) !! key = Some r' /\
    voters (clearedConfirmations r') = voters (clearedConfirmations r) ++ todo /\
    match todo with
    | [] => r' = r
    | _ =>
        clearedCount r' = Z.of_nat (length (voters (clearedConfirmations r'))) /\
        resolved r' = bool_decide (3 <= length (voters (clearedConfirmations r')))%nat
    end.
Proof.
  induction todo as [|dev todo IH]; intros w r Hr Hnd m; subst m.
  - split; [reflexivity|]. exists r. simpl. now rewrite app_nil_r.
  - assert (Hfresh : hasDeviceConfirmedCleared r dev = false).
    { apply not_true_is_false. rewrite hasDeviceConfirmedCleared_voters.
      apply NoDup_app in Hnd as (_ & Hdisj & _). intros Hin.
      apply (Hdisj dev Hin). left. }
    pose proof (incrementClearedCount_fresh key dev w r Hr Hfresh) as Hstep.
    cbv zeta in Hstep.
    set (r1 := applyChanges r _) in Hstep.
    set (w1 := mkWorld _ _) in Hstep.
    unfold result, after. rewrite traverse_cons.
    unfold result, after in *. rewrite Hstep. cbn [fst snd].
    assert (Hr1 : reports w1 !! key = Some r1) by apply lookup_insert_eq.
    assert (Hv1 : voters (clearedConfirmations r1)
                  = voters (clearedConfirmations r) ++ [dev]).
    { subst r1. destruct r. apply voters_fresh_cast. }
    destruct (IH w1 r1 Hr1) as (Hres & r' & Hr' & Hv' & Hres').
    { rewrite Hv1, <- app_assoc. exact Hnd. }
    split; [now rewrite Hres|].
    exists r'. split; [exact Hr'|]. split.
    { rewrite Hv', Hv1, <- app_assoc. reflexivity. }
    destruct todo as [|dev' todo']; [|exact Hres'].
    subst r'. subst r1. destruct r. simpl. unfold voters, orEmpty. simpl.
    rewrite length_map. split; [reflexivity|].
    match goal with
    | |- (3 <=? ?x) = bool_decide _ => destruct (Z.leb_spec 3 x)
    end; [rewrite bool_decide_eq_true_2 | rewrite bool_decide_eq_false_2];
      (reflexivity || lia).
Qed.

(** C1. From an empty cleared ledger and [resolved = false], after each
    of a run of casts by pairwise-distinct devices every cast has
    succeeded, the ledger holds exactly the devices that cast so far,
    and [resolved] is true if and only if at least three devices have
    cast: false after the first and second cast, true from the third. *)
Theorem castCleared_resolved_iff_three key (devs : list string) w r :
  reports w !! key = Some r ->
  orEmpty (clearedConfirmations r) = [] ->
  resolved r = false ->
  NoDup devs ->
  forall n, (n <= length devs)%nat ->
    let m := traverse (incrementClearedCount clock key) (take n devs) in
    result m w = replicate n (mkVoteResult true false) /\
    exists r', reports (after m w) !! key = Some r' /\
      voters (clearedConfirmations r') = take n devs /\
      (resolved r' = true <-> (3 <= n)%nat).
Proof.
  intros Hr Hempty Hres Hnd n Hn m.
  assert (Hlen : length (take n devs) = n) by (rewrite length_take; lia).
  assert (Hv : voters (clearedConfirmations r) = []).
  { unfold voters. now rewrite Hempty. }
  destruct (castCleared_run key (take n devs) w r Hr) as (Hok & r' & Hr' & Hv' & Hst).
  { rewrite Hv. simpl. rewrite <- (take_drop n devs) in Hnd.
    now apply NoDup_app in Hnd as (? & _). }
  split; [subst m; now rewrite Hok, Hlen|].
  exists r'. split; [exact Hr'|]. rewrite Hv in Hv'. simpl in Hv'.
  split; [exact Hv'|].
  destruct (take n devs) as [|d ds] eqn:E.
  - subst r'. simpl in Hlen. subst n. rewrite Hres. split; [discriminate | lia].
  - destruct Hst as [_ ->]. rewrite Hv', bool_decide_eq_true, Hlen. reflexivity.
Qed.

(** C5. A cast by a device already on the cleared ledger returns
    [{success: false, alreadyConfirmed: true}] and changes nothing,
    however often it is repeated: the whole world, and with it the
    report's [clearedCount], [clearedConfirmations] and [resolved], is
    the same after [n] such calls as before. *)
Theorem castCleared_repeat_rejected key dev w r (n : nat) :
  reports w !! key = Some r ->
  dev ∈ voters (clearedConfirmations r) ->
  traverse (fun _ : unit => incrementClearedCount clock key dev) (replicate n tt) w
  = (replicate n (mkVoteResult false true), w).
Proof.
  intros Hr Hin. apply hasDeviceConfirmedCleared_voters in Hin.
  induction n as [|n IH]; [reflexivity|].
  simpl replicate. rewrite traverse_cons. unfold result, after.
  rewrite (incrementClearedCount_dup key dev w r Hr Hin). simpl.
  now rewrite IH.
Qed.

Lemma incrementClearedCount_success_inv key dev w :
  success (result (incrementClearedCount clock key dev) w) = true ->
  exists r, reports w !! key = Some r /\ hasDeviceConfirmedCleared r dev = false.
Proof.
  unfold result, incrementClearedCount, bind, Table.get, ret. simpl.
  destruct (reports w !! key) as [r|]; [|discriminate].
  destruct (hasDeviceConfirmedCleared r dev) eqn:E; [discriminate|].
  intros _. now exists r.
Qed.

Lemma bulkMarkResolved_lookup ids w k :
  reports (after (bulkMarkResolved clock ids) w) !! k
  = if decide (k ∈ ids)
    then (fun r => applyChanges r [ set_resolved true;
                                    set_lastModified (clock (ticks w));
                                    set_syncStatus pending ]) <$> reports w !! k
    else reports w !! k.
Proof.
  unfold bulkMarkResolved. rewrite bind_after. cbv beta.
  unfold result at 1. simpl fst.
  rewrite (bulkUpdate_foldl
             (fun _ => [ set_resolved true; set_lastModified (clock (ticks w));
                         set_syncStatus pending ])).
  destruct (foldl_update_lookup
              (fun _ => [ set_resolved true; set_lastModified (clock (ticks w));
                          set_syncStatus pending ]) ids)
    with (w := after (Date_now clock) w) as [_ Hk].
  { intros _ r. now destruct r. }
  apply Hk.
Qed.

(** C9, as the code has it.  A successful cleared cast writes
    [clearedCount] as the length of the ledger it writes, whatever count
    was stored, and [resolved] as the truth value of [clearedCount >= 3]
    for that count.  Hence, when the cast is made on a world that
    [bulkMarkResolved] has just produced, the report that the override
    had made resolved is unresolved again after the cast exactly when
    its cleared ledger held fewer than two confirmations. *)
Theorem castCleared_overwrites_resolved key dev w :
  success (result (incrementClearedCount clock key dev) w) = true ->
  (exists r r',
     reports w !! key = Some r /\
     reports (after (incrementClearedCount clock key dev) w) !! key = Some r' /\
     clearedCount r'
     = Z.of_nat (length (orEmpty (clearedConfirmations r))) + 1 /\
     resolved r' = (3 <=? clearedCount r')) /\
  (forall w0 ids r0,
     w = after (bulkMarkResolved clock ids) w0 ->
     reports w0 !! key = Some r0 ->
     key ∈ ids ->
     exists r r',
       reports w !! key = Some r /\ resolved r = true /\
       reports (after (incrementClearedCount clock key dev) w) !! key = Some r' /\
       (resolved r' = false <->
        (length (orEmpty (clearedConfirmations r0)) < 2)%nat)).
Proof.
  intros Hok. destruct (incrementClearedCount_success_inv _ _ _ Hok) as (r & Hr & Hfresh).
  pose proof (incrementClearedCount_fresh key dev w r Hr Hfresh) as Hstep.
  cbv zeta in Hstep.
  match type of Hstep with
  | _ = (_, mkWorld (<[_ := ?x]> _) _) => set (r1 := x) in Hstep
  end.
  assert (Ha : reports (after (incrementClearedCount clock key dev) w) !! key
               = Some r1).
  { unfold after. rewrite Hstep. apply lookup_insert_eq. }
  rewrite Ha. clear Hstep Ha. split.
  - exists r, r1. split; [exact Hr|]. split; [reflexivity|].
    subst r1. destruct r. simpl. rewrite length_app. simpl. split; [lia | reflexivity].
  - intros w0 ids r0 -> Hr0 Hin.
    rewrite bulkMarkResolved_lookup in Hr.
    destruct (decide (key ∈ ids)); [|contradiction].
    rewrite Hr0 in Hr. simpl in Hr. injection Hr as Hr.
    exists r, r1. rewrite bulkMarkResolved_lookup.
    destruct (decide (key ∈ ids)); [|contradiction]. rewrite Hr0.
    split; [simpl; now rewrite Hr|].
    split; [subst r; now destruct r0|].
    split; [reflexivity|].
    subst r1 r. destruct r0. simpl in *. rewrite length_app. simpl.
    rewrite Z.leb_gt. lia.
Qed.

End ClearedVotes.

(** ** Still-there votes and the rebuttal rule *)

Section StillThereVotes.

Variable clock : nat -> Z.

Lemma recently_spec r dev w :
  hasDeviceConfirmedStillThereRecently clock r dev w
  = (existsb (fun c => String.eqb (deviceId c) dev
                       && (clock (ticks w) - DAY_MS <? timestamp c))
             (orEmpty (stillThereConfirmations r)),
     mkWorld (reports w) (S (ticks w))).
Proof.
  unfold hasDeviceConfirmedStillThereRecently, bind, Date_now, ret, orEmpty.
  now destruct (stillThereConfirmations r).
Qed.

(** The device has an entry on the still-there ledger stamped less than
    24 hours before [now]. *)
Lemma recently_true r dev w :
  result (hasDeviceConfirmedStillThereRecently clock r dev) w = true <->
  exists c, c ∈ orEmpty (stillThereConfirmations r) /\ deviceId c = dev /\
            clock (ticks w) - DAY_MS < timestamp c.
Proof.
  unfold result. rewrite recently_spec. simpl. rewrite existsb_exists.
  split.
  - intros (c & Hc & E). apply andb_true_iff in E as [E1 E2].
    exists c. split; [now apply list_elem_of_In|].
    split; [now apply String.eqb_eq | now apply Z.ltb_lt].
  - intros (c & Hc & E1 & E2). exists c. split; [now apply list_elem_of_In|].
    apply andb_true_iff. split; [now apply String.eqb_eq | now apply Z.ltb_lt].
Qed.

Lemma incrementStillThereCount_blocked key dev w r :
  reports w !! key = Some r ->
  result (hasDeviceConfirmedStillThereRecently clock r dev) w = true ->
  incrementStillThereCount clock key dev w
  = (mkVoteResult false true, mkWorld (reports w) (S (ticks w))).
Proof.
  intros Hr Hrec. unfold result in Hrec. rewrite recently_spec in Hrec.
  unfold incrementStillThereCount, bind at 1, Table.get. simpl.
  rewrite Hr. unfold bind at 1. rewrite recently_spec.
  simpl in Hrec. now rewrite Hrec.
Qed.

Lemma incrementStillThereCount_fresh key dev w r :
  reports w !! key = Some r ->
  result (hasDeviceConfirmedStillThereRecently clock r dev) w = false ->
  let ledger := orEmpty (stillThereConfirmations r)
                ++ [mkConfirmation dev (clock (S (ticks w)))] in
  let reset := 2 <=? Z.of_nat (length ledger) in
  incrementStillThereCount clock key dev w =
  (mkVoteResult true false,
   mkWorld (<[key := applyChanges r
               [ set_stillThereCount (Z.of_nat (length ledger));
                 set_stillThereConfirmations (Some ledger);
                 set_clearedCount (if reset then 0 else clearedCount r);
                 set_clearedConfirmations
                   (if reset then Some [] else clearedConfirmations r);
                 set_resolved false;
                 set_lastModified (clock (S (S (ticks w))));
                 set_syncStatus pending ]]> (reports w))
           (S (S (S (ticks w))))).
Proof.
  intros Hr Hrec ledger reset. unfold result in Hrec.
  rewrite recently_spec in Hrec. simpl in Hrec.
  unfold incrementStillThereCount, bind at 1, Table.get. simpl.
  rewrite Hr. unfold bind at 1. rewrite recently_spec. rewrite Hrec.
  unfold bind, Date_now, Table.update, ret. simpl. now rewrite Hr.
Qed.

Lemma incrementStillThereCount_success_inv key dev w :
  success (result (incrementStillThereCount clock key dev) w) = true ->
  exists r, reports w !! key = Some r /\
    result (hasDeviceConfirmedStillThereRecently clock r dev) w = false.
Proof.
  intros Hok. destruct (reports w !! key) as [r|] eqn:Hr.
  - exists r. split; [reflexivity|].
    destruct (result (hasDeviceConfirmedStillThereRecently clock r dev) w) eqn:E;
      [|reflexivity].
    unfold result in Hok.
    now rewrite (incrementStillThereCount_blocked key dev w r Hr E) in Hok.
  - unfold result, incrementStillThereCount, bind, Table.get, ret in Hok.
    simpl in Hok. now rewrite Hr in Hok.
Qed.

(** The report written by a successful still-there cast. *)
Lemma incrementStillThereCount_written key dev w :
  success (result (incrementStillThereCount clock key dev) w) = true ->
  exists r r',
    reports w !! key = Some r /\
    reports (after (incrementStillThereCount clock key dev) w) !! key = Some r' /\
    stillThereConfirmations r'
      = Some (orEmpty (stillThereConfirmations r)
              ++ [mkConfirmation dev (clock (S (ticks w)))]) /\
    stillThereCount r'
      = Z.of_nat (length (orEmpty (stillThereConfirmations r))) + 1 /\
    resolved r' = false /\
    (if 2 <=? stillThereCount r'
     then clearedConfirmations r' = Some [] /\ clearedCount r' = 0
     else clearedConfirmations r' = clearedConfirmations r /\
          clearedCount r' = clearedCount r).
Proof.
  intros Hok.
  destruct (incrementStillThereCount_success_inv _ _ _ Hok) as (r & Hr & Hrec).
  pose proof (incrementStillThereCount_fresh key dev w r Hr Hrec) as Hstep.
  cbv zeta in Hstep.
  match type of Hstep with
  | _ = (_, mkWorld (<[_ := ?x]> _) _) => set (r1 := x) in Hstep
  end.
  exists r, r1. split; [exact Hr|]. split.
  { unfold after. rewrite Hstep. apply lookup_insert_eq. }
  subst r1. destruct r. simpl. rewrite length_app. simpl length.
  replace (Z.of_nat (_ + 1)) with
    (Z.of_nat (length (orEmpty stillThereConfirmations0)) + 1) by lia.
  repeat split; try reflexivity.
  match goal with
  | |- if ?b then _ else _ => destruct b
  end; split; reflexivity.
Qed.

(** C4. While the device has an entry on the still-there ledger stamped
    less than 24 hours before the clock reading of the check, its cast
    returns [{success: false, alreadyConfirmed: true}] and leaves every
    report as it was.  Once every entry of the device is 24 hours old or
    older, its cast succeeds and appends a new entry for the device. *)
Theorem castStillThere_cooldown key dev w r :
  reports w !! key = Some r ->
  let now := clock (ticks w) in
  let cast := incrementStillThereCount clock key dev in
  ((exists c, c ∈ orEmpty (stillThereConfirmations r) /\ deviceId c = dev /\
              now - DAY_MS < timestamp c) ->
   result cast w = mkVoteResult false true /\
   reports (after cast w) = reports w) /\
  ((forall c, c ∈ orEmpty (stillThereConfirmations r) -> deviceId c = dev ->
              timestamp c + DAY_MS <= now) ->
   result cast w = mkVoteResult true false /\
   exists r', reports (after cast w) !! key = Some r' /\
     stillThereConfirmations r'
       = Some (orEmpty (stillThereConfirmations r)
               ++ [mkConfirmation dev (clock (S (ticks w)))])).
Proof.
  intros Hr now cast. split.
  - intros Hrecent. apply recently_true in Hrecent.
    subst cast. unfold result, after.
    now rewrite (incrementStillThereCount_blocked key dev w r Hr Hrecent).
  - intros Hold.
    assert (Hrec : result (hasDeviceConfirmedStillThereRecently clock r dev) w
                   = false).
    { apply not_true_is_false. rewrite recently_true.
      intros (c & Hc & Hd & Hlt). specialize (Hold c Hc Hd). subst now. lia. }
    pose proof (incrementStillThereCount_fresh key dev w r Hr Hrec) as Hstep.
    cbv zeta in Hstep. subst cast. unfold result, after. rewrite Hstep.
    split; [reflexivity|]. eexists. split; [apply lookup_insert_eq|].
    now destruct r.
Qed.

(** C10. Every successful still-there cast writes [resolved = false],
    whatever the resulting [stillThereCount]; the cleared ledger and
    count are erased only when that count reaches 2, and are otherwise
    left as they were (so one vote on an empty still-there ledger
    un-resolves the report and keeps its cleared votes). *)
Theorem castStillThere_always_unresolves key dev w :
  success (result (incrementStillThereCount clock key dev) w) = true ->
  exists r r',
    reports w !! key = Some r /\
    reports (after (incrementStillThereCount clock key dev) w) !! key = Some r' /\
    resolved r' = false /\
    stillThereCount r'
      = Z.of_nat (length (orEmpty (stillThereConfirmations r))) + 1 /\
    (stillThereCount r' < 2 ->
       clearedConfirmations r' = clearedConfirmations r /\
       clearedCount r' = clearedCount r) /\
    (2 <= stillThereCount r' ->
       clearedConfirmations r' = Some [] /\ clearedCount r' = 0).
Proof.
  intros Hok.
  destruct (incrementStillThereCount_written key dev w Hok)
    as (r & r' & Hr & Hr' & _ & Hcount & Hres & Hreset).
  exists r, r'. repeat (split; [assumption|]).
  destruct (Z.leb_spec 2 (stillThereCount r')); split; intros; (lia || assumption).
Qed.

(** C2. On a resolved report with three or more cleared votes, two
    successful still-there casts by two distinct devices leave the
    report with [clearedCount = 0], an empty cleared ledger and
    [resolved = false]. *)
Theorem rebuttal_resets_cleared key d1 d2 w r :
  reports w !! key = Some r ->
  3 <= clearedCount r ->
  resolved r = true ->
  d1 <> d2 ->
  let cast1 := incrementStillThereCount clock key d1 in
  let cast2 := incrementStillThereCount clock key d2 in
  success (result cast1 w) = true ->
  success (result cast2 (after cast1 w)) = true ->
  exists r', reports (after cast2 (after cast1 w)) !! key = Some r' /\
    clearedCount r' = 0 /\
    clearedConfirmations r' = Some [] /\
    resolved r' = false.
Proof.
  intros Hr _ _ _ cast1 cast2 Hok1 Hok2.
  destruct (incrementStillThereCount_written key d1 w Hok1)
    as (r0 & r1 & Hr0 & Hr1 & Hl1 & _).
  destruct (incrementStillThereCount_written key d2 _ Hok2)
    as (r1' & r2 & Hr1' & Hr2 & _ & Hcount & Hres & Hreset).
  fold cast1 in Hr1, Hr1'. rewrite Hr1 in Hr1'. injection Hr1' as <-.
  exists r2. split; [exact Hr2|].
  rewrite Hl1 in Hcount. simpl in Hcount. rewrite length_app in Hcount.
  simpl in Hcount.
  destruct (Z.leb_spec 2 (stillThereCount r2)); [|lia].
  destruct Hreset. auto.
Qed.

End StillThereVotes.

(** ** Sync bookkeeping written by local mutations *)

Section Stamps.

Variable clock : nat -> Z.




Lemma bulkMarkResolved_ticks ids w :
  ticks (after (bulkMarkResolved clock ids) w) = S (ticks w).
Proof.
  unfold bulkMarkResolved. rewrite bind_after. cbv beta.
  unfold result at 1. simpl fst.
  rewrite (bulkUpdate_foldl
             (fun _ => [ set_resolved true; set_lastModified (clock (ticks w));
                         set_syncStatus pending ])).
  destruct (foldl_update_lookup
              (fun _ => [ set_resolved true; set_lastModified (clock (ticks w));
                          set_syncStatus pending ]) ids)
    with (w := after (Date_now clock) w) as [Ht _].
  { intros _ r. now destruct r. }
  exact Ht.
Qed.


Lemma markAsSynced_foldl ids fids : forall w,
  after (markAsSynced ids fids) w
  = foldl (fun w key =>
             after (Table.update key
                      [set_syncStatus synced; set_firebaseId (fids ≫= (.!! key))]) w)
          w ids.
Proof.
  unfold markAsSynced. induction ids as [|key ids IH]; intros w; [reflexivity|].
  rewrite forEach_after_cons, IH. simpl foldl. f_equal.
  now rewrite bind_after.
Qed.

Lemma markAsSynced_lookup ids fids w k :
  reports (after (markAsSynced ids fids) w) !! k
  = if decide (k ∈ ids)
    then (fun r => applyChanges r
            [set_syncStatus synced; set_firebaseId (fids ≫= (.!! k))])
         <$> reports w !! k
    else reports w !! k.
Proof.
  rewrite markAsSynced_foldl.
  pose proof (foldl_update_lookup
              (fun key => [set_syncStatus synced; set_firebaseId (fids ≫= (.!! key))])
              ids) as H.
  destruct (H (fun _ r => ltac:(now destruct r)) w) as [_ Hk].
  apply Hk.
Qed.


End Stamps.

(** ** The auto-archive sweep *)

Section Sweep.

Variable clock : nat -> Z.

Lemma shouldArchive_due now r :
  shouldArchive (now - 7 * DAY_MS) r = true <-> due now r.
Proof.
  unfold shouldArchive, due.
  rewrite !andb_true_iff, negb_true_iff, Z.ltb_lt. intuition lia.
Qed.

Lemma archiveReport_after key w :
  after (archiveReport clock key) w
  = mkWorld (alter (archivedAtTick clock (ticks w)) key (reports w))
            (S (S (ticks w))).
Proof.
  unfold archiveReport. rewrite !bind_after. cbv beta.
  unfold ret at 1, after at 1. simpl snd. rewrite update_after.
  reflexivity.
Qed.

Lemma NoDup_fmap_filter {A B} (f : A -> B) (P : A -> Prop)
    `{forall x, Decision (P x)} (xs : list A) :
  NoDup (f <$> xs) -> NoDup (f <$> filter P xs).
Proof.
  induction xs as [|x xs IH]; [trivial|].
  rewrite fmap_cons, NoDup_cons. intros [Hx Hnd].
  rewrite filter_cons. destruct (decide (P x)); [|auto].
  rewrite fmap_cons, NoDup_cons. split; [|auto].
  intros Hin. apply Hx. apply list_elem_of_fmap in Hin as (y & -> & Hy).
  apply list_elem_of_filter in Hy as [_ Hy].
  apply list_elem_of_fmap. now exists y.
Qed.

(** Archiving a list of reports with pairwise-distinct ids: each listed
    row is archived with two readings of its own, the rest is untouched. *)
Lemma forEach_archive (xs : list Report) : forall w,
  NoDup (id <$> xs) ->
  let w' := after (forEach (fun report => archiveReport clock (id report)) xs) w in
  ticks w' = (ticks w + 2 * length xs)%nat /\
  forall k,
    (k ∉ id <$> xs -> reports w' !! k = reports w !! k) /\
    (k ∈ id <$> xs ->
       exists i, (ticks w <= i /\ S i < ticks w')%nat /\
         reports w' !! k = archivedAtTick clock i <$> reports w !! k).
Proof.
  induction xs as [|x xs IH]; intros w Hnd w'; subst w'.
  - split; [unfold after; simpl; lia|]. intros k. split; [reflexivity|].
    intros H. inversion H.
  - rewrite fmap_cons, NoDup_cons in Hnd. destruct Hnd as [Hx Hnd].
    rewrite forEach_after_cons.
    destruct (IH (after (archiveReport clock (id x)) w) Hnd) as [Ht Hk].
    rewrite archiveReport_after in *. simpl ticks in *. simpl reports in *.
    split; [rewrite Ht; simpl; lia|].
    intros k. destruct (Hk k) as [Hout Hin]. split.
    + intros Hnin. rewrite fmap_cons, not_elem_of_cons in Hnin.
      destruct Hnin as [Hne Hnin]. rewrite (Hout Hnin).
      now rewrite lookup_alter_ne.
    + intros Hk'. rewrite fmap_cons, elem_of_cons in Hk'.
      destruct (decide (k = id x)) as [->|Hne].
      * exists (ticks w). split; [lia|].
        rewrite (Hout Hx). now rewrite lookup_alter_eq.
      * destruct Hk' as [?|Hk']; [contradiction|].
        destruct (Hin Hk') as (i & Hi & Hl). exists i. split; [lia|].
        rewrite Hl. now rewrite lookup_alter_ne.
Qed.

Lemma toArray_ids (m : gmap string Report) :
  keyed m -> id <$> (map_to_list m).*2 = (map_to_list m).*1.
Proof.
  intros Hkeyed.
  assert (H : forall l : list (string * Report),
             (forall kr, kr ∈ l -> id kr.2 = kr.1) -> id <$> l.*2 = l.*1).
  { induction l as [|kr l IH]; intros Hl; [reflexivity|].
    rewrite !fmap_cons. f_equal.
    - apply Hl. left.
    - apply IH. intros kr' Hin. apply Hl. now right. }
  apply H. intros [k r] Hin. apply elem_of_map_to_list in Hin.
  now apply Hkeyed.
Qed.

Lemma toArray_elem (m : gmap string Report) r :
  keyed m -> r ∈ (map_to_list m).*2 <-> m !! id r = Some r.
Proof.
  intros Hkeyed. rewrite list_elem_of_fmap. split.
  - intros ([k r'] & -> & Hin). apply elem_of_map_to_list in Hin.
    simpl. now rewrite (Hkeyed _ _ Hin).
  - intros Hr. exists (id r, r). split; [reflexivity|].
    now apply elem_of_map_to_list.
Qed.

Lemma sweep_run w :
  let now := clock (ticks w) in
  let xs := filter (fun r => shouldArchive (now - 7 * DAY_MS) r = true)
                   (map_to_list (reports w)).*2 in
  autoArchiveOldResolvedReports clock w
  = (Z.of_nat (length xs),
     after (forEach (fun report => archiveReport clock (id report)) xs)
           (mkWorld (reports w) (S (ticks w)))).
Proof.
  intros now xs. unfold autoArchiveOldResolvedReports, bind at 1, Date_now.
  unfold bind at 1, Table.toArray. simpl reports. fold now. fold xs.
  unfold bind, ret, after.
  now destruct (forEach _ xs _).
Qed.

Lemma sweep_lookup w :
  keyed (reports w) ->
  let now := clock (ticks w) in
  let w' := after (autoArchiveOldResolvedReports clock) w in
  (ticks w < ticks w')%nat /\
  forall k,
    ((forall r, reports w !! k = Some r -> ~ due now r) ->
     reports w' !! k = reports w !! k) /\
    (forall r, reports w !! k = Some r -> due now r ->
       exists i, (ticks w < i /\ S i < ticks w')%nat /\
         reports w' !! k = Some (archivedAtTick clock i r)).
Proof.
  intros Hkeyed now w'. subst w'.
  set (xs := filter (fun r => shouldArchive (now - 7 * DAY_MS) r = true)
                    (map_to_list (reports w)).*2).
  assert (Hw' : after (autoArchiveOldResolvedReports clock) w
                = after (forEach (fun report => archiveReport clock (id report)) xs)
                        (mkWorld (reports w) (S (ticks w)))).
  { unfold after at 1. now rewrite sweep_run. }
  rewrite Hw'. clear Hw'.
  assert (Hnd : NoDup (id <$> xs)).
  { apply NoDup_fmap_filter. rewrite toArray_ids by assumption.
    apply NoDup_fst_map_to_list. }
  assert (Hin : forall k, k ∈ id <$> xs <->
                 exists r, reports w !! k = Some r /\ due now r).
  { intros k. rewrite list_elem_of_fmap. split.
    - intros (r & -> & Hr). apply list_elem_of_filter in Hr as [HP Hr].
      apply toArray_elem in Hr; [|assumption].
      exists r. split; [assumption | now apply shouldArchive_due].
    - intros (r & Hr & Hdue). exists r.
      split; [symmetry; now apply Hkeyed|].
      apply list_elem_of_filter. split; [now apply shouldArchive_due|].
      apply toArray_elem; [assumption|].
      now rewrite (Hkeyed _ _ Hr). }
  destruct (forEach_archive xs (mkWorld (reports w) (S (ticks w))) Hnd)
    as [Ht Hk].
  simpl ticks in *. simpl reports in *.
  split; [lia|]. intros k. destruct (Hk k) as [Hout Hin']. split.
  - intros Hnot. apply Hout. rewrite Hin. intros (r & Hr & Hdue).
    exact (Hnot r Hr Hdue).
  - intros r Hr Hdue.
    destruct Hin' as (i & Hi & Hl); [apply Hin; now exists r|].
    exists i. split; [lia|]. now rewrite Hl, Hr.
Qed.

Lemma archivedAtTick_fields i r :
  let r' := archivedAtTick clock i r in
  id r' = id r /\ archived r' = Some true /\ archivedAt r' = Some (clock i) /\
  resolved r' = resolved r.
Proof. now destruct r. Qed.

Lemma filter_none {A} (P : A -> Prop) `{forall x, Decision (P x)} (l : list A) :
  (forall x, x ∈ l -> ~ P x) -> filter P l = [].
Proof.
  induction l as [|x l IH]; intros Hl; [reflexivity|].
  rewrite filter_cons_False by (apply Hl; left).
  apply IH. intros y Hy. apply Hl. now right.
Qed.

(** C6, as the code has it.  On a table whose rows carry their own key,
    the sweep started at clock reading [now] archives exactly the
    reports that are resolved, not archived and last modified more than
    7 days before [now]: each gets [archived = true] and [archivedAt] a
    clock reading taken by the sweep; all other rows are untouched, and
    the returned count is the number of such reports.  A second sweep
    reads the clock again, at [now']: it returns 0 exactly when no
    report of the first table is due at [now'] without having been due
    at [now]; when it returns 0 it changes no report; and this is so
    whenever [now' = now].  A resolved, unarchived report 8 days old is
    archived; one 6 days old is not. *)
Theorem autoArchive_exact_and_idempotent w :
  keyed (reports w) ->
  let now := clock (ticks w) in
  let sweep := autoArchiveOldResolvedReports clock in
  let w' := after sweep w in
  let now' := clock (ticks w') in
  (forall k r, reports w !! k = Some r ->
     (due now r ->
        exists i r', (ticks w < i < ticks w')%nat /\
          reports w' !! k = Some r' /\ r' = archivedAtTick clock i r /\
          archived r' = Some true /\ archivedAt r' = Some (clock i)) /\
     (~ due now r -> reports w' !! k = Some r)) /\
  (forall k, reports w !! k = None -> reports w' !! k = None) /\
  result sweep w
    = Z.of_nat (length (filter (due now) (map_to_list (reports w)).*2)) /\
  (result sweep w' = 0 <->
     forall k r, reports w !! k = Some r -> due now' r -> due now r) /\
  (result sweep w' = 0 -> reports (after sweep w') = reports w') /\
  (now' = now ->
     result sweep w' = 0 /\ reports (after sweep w') = reports w') /\
  (forall k r, reports w !! k = Some r ->
     resolved r = true -> truthy (archived r) = false ->
     (now - lastModified r = 8 * DAY_MS ->
        exists r', reports w' !! k = Some r' /\ archived r' = Some true) /\
     (now - lastModified r = 6 * DAY_MS -> reports w' !! k = Some r)).
Proof.
  intros Hkeyed now sweep w' now'.
  destruct (sweep_lookup w Hkeyed) as [Ht Hk]. fold now sweep w' in Ht, Hk.
  assert (Hsome : forall k r, reports w !! k = Some r ->
     (due now r ->
        exists i r', (ticks w < i < ticks w')%nat /\
          reports w' !! k = Some r' /\ r' = archivedAtTick clock i r /\
          archived r' = Some true /\ archivedAt r' = Some (clock i)) /\
     (~ due now r -> reports w' !! k = Some r)).
  { intros k r Hr. destruct (Hk k) as [Hout Hin]. split.
    - intros Hdue. destruct (Hin r Hr Hdue) as (i & Hi & Hl).
      exists i, (archivedAtTick clock i r).
      destruct (archivedAtTick_fields i r) as (_ & Ha & Hat & _).
      repeat split; try assumption; lia.
    - intros Hnot. rewrite Hout, Hr; [reflexivity|].
      intros r0 Hr0. now replace r0 with r by congruence. }
  assert (Hnone : forall k, reports w !! k = None -> reports w' !! k = None).
  { intros k Hr. destruct (Hk k) as [Hout _]. rewrite Hout, Hr; [reflexivity|].
    intros r0 Hr0. congruence. }
  assert (Hkeyed' : keyed (reports w')).
  { intros k r' Hr'. destruct (reports w !! k) as [r|] eqn:Hr.
    - destruct (Hsome k r Hr) as [Hdue Hnot].
      destruct (decide (due now r)) as [Hd|Hd].
      + destruct (Hdue Hd) as (i & r1 & _ & Hr1 & -> & _).
        rewrite Hr1 in Hr'. injection Hr' as <-.
        destruct (archivedAtTick_fields i r) as (-> & _). now apply Hkeyed.
      + rewrite (Hnot Hd) in Hr'. injection Hr' as <-. now apply Hkeyed.
    - rewrite (Hnone k Hr) in Hr'. discriminate. }
  set (xs' := filter (fun r => shouldArchive (now' - 7 * DAY_MS) r = true)
                     (map_to_list (reports w')).*2).
  assert (Hrun' : result sweep w' = Z.of_nat (length xs') /\
                  (xs' = [] -> reports (after sweep w') = reports w')).
  { unfold result, after, sweep. rewrite sweep_run. cbv zeta. fold now' xs'.
    split; [reflexivity|]. now intros ->. }
  destruct Hrun' as [Hcount' Hidle'].
  assert (Hzero : result sweep w' = 0 <-> xs' = []).
  { rewrite Hcount'. destruct xs'; simpl; split; intros H;
      try reflexivity; try discriminate; lia. }
  assert (Hquiet : xs' = [] <->
            forall k r, reports w !! k = Some r -> due now' r -> due now r).
  { split.
    - intros Hnil k r Hr Hlate.
      destruct (decide (due now r)) as [Hd|Hd]; [exact Hd | exfalso].
      destruct (Hsome k r Hr) as [_ Hnot]. specialize (Hnot Hd).
      assert (Hin : r ∈ xs').
      { apply list_elem_of_filter. split; [now apply shouldArchive_due|].
        apply toArray_elem; [exact Hkeyed'|]. now rewrite (Hkeyed _ _ Hr). }
      rewrite Hnil in Hin. inversion Hin.
    - intros Hsettled. apply filter_none. intros r' Hin.
      apply toArray_elem in Hin; [|assumption].
      rewrite shouldArchive_due.
      destruct (reports w !! id r') as [r|] eqn:Hr.
      + destruct (Hsome _ r Hr) as [Hdue Hnot].
        destruct (decide (due now r)) as [Hd|Hd].
        * destruct (Hdue Hd) as (i & r1 & _ & Hr1 & _ & Ha & _).
          rewrite Hr1 in Hin. injection Hin as <-.
          intros (_ & Hb & _). rewrite Ha in Hb. discriminate.
        * rewrite (Hnot Hd) in Hin. injection Hin as <-.
          intros Hlate. apply Hd. now apply (Hsettled _ _ Hr).
      + rewrite (Hnone _ Hr) in Hin. discriminate. }
  split; [exact Hsome|]. split; [exact Hnone|].
  split; [|split; [|split; [|split]]].
  - unfold result, sweep. rewrite sweep_run. cbv zeta. simpl fst. fold now.
    f_equal. f_equal. apply list_filter_iff. intros r. apply shouldArchive_due.
  - now rewrite Hzero, Hquiet.
  - intros H0. apply Hidle'. now apply Hzero.
  - intros Hsame.
    assert (Hnil : xs' = []) by (apply Hquiet; intros k r _; now rewrite Hsame).
    split; [now apply Hzero | now apply Hidle'].
  - intros k r Hr Hres Harch. destruct (Hsome k r Hr) as [Hdue Hnot]. split.
    + intros H8. destruct Hdue as (i & r' & _ & Hr' & _ & Ha & _).
      { unfold due, DAY_MS in *. repeat split; try assumption. lia. }
      now exists r'.
    + intros H6. apply Hnot. intros (_ & _ & H7). unfold DAY_MS in *. lia.
Qed.

End Sweep.

(** ** Merging local and remote records *)

Section Merge.

Lemma orZero_id x : orZero x = x.
Proof. unfold orZero. destruct (Z.eqb_spec x 0); congruence. Qed.

Lemma eqb_refl' (k : string) : String.eqb k k = true.
Proof. now apply String.eqb_eq. Qed.

Lemma eqb_ne (k k' : string) : k <> k' -> String.eqb k k' = false.
Proof. intros H. now apply String.eqb_neq. Qed.

Lemma get_set_eq key v m : JsMap.get key (JsMap.set key v m) = Some v.
Proof.
  induction m as [|[k v'] m IH]; simpl.
  - now rewrite eqb_refl'.
  - destruct (String.eqb k key) eqn:E; simpl.
    + now rewrite eqb_refl'.
    + now rewrite E.
Qed.

Lemma get_set_ne key key' v m :
  key <> key' -> JsMap.get key' (JsMap.set key v m) = JsMap.get key' m.
Proof.
  intros Hne. induction m as [|[k v'] m IH]; simpl.
  - now rewrite eqb_ne.
  - destruct (String.eqb k key) eqn:E; simpl.
    + apply String.eqb_eq in E. subst k. now rewrite !eqb_ne.
    + now rewrite IH.
Qed.

Lemma get_None key (m : JsMap.t) : JsMap.get key m = None <-> key ∉ m.*1.
Proof.
  induction m as [|[k v] m IH]; simpl.
  - split; [intros _ H; inversion H | reflexivity].
  - rewrite not_elem_of_cons. destruct (String.eqb_spec k key) as [->|Hne].
    + split; [discriminate | intros [H _]; contradiction].
    + rewrite IH. split; [intros H; split; [congruence | exact H] | now intros [_ H]].
Qed.

Lemma get_Some_elem key v (m : JsMap.t) :
  JsMap.get key m = Some v -> (key, v) ∈ m.
Proof.
  induction m as [|[k v'] m IH]; simpl; [discriminate|].
  destruct (String.eqb_spec k key) as [->|Hne].
  - intros [= ->]. left.
  - intros H. right. now apply IH.
Qed.

Lemma keys_set key v (m : JsMap.t) :
  (JsMap.set key v m).*1
  = if JsMap.get key m is Some _ then m.*1 else m.*1 ++ [key].
Proof.
  induction m as [|[k v'] m IH]; [reflexivity|].
  cbn [JsMap.set JsMap.get].
  destruct (String.eqb_spec k key) as [->|Hne]; rewrite !fmap_cons; cbn [fst];
    [reflexivity|].
  rewrite IH. now destruct (JsMap.get key m).
Qed.

(** Every value sits under its own id. *)
Lemma keyed_set key v (m : JsMap.t) :
  id v = key -> keyedEntries m -> keyedEntries (JsMap.set key v m).
Proof.
  unfold keyedEntries.
  intros Hv. induction m as [|[k v'] m IH]; simpl; intros Hm kv Hin.
  - apply list_elem_of_singleton in Hin. now subst kv.
  - destruct (String.eqb_spec k key) as [->|Hne].
    + apply elem_of_cons in Hin as [->|Hin]; [exact Hv|].
      apply Hm. now right.
    + apply elem_of_cons in Hin as [->|Hin]; [apply (Hm (k, v')); left|].
      apply IH; [|exact Hin]. intros kv' Hkv'. apply Hm. now right.
Qed.

Lemma set_fresh key v (m : JsMap.t) :
  key ∉ m.*1 -> JsMap.set key v m = m ++ [(key, v)].
Proof.
  induction m as [|[k v'] m IH]; [reflexivity|].
  rewrite fmap_cons, not_elem_of_cons. cbn [fst]. intros [Hne Hnin].
  cbn [JsMap.set]. rewrite eqb_ne by congruence. now rewrite IH.
Qed.

Lemma keyedEntries_ids (m : JsMap.t) : keyedEntries m -> id <$> m.*2 = m.*1.
Proof.
  induction m as [|kv m IH]; intros Hm; [reflexivity|].
  rewrite !fmap_cons. f_equal.
  - apply Hm. left.
  - apply IH. intros kv' Hin. apply Hm. now right.
Qed.

(** The first loop: with pairwise-distinct ids the map lists the local
    records in order, each under its id. *)
Lemma localLoop (xs : list Report) : forall m : JsMap.t,
  NoDup (m.*1 ++ (id <$> xs)) ->
  foldl (fun m report => JsMap.set (id report) report m) m xs
  = m ++ ((fun r => (id r, r)) <$> xs).
Proof.
  induction xs as [|x xs IH]; intros m Hnd; simpl.
  - now rewrite app_nil_r.
  - rewrite set_fresh.
    + rewrite IH.
      * now rewrite <- app_assoc.
      * rewrite fmap_app, <- app_assoc. exact Hnd.
    + apply NoDup_app in Hnd as (_ & Hdisj & _). intros Hin.
      apply (Hdisj _ Hin). rewrite fmap_cons. left.
Qed.

Lemma get_pairs (xs : list Report) x :
  NoDup (id <$> xs) -> x ∈ xs ->
  JsMap.get (id x) ((fun r => (id r, r)) <$> xs) = Some x.
Proof.
  induction xs as [|y xs IH]; intros Hnd Hin; [inversion Hin|].
  rewrite fmap_cons in Hnd. apply NoDup_cons in Hnd as [Hy Hnd].
  rewrite fmap_cons. cbn [JsMap.get].
  apply elem_of_cons in Hin as [->|Hin].
  - now rewrite eqb_refl'.
  - rewrite eqb_ne; [now apply IH|].
    intros E. apply Hy. rewrite E. apply list_elem_of_fmap. now exists x.
Qed.

Lemma mergeRemote_eq m r :
  mergeRemote m r
  = match JsMap.get (id r) m with
    | None => JsMap.set (id r) r m
    | Some l =>
        if lastModified l <? lastModified r
        then JsMap.set (id r) (applyChange r (set_syncStatus synced)) m
        else if (lastModified r <? lastModified l)
                && bool_decide (syncStatus l = pending)
             then JsMap.set (id r) l m
             else m
    end.
Proof.
  unfold mergeRemote. destruct (JsMap.get (id r) m); [|reflexivity].
  cbv zeta. now rewrite !orZero_id.
Qed.

Lemma get_mergeRemote m r k :
  JsMap.get k (mergeRemote m r)
  = if decide (k = id r) then Some (mergeOne (JsMap.get k m) r)
    else JsMap.get k m.
Proof.
  rewrite mergeRemote_eq. unfold mergeOne.
  destruct (decide (k = id r)) as [->|Hne].
  - destruct (JsMap.get (id r) m) as [l|] eqn:E.
    + destruct (lastModified l <? lastModified r); [apply get_set_eq|].
      destruct (_ && _); [apply get_set_eq | exact E].
    + apply get_set_eq.
  - destruct (JsMap.get (id r) m) as [l|] eqn:E.
    + destruct (lastModified l <? lastModified r);
        [now apply get_set_ne|].
      destruct (_ && _); [now apply get_set_ne | reflexivity].
    + now apply get_set_ne.
Qed.

Lemma keys_mergeRemote m r :
  (mergeRemote m r).*1
  = if decide (id r ∈ m.*1) then m.*1 else m.*1 ++ [id r].
Proof.
  rewrite mergeRemote_eq.
  destruct (JsMap.get (id r) m) as [l|] eqn:E.
  - assert (Hin : id r ∈ m.*1).
    { destruct (decide (id r ∈ m.*1)) as [H|H]; [exact H|].
      apply get_None in H. congruence. }
    destruct (decide (id r ∈ m.*1)); [|contradiction].
    destruct (_ <? _); [now rewrite keys_set, E|].
    destruct (_ && _); [now rewrite keys_set, E | reflexivity].
  - rewrite keys_set, E. apply get_None in E.
    destruct (decide (id r ∈ m.*1)); [contradiction | reflexivity].
Qed.

Lemma keyedEntries_mergeRemote m r :
  keyedEntries m -> keyedEntries (mergeRemote m r).
Proof.
  intros Hm. rewrite mergeRemote_eq.
  destruct (JsMap.get (id r) m) as [l|] eqn:E.
  - destruct (_ <? _); [apply keyed_set; [now destruct r | exact Hm]|].
    destruct (_ && _); [|exact Hm].
    apply keyed_set; [|exact Hm].
    apply get_Some_elem in E. exact (Hm _ E).
  - now apply keyed_set.
Qed.

Lemma filter_agree {A} (P Q : A -> Prop)
    `{forall x, Decision (P x)} `{forall x, Decision (Q x)} (l : list A) :
  (forall x, x ∈ l -> P x <-> Q x) -> filter P l = filter Q l.
Proof.
  induction l as [|x l IH]; intros Hl; [reflexivity|].
  assert (Hx : P x <-> Q x) by (apply Hl; left).
  assert (Hrest : filter P l = filter Q l).
  { apply IH. intros y Hy. apply Hl. now right. }
  rewrite !filter_cons.
  destruct (decide (P x)), (decide (Q x)); try tauto; now rewrite Hrest.
Qed.

(** The second loop over remote records with pairwise-distinct ids. *)
Lemma remoteLoop (rs : list Report) : forall m : JsMap.t,
  NoDup (id <$> rs) -> keyedEntries m ->
  let m' := foldl mergeRemote m rs in
  m'.*1 = m.*1 ++ filter (fun k => k ∉ m.*1) (id <$> rs) /\
  keyedEntries m' /\
  forall k,
    (k ∉ id <$> rs -> JsMap.get k m' = JsMap.get k m) /\
    (forall r, r ∈ rs -> id r = k ->
       JsMap.get k m' = Some (mergeOne (JsMap.get k m) r)).
Proof.
  induction rs as [|r rs IH]; intros m Hnd Hm m'; subst m'.
  - simpl. rewrite app_nil_r. repeat split; try assumption.
    intros r Hr. inversion Hr.
  - rewrite fmap_cons in Hnd. apply NoDup_cons in Hnd as [Hr Hnd].
    simpl foldl.
    destruct (IH (mergeRemote m r) Hnd (keyedEntries_mergeRemote m r Hm))
      as (Hkeys & Hkeyed & Hget).
    split; [|split; [exact Hkeyed|]].
    + rewrite Hkeys, keys_mergeRemote, fmap_cons.
      destruct (decide (id r ∈ m.*1)) as [Hin|Hnin].
      * now rewrite filter_cons_False by tauto.
      * rewrite filter_cons_True by exact Hnin.
        rewrite <- app_assoc. simpl. do 2 f_equal.
        apply filter_agree. intros k Hk. rewrite not_elem_of_app.
        split; [tauto|]. intros Hk'. split; [exact Hk'|].
        rewrite list_elem_of_singleton. intros ->. contradiction.
    + intros k. destruct (Hget k) as [Hout Hin]. split.
      * intros Hk. rewrite fmap_cons, not_elem_of_cons in Hk.
        destruct Hk as [Hne Hk]. rewrite (Hout Hk), get_mergeRemote.
        destruct (decide (k = id r)); [contradiction | reflexivity].
      * intros r' Hr' Hid. apply elem_of_cons in Hr' as [->|Hr'].
        -- subst k. rewrite (Hout Hr), get_mergeRemote.
           destruct (decide (id r = id r)); [reflexivity | contradiction].
        -- rewrite (Hin r' Hr' Hid), get_mergeRemote.
           destruct (decide (k = id r)) as [E|]; [|reflexivity].
           exfalso. apply Hr. rewrite <- E, <- Hid.
           apply list_elem_of_fmap. now exists r'.
Qed.


End Merge.

(** ** Proximity hysteresis and the alert latch *)

Section ProximitySpec.

Variable calculateDistance : Q -> Q -> Q -> Q -> Q.
Variable reportList : list Report.
Variable suppressedReportIds : list string.

Lemma scanReport_eq previously position ids (cur : gset string) x :
  scanReport calculateDistance suppressedReportIds previously position (ids, cur) x
  = if negb (includes suppressedReportIds (id x))
       && inRange calculateDistance previously position x
    then (ids ++ [id x], {[id x]} ∪ cur)
    else (ids, cur).
Proof.
  unfold scanReport, inRange, distanceTo.
  destruct (includes suppressedReportIds (id x)); [reflexivity|].
  destruct (Qle_bool _ ENTRY_RADIUS_METERS); [reflexivity|].
  now destruct (Qle_bool _ EXIT_RADIUS_METERS && bool_decide _).
Qed.

Lemma scan_foldl previously position (xs : list Report) :
  forall (ids : list string) (cur : gset string),
  foldl (scanReport calculateDistance suppressedReportIds previously position)
        (ids, cur) xs
  = (ids ++ (id <$> filter (fun r =>
               negb (includes suppressedReportIds (id r))
               && inRange calculateDistance previously position r = true) xs),
     list_to_set (id <$> filter (fun r =>
               negb (includes suppressedReportIds (id r))
               && inRange calculateDistance previously position r = true) xs)
     ∪ cur).
Proof.
  induction xs as [|x xs IH]; intros ids cur.
  - simpl. rewrite app_nil_r. f_equal. now rewrite (left_id_L ∅ (∪)).
  - cbn [foldl]. rewrite scanReport_eq, filter_cons.
    destruct (negb _ && inRange _ _ _ x).
    + destruct (decide (true = true)); [|contradiction].
      rewrite IH, fmap_cons, <- app_assoc. simpl. f_equal.
      rewrite (assoc_L (∪)). f_equal. apply (comm_L (∪)).
    + destruct (decide (false = true)); [discriminate|]. apply IH.
Qed.

Lemma near_filters previously position :
  filter (fun r => negb (includes suppressedReportIds (id r))
                   && inRange calculateDistance previously position r = true)
         (filter (fun r => negb (resolved r) && negb (truthy (archived r)) = true)
                 reportList)
  = near calculateDistance reportList suppressedReportIds previously position.
Proof.
  unfold near. rewrite list_filter_filter. apply list_filter_iff.
  intros r. unfold candidate.
  destruct (resolved r), (truthy (archived r)),
    (includes suppressedReportIds (id r)), (inRange _ _ _ r); simpl; intuition discriminate.
Qed.

(** A fix that passes the debounce, spelled out. *)
Lemma checkProximity_run now position d :
  DEBOUNCE_MS <= now - lastCheckRef d ->
  let previously := previouslyInProximityRef d in
  let nearbyIds :=
    id <$> near calculateDistance reportList suppressedReportIds previously position in
  let newlyEntered := filter (fun key => key ∉ previously) nearbyIds in
  let justExited := (length nearbyIds =? 0)%nat && (0 <? size previously)%nat in
  let fire := (0 <? length newlyEntered)%nat && negb (hasTriggeredAlertRef d) in
  checkProximity calculateDistance reportList suppressedReportIds now position d
  = (mkDetector now (list_to_set nearbyIds)
       (if justExited then false
        else if fire then true else hasTriggeredAlertRef d)
       (mkProximityAlertState (0 <? length nearbyIds)%nat nearbyIds
          (Some (latitude position, longitude position))),
     (if fire
      then [triggerVibration; showNotification; onAlertTriggered nearbyIds]
      else [])
     ++ (if justExited then [onAlertCleared] else [])).
Proof.
  intros Hdeb. cbv zeta. unfold checkProximity.
  rewrite (proj2 (Z.ltb_ge _ _) Hdeb).
  rewrite scan_foldl, near_filters. simpl app.
  now rewrite (right_id_L ∅ (∪)).
Qed.

Lemma inRange_spec previously position r :
  inRange calculateDistance previously position r = true <->
  (distanceTo calculateDistance position r <= 3)%Q \/
  (id r ∈ previously /\ (distanceTo calculateDistance position r <= 6)%Q).
Proof.
  unfold inRange, ENTRY_RADIUS_METERS, EXIT_RADIUS_METERS.
  rewrite orb_true_iff, andb_true_iff, !Qle_bool_iff, bool_decide_eq_true.
  tauto.
Qed.

Lemma near_elem previously position r :
  r ∈ near calculateDistance reportList suppressedReportIds previously position <->
  r ∈ reportList /\ candidate suppressedReportIds r = true /\
  inRange calculateDistance previously position r = true.
Proof.
  unfold near. rewrite list_elem_of_filter, andb_true_iff. tauto.
Qed.

(** With [r] the only candidate, a fix finds [r] or nothing. *)
Lemma near_only r previously position :
  filter (fun r' => candidate suppressedReportIds r' = true) reportList = [r] ->
  near calculateDistance reportList suppressedReportIds previously position
  = if inRange calculateDistance previously position r then [r] else [].
Proof.
  intros Honly. unfold near.
  rewrite (list_filter_iff _
             (fun r' => inRange calculateDistance previously position r' = true
                        /\ candidate suppressedReportIds r' = true)).
  2:{ intros r'. rewrite andb_true_iff. tauto. }
  rewrite <- list_filter_filter, Honly, filter_cons, filter_nil.
  destruct (inRange _ _ _ r); destruct (decide _); congruence.
Qed.

Lemma step_found r now position d :
  filter (fun r' => candidate suppressedReportIds r' = true) reportList = [r] ->
  DEBOUNCE_MS <= now - lastCheckRef d ->
  inRange calculateDistance (previouslyInProximityRef d) position r = true ->
  let known := bool_decide (id r ∈ previouslyInProximityRef d) in
  let fire := negb known && negb (hasTriggeredAlertRef d) in
  checkProximity calculateDistance reportList suppressedReportIds now position d
  = (mkDetector now {[id r]} (if fire then true else hasTriggeredAlertRef d)
       (mkProximityAlertState true [id r]
          (Some (latitude position, longitude position))),
     if fire
     then [triggerVibration; showNotification; onAlertTriggered [id r]]
     else []).
Proof.
  intros Honly Hdeb Hin known fire. subst known fire.
  rewrite (checkProximity_run now position d Hdeb). cbv zeta.
  rewrite (near_only r _ _ Honly), Hin. simpl fmap.
  rewrite filter_cons, filter_nil. simpl list_to_set.
  rewrite (right_id_L ∅ (∪)).
  destruct (decide (id r ∉ previouslyInProximityRef d)) as [Hn|Hn].
  - rewrite bool_decide_eq_false_2 by exact Hn. simpl.
    destruct (hasTriggeredAlertRef d); reflexivity.
  - rewrite bool_decide_eq_true_2 by (destruct (decide (id r ∈ previouslyInProximityRef d)); tauto).
    reflexivity.
Qed.

Lemma step_lost r now position d :
  filter (fun r' => candidate suppressedReportIds r' = true) reportList = [r] ->
  DEBOUNCE_MS <= now - lastCheckRef d ->
  inRange calculateDistance (previouslyInProximityRef d) position r = false ->
  let justExited := (0 <? size (previouslyInProximityRef d))%nat in
  checkProximity calculateDistance reportList suppressedReportIds now position d
  = (mkDetector now ∅ (if justExited then false else hasTriggeredAlertRef d)
       (mkProximityAlertState false []
          (Some (latitude position, longitude position))),
     if justExited then [onAlertCleared] else []).
Proof.
  intros Honly Hdeb Hout justExited. subst justExited.
  rewrite (checkProximity_run now position d Hdeb). cbv zeta.
  rewrite (near_only r _ _ Honly), Hout. simpl.
  now destruct (0 <? size (previouslyInProximityRef d))%nat.
Qed.

(** A fix that arrives less than [DEBOUNCE_MS] after the last processed
    one is dropped: no state changes, no calls. *)
Lemma checkProximity_dropped now position d :
  now - lastCheckRef d < DEBOUNCE_MS ->
  checkProximity calculateDistance reportList suppressedReportIds now position d
  = (d, []).
Proof.
  intros Hdeb. unfold checkProximity. now rewrite (proj2 (Z.ltb_lt _ _) Hdeb).
Qed.

(** An unlatched detector has an empty in-range set: the invariant that
    makes "idle" and "nothing in range" the same state. *)
Lemma idle_range_empty now position d :
  (hasTriggeredAlertRef d = false -> previouslyInProximityRef d = ∅) ->
  let d' := (checkProximity calculateDistance reportList suppressedReportIds
                            now position d).1 in
  hasTriggeredAlertRef d' = false -> previouslyInProximityRef d' = ∅.
Proof.
  intros Hinv d'. subst d'.
  destruct (Z.lt_ge_cases (now - lastCheckRef d) DEBOUNCE_MS) as [Hdrop|Hrun].
  - now rewrite (checkProximity_dropped now position d Hdrop).
  - rewrite (checkProximity_run now position d Hrun). cbv zeta.
    cbn [fst previouslyInProximityRef hasTriggeredAlertRef].
    destruct (id <$> near calculateDistance reportList suppressedReportIds
                          (previouslyInProximityRef d) position)
      as [|key keys] eqn:E; [reflexivity|].
    cbn [length Nat.eqb andb].
    destruct (hasTriggeredAlertRef d) eqn:Ht.
    + rewrite andb_false_r. discriminate.
    + rewrite (Hinv eq_refl), filter_cons_True by apply not_elem_of_empty.
      discriminate.
Qed.

Lemma watch_idle_range_empty (fixes : list (Z * Coords)) : forall d,
  (hasTriggeredAlertRef d = false -> previouslyInProximityRef d = ∅) ->
  let d' := (watch calculateDistance reportList suppressedReportIds fixes d).1 in
  hasTriggeredAlertRef d' = false -> previouslyInProximityRef d' = ∅.
Proof.
  induction fixes as [|[now position] fixes IH]; intros d Hinv; [exact Hinv|].
  pose proof (idle_range_empty now position d Hinv) as Hstep.
  cbv zeta in Hstep. cbn [watch].
  destruct (checkProximity _ _ _ now position d) as [d1 calls].
  specialize (IH d1 Hstep). cbv zeta in IH.
  now destruct (watch _ _ _ fixes d1).
Qed.

(** C7, as the code has it.  For a report [r] that the detector looks
    at (active, not suppressed, its id shared by no other such report)
    and every fix that is processed, that is, one that arrives at least
    1000 ms after the last processed fix: [r] is in range after the fix
    if and only
    if its distance is at most 3 m, or it was in range before the fix
    and its distance is at most 6 m.  With [r] the only such report and
    the detector idle with an empty in-range set: a fix within 3 m
    (say 2 m) fires the alert once and latches; a next fix within 6 m
    (say 5 m) makes no call and stays latched; a next fix beyond 6 m
    (say 7 m) empties the in-range set, calls [onAlertCleared] and
    unlatches.  While latched, a fix that finds [r] within 3 m makes no
    call at all and stays latched. *)
Theorem proximity_hysteresis_latch (r : Report) :
  r ∈ reportList ->
  candidate suppressedReportIds r = true ->
  (forall r', r' ∈ reportList -> candidate suppressedReportIds r' = true ->
              id r' = id r -> r' = r) ->
  let step := checkProximity calculateDistance reportList suppressedReportIds in
  let dist position := distanceTo calculateDistance position r in
  (forall now position d,
     DEBOUNCE_MS <= now - lastCheckRef d ->
     id r ∈ previouslyInProximityRef (step now position d).1 <->
     (dist position <= 3)%Q \/
     (id r ∈ previouslyInProximityRef d /\ (dist position <= 6)%Q)) /\
  (filter (fun r' => candidate suppressedReportIds r' = true) reportList = [r] ->
   forall d0 t1 p1 t2 p2 t3 p3,
     hasTriggeredAlertRef d0 = false ->
     previouslyInProximityRef d0 = ∅ ->
     DEBOUNCE_MS <= t1 - lastCheckRef d0 ->
     DEBOUNCE_MS <= t2 - t1 ->
     DEBOUNCE_MS <= t3 - t2 ->
     (dist p1 <= 3)%Q -> (dist p2 <= 6)%Q -> ~ (dist p3 <= 6)%Q ->
     let s1 := step t1 p1 d0 in
     let s2 := step t2 p2 s1.1 in
     let s3 := step t3 p3 s2.1 in
     s1.2 = [triggerVibration; showNotification; onAlertTriggered [id r]] /\
     hasTriggeredAlertRef s1.1 = true /\
     s2.2 = [] /\ hasTriggeredAlertRef s2.1 = true /\
     id r ∈ previouslyInProximityRef s2.1 /\
     s3.2 = [onAlertCleared] /\ hasTriggeredAlertRef s3.1 = false /\
     previouslyInProximityRef s3.1 = ∅ /\
     watch calculateDistance reportList suppressedReportIds
           [(t1, p1); (t2, p2); (t3, p3)] d0
     = (s3.1, [s1.2; s2.2; s3.2])) /\
  (forall now position d,
     hasTriggeredAlertRef d = true ->
     DEBOUNCE_MS <= now - lastCheckRef d ->
     (dist position <= 3)%Q ->
     (step now position d).2 = [] /\
     hasTriggeredAlertRef (step now position d).1 = true).
Proof.
  intros Hr Hcand Huniq step dist. split; [|split].
  - intros now position d Hdeb. subst step dist. cbv beta.
    rewrite (checkProximity_run now position d Hdeb). cbv zeta. simpl.
    rewrite elem_of_list_to_set, list_elem_of_fmap.
    rewrite <- (inRange_spec (previouslyInProximityRef d) position r). split.
    + intros (r' & Hid & Hin). apply near_elem in Hin as (Hin & Hc & Hrange).
      now rewrite <- (Huniq r' Hin Hc (eq_sym Hid)).
    + intros Hrange. exists r. split; [reflexivity|]. now apply near_elem.
  - intros Honly d0 t1 p1 t2 p2 t3 p3 Hidle Hempty Hd1 Hd2 Hd3 H1 H2 H3 s1 s2 s3.
    assert (E1 : s1 = (mkDetector t1 {[id r]} true
                         (mkProximityAlertState true [id r]
                            (Some (latitude p1, longitude p1))),
                       [triggerVibration; showNotification; onAlertTriggered [id r]])).
    { subst s1 step. rewrite (step_found r t1 p1 d0 Honly Hd1).
      - cbv zeta. rewrite Hempty, Hidle.
        rewrite bool_decide_eq_false_2 by apply not_elem_of_empty. reflexivity.
      - apply inRange_spec. now left. }
    assert (E2 : s2 = (mkDetector t2 {[id r]} true
                         (mkProximityAlertState true [id r]
                            (Some (latitude p2, longitude p2))), [])).
    { subst s2 step. rewrite E1. cbn [fst].
      rewrite (step_found r t2 p2 _ Honly);
        cbn [previouslyInProximityRef hasTriggeredAlertRef lastCheckRef].
      - cbv zeta. rewrite bool_decide_eq_true_2 by now apply elem_of_singleton.
        reflexivity.
      - exact Hd2.
      - apply inRange_spec. right. split; [now apply elem_of_singleton | exact H2]. }
    assert (E3 : s3 = (mkDetector t3 ∅ false
                         (mkProximityAlertState false []
                            (Some (latitude p3, longitude p3))), [onAlertCleared])).
    { subst s3 step. rewrite E2. cbn [fst].
      rewrite (step_lost r t3 p3 _ Honly);
        cbn [previouslyInProximityRef hasTriggeredAlertRef lastCheckRef].
      - cbv zeta. now rewrite size_singleton.
      - exact Hd3.
      - apply not_true_is_false. rewrite inRange_spec. intros [H|[_ H]]; [|tauto].
        apply H3. eapply Qle_trans; [exact H|]. discriminate. }
    assert (Hw : watch calculateDistance reportList suppressedReportIds
                   [(t1, p1); (t2, p2); (t3, p3)] d0 = (s3.1, [s1.2; s2.2; s3.2])).
    { subst s3 s2 s1 step. simpl watch.
      destruct (checkProximity _ _ _ t1 p1 d0) as [d1 c1]. simpl.
      destruct (checkProximity _ _ _ t2 p2 d1) as [d2 c2]. simpl.
      now destruct (checkProximity _ _ _ t3 p3 d2) as [d3 c3]. }
    rewrite Hw. rewrite E1, E2, E3. simpl.
    repeat split; try reflexivity. now apply elem_of_singleton.
  - intros now position d Halert Hdeb Hclose. subst step.
    rewrite (checkProximity_run now position d Hdeb). cbv zeta. simpl.
    rewrite Halert, andb_false_r.
    assert (Hnear : r ∈ near calculateDistance reportList suppressedReportIds
                          (previouslyInProximityRef d) position).
    { apply near_elem. repeat split; try assumption.
      apply inRange_spec. now left. }
    destruct (near _ _ _ _ _) as [|x xs]; [inversion Hnear|].
    simpl. split; reflexivity.
Qed.

End ProximitySpec.

(** * The statements at concrete inputs *)

Lemma castCleared_resolved_iff_three_witness :
  (reports demoWorld !! "r1" = Some (demoReport "r1" 1000) /\
   orEmpty (clearedConfirmations (demoReport "r1" 1000)) = [] /\
   resolved (demoReport "r1" 1000) = false /\
   NoDup ["a"; "b"; "c"; "d"] /\ (3 <= 4)%nat) /\
  (let m := traverse (incrementClearedCount tickClock "r1") ["a"; "b"; "c"] in
   result m demoWorld = replicate 3 (mkVoteResult true false) /\
   exists r', reports (after m demoWorld) !! "r1" = Some r' /\
     voters (clearedConfirmations r') = ["a"; "b"; "c"] /\
     (resolved r' = true <-> (3 <= 3)%nat)).
Proof.
  assert (Hnd : NoDup ["a"; "b"; "c"; "d"]).
  { apply (bool_decide_unpack _). vm_compute. exact I. }
  split; [repeat split; try reflexivity; try exact Hnd; lia|].
  apply (castCleared_resolved_iff_three tickClock "r1" ["a"; "b"; "c"; "d"]
           demoWorld (demoReport "r1" 1000) eq_refl eq_refl eq_refl Hnd 3).
  simpl. lia.
Defined.

Lemma castCleared_repeat_rejected_witness :
  (reports votedWorld !! "r1" = Some votedReport /\
   "a" ∈ voters (clearedConfirmations votedReport)) /\
  traverse (fun _ : unit => incrementClearedCount tickClock "r1" "a")
           (replicate 5 tt) votedWorld
  = (replicate 5 (mkVoteResult false true), votedWorld).
Proof.
  assert (Hin : "a" ∈ voters (clearedConfirmations votedReport)).
  { apply (bool_decide_unpack _). vm_compute. exact I. }
  split; [split; [reflexivity | exact Hin]|].
  apply (castCleared_repeat_rejected tickClock "r1" "a" votedWorld votedReport 5);
    [reflexivity | exact Hin].
Defined.

Lemma castCleared_overwrites_resolved_witness :
  success (result (incrementClearedCount tickClock "r1" "a")
                  (after (bulkMarkResolved tickClock ["r1"]) demoWorld)) = true /\
  exists r r',
    reports (after (bulkMarkResolved tickClock ["r1"]) demoWorld) !! "r1" = Some r /\
    resolved r = true /\
    reports (after (incrementClearedCount tickClock "r1" "a")
                   (after (bulkMarkResolved tickClock ["r1"]) demoWorld)) !! "r1"
      = Some r' /\
    resolved r' = false.
Proof.
  assert (Hok : success (result (incrementClearedCount tickClock "r1" "a")
                  (after (bulkMarkResolved tickClock ["r1"]) demoWorld)) = true)
    by (vm_compute; reflexivity).
  split; [exact Hok|].
  destruct (castCleared_overwrites_resolved tickClock "r1" "a" _ Hok) as [_ H].
  destruct (H demoWorld ["r1"] (demoReport "r1" 1000)) as (r & r' & Hr & Hres & Hr' & Hback);
    [reflexivity | reflexivity | left|].
  exists r, r'. split; [exact Hr|]. split; [exact Hres|]. split; [exact Hr'|].
  apply Hback. vm_compute. lia.
Defined.

(** C9 as it is worded does not hold.  The cast counts the ledger,
    not the stored [clearedCount]: a report whose count reads 0 while its
    ledger holds two confirmations is resolved by the override, and a
    cast from a new device writes count 3 and leaves it resolved. *)
Lemma stale_count_stays_resolved :
  ~ (forall (clock : nat -> Z) (key dev : string) (ids : list string)
            (w0 : World) (r0 : Report),
       reports w0 !! key = Some r0 ->
       key ∈ ids ->
       clearedCount r0 < 2 ->
       let w := after (bulkMarkResolved clock ids) w0 in
       success (result (incrementClearedCount clock key dev) w) = true ->
       exists r',
         reports (after (incrementClearedCount clock key dev) w) !! key = Some r' /\
         resolved r' = false).
Proof.
  intros H.
  destruct (H tickClock "r1" "a" ["r1"] staleCountWorld staleCountReport)
    as (r' & Hr' & Hres).
  - reflexivity.
  - left.
  - reflexivity.
  - vm_compute. reflexivity.
  - vm_compute in Hr'. injection Hr' as <-. discriminate Hres.
Qed.

Lemma rebuttal_resets_cleared_witness :
  exists r',
    reports (after (incrementStillThereCount tickClock "r1" "y")
              (after (incrementStillThereCount tickClock "r1" "x") resolvedWorld))
      !! "r1" = Some r' /\
    clearedCount r' = 0 /\ clearedConfirmations r' = Some [] /\ resolved r' = false.
Proof.
  apply (rebuttal_resets_cleared tickClock "r1" "x" "y" resolvedWorld resolvedReport).
  - reflexivity.
  - simpl. lia.
  - reflexivity.
  - discriminate.
  - vm_compute. reflexivity.
  - vm_compute. reflexivity.
Defined.

Lemma castStillThere_always_unresolves_witness :
  success (result (incrementStillThereCount tickClock "r1" "x") resolvedWorld) = true /\
  exists r r',
    reports resolvedWorld !! "r1" = Some r /\
    reports (after (incrementStillThereCount tickClock "r1" "x") resolvedWorld) !! "r1"
      = Some r' /\
    resolved r' = false /\
    stillThereCount r'
      = Z.of_nat (length (orEmpty (stillThereConfirmations r))) + 1 /\
    (stillThereCount r' < 2 ->
       clearedConfirmations r' = clearedConfirmations r /\
       clearedCount r' = clearedCount r) /\
    (2 <= stillThereCount r' ->
       clearedConfirmations r' = Some [] /\ clearedCount r' = 0).
Proof.
  assert (Hok : success (result (incrementStillThereCount tickClock "r1" "x")
                                resolvedWorld) = true) by (vm_compute; reflexivity).
  split; [exact Hok|].
  exact (castStillThere_always_unresolves tickClock "r1" "x" resolvedWorld Hok).
Defined.

Lemma castStillThere_cooldown_witness :
  (result (incrementStillThereCount tickClock "r1" "x")
          (disputedWorld (tickClock 0 - 3600000))
   = mkVoteResult false true /\
   reports (after (incrementStillThereCount tickClock "r1" "x")
                  (disputedWorld (tickClock 0 - 3600000)))
   = reports (disputedWorld (tickClock 0 - 3600000))) /\
  (result (incrementStillThereCount tickClock "r1" "x")
          (disputedWorld (tickClock 0 - DAY_MS - 1))
   = mkVoteResult true false /\
   exists r',
     reports (after (incrementStillThereCount tickClock "r1" "x")
                    (disputedWorld (tickClock 0 - DAY_MS - 1))) !! "r1" = Some r' /\
     stillThereConfirmations r'
     = Some [mkConfirmation "x" (tickClock 0 - DAY_MS - 1);
             mkConfirmation "x" (tickClock 1)]).
Proof.
  split.
  - destruct (castStillThere_cooldown tickClock "r1" "x"
                (disputedWorld (tickClock 0 - 3600000))
                (disputedReport (tickClock 0 - 3600000)) eq_refl) as [Hblocked _].
    apply Hblocked. exists (mkConfirmation "x" (tickClock 0 - 3600000)).
    split; [left|]. split; [reflexivity|]. vm_compute. reflexivity.
  - destruct (castStillThere_cooldown tickClock "r1" "x"
                (disputedWorld (tickClock 0 - DAY_MS - 1))
                (disputedReport (tickClock 0 - DAY_MS - 1)) eq_refl) as [_ Hfree].
    apply Hfree. intros c Hc _. apply list_elem_of_singleton in Hc. subst c.
    vm_compute. discriminate.
Defined.


Lemma sweepWorld_keyed : keyed (reports sweepWorld).
Proof.
  intros k r Hr.
  apply (map_Forall_lookup_1 (fun k r => id r = k) (reports sweepWorld)); [|exact Hr].
  apply (bool_decide_unpack _). vm_compute. exact I.
Qed.

Lemma autoArchive_exact_and_idempotent_witness :
  keyed (reports sweepWorld) /\
  (exists r', reports (after (autoArchiveOldResolvedReports (frozenClock demoNow))
                             sweepWorld) !! "old" = Some r' /\
              archived r' = Some true) /\
  reports (after (autoArchiveOldResolvedReports (frozenClock demoNow)) sweepWorld)
    !! "young" = Some (agedReport "young" demoNow (6 * DAY_MS)) /\
  result (autoArchiveOldResolvedReports (frozenClock demoNow))
         (after (autoArchiveOldResolvedReports (frozenClock demoNow)) sweepWorld) = 0 /\
  reports (after (autoArchiveOldResolvedReports (frozenClock demoNow))
            (after (autoArchiveOldResolvedReports (frozenClock demoNow)) sweepWorld))
  = reports (after (autoArchiveOldResolvedReports (frozenClock demoNow)) sweepWorld).
Proof.
  split; [exact sweepWorld_keyed|].
  destruct (autoArchive_exact_and_idempotent (frozenClock demoNow) sweepWorld
              sweepWorld_keyed) as (_ & _ & _ & _ & _ & Hidem & Hdays).
  destruct (Hdays "old" (agedReport "old" demoNow (8 * DAY_MS)))
    as [Hold _]; try reflexivity.
  destruct (Hdays "young" (agedReport "young" demoNow (6 * DAY_MS)))
    as [_ Hyoung]; try reflexivity.
  split; [apply Hold; vm_compute; reflexivity|].
  split; [apply Hyoung; vm_compute; reflexivity|].
  apply Hidem. reflexivity.
Defined.

(** C6 as the specification words it does not hold.  Each sweep reads
    the clock anew, so a second sweep run right after the first is not
    always idle: a resolved report that is exactly seven days old at the
    first reading is left alone by the first sweep and archived by the
    second, one millisecond later. *)
Lemma second_sweep_archives_newly_due :
  ~ (forall (clock : nat -> Z) (w : World),
       keyed (reports w) ->
       let sweep := autoArchiveOldResolvedReports clock in
       result sweep (after sweep w) = 0 /\
       reports (after sweep (after sweep w)) = reports (after sweep w)).
Proof.
  intros H.
  assert (Hkeyed : keyed (reports edgeWorld)).
  { intros k r Hr.
    apply (map_Forall_lookup_1 (fun k r => id r = k) (reports edgeWorld));
      [|exact Hr].
    apply (bool_decide_unpack _). vm_compute. exact I. }
  destruct (H tickClock edgeWorld Hkeyed) as [Hcount _].
  vm_compute in Hcount. discriminate.
Qed.



Lemma proximity_hysteresis_latch_witness :
  (demoReport "r1" 1000 ∈ demoReports /\
   candidate [] (demoReport "r1" 1000) = true) /\
  (id (demoReport "r1" 1000)
     ∈ previouslyInProximityRef
         (checkProximity axisDistance demoReports [] demoNow (fixAt 2)
                         initialDetector).1
   <-> (distanceTo axisDistance (fixAt 2) (demoReport "r1" 1000) <= 3)%Q \/
       (id (demoReport "r1" 1000) ∈ previouslyInProximityRef initialDetector /\
        (distanceTo axisDistance (fixAt 2) (demoReport "r1" 1000) <= 6)%Q)) /\
  (watch axisDistance demoReports [] demoWalk initialDetector).2
  = [ [triggerVibration; showNotification; onAlertTriggered ["r1"]];
      [];
      [onAlertCleared] ] /\
  hasTriggeredAlertRef (watch axisDistance demoReports [] demoWalk initialDetector).1
  = false /\
  previouslyInProximityRef (watch axisDistance demoReports [] demoWalk initialDetector).1
  = ∅ /\
  (forall d, hasTriggeredAlertRef d = true ->
             DEBOUNCE_MS <= demoNow - lastCheckRef d ->
     (checkProximity axisDistance demoReports [] demoNow (fixAt 2) d).2 = [] /\
     hasTriggeredAlertRef
       (checkProximity axisDistance demoReports [] demoNow (fixAt 2) d).1 = true).
Proof.
  assert (Hin : demoReport "r1" 1000 ∈ demoReports) by left.
  assert (Hcand : candidate [] (demoReport "r1" 1000) = true) by reflexivity.
  split; [split; assumption|].
  destruct (proximity_hysteresis_latch axisDistance demoReports []
              (demoReport "r1" 1000) Hin Hcand) as (Hhyst & Hwalk & Hlatched).
  { intros r' Hr' _ _. now apply list_elem_of_singleton in Hr'. }
  split; [apply (Hhyst demoNow (fixAt 2) initialDetector); vm_compute; discriminate|].
  destruct (Hwalk eq_refl initialDetector
              demoNow (fixAt 2) (demoNow + 1000) (fixAt 5) (demoNow + 2000) (fixAt 7))
    as (E1 & _ & E2 & _ & _ & E3 & Hidle & Hempty & Hw);
    [ reflexivity | reflexivity
    | vm_compute; discriminate | vm_compute; discriminate
    | vm_compute; discriminate | vm_compute; discriminate
    | vm_compute; discriminate
    | vm_compute; intros H; now apply H
    | ].
  unfold demoWalk. rewrite Hw. cbn [fst snd].
  split; [now rewrite E1, E2, E3|]. split; [exact Hidle|]. split; [exact Hempty|].
  intros d Halert Hdeb.
  apply (Hlatched demoNow (fixAt 2) d Halert Hdeb).
  vm_compute. discriminate.
Defined.

(** C7 as the specification words it, for every fix, does not hold: a
    fix that arrives 500 ms after a processed one is dropped, so a report
    that was in range stays in range although it is now 7 m away. *)
Lemma dropped_fix_keeps_range :
  ~ (forall (calculateDistance : Q -> Q -> Q -> Q -> Q)
            (reportList : list Report) (suppressedReportIds : list string)
            (r : Report) (now : Z) (position : Coords) (d : Detector),
       r ∈ reportList ->
       candidate suppressedReportIds r = true ->
       (forall r', r' ∈ reportList -> candidate suppressedReportIds r' = true ->
                   id r' = id r -> r' = r) ->
       id r ∈ previouslyInProximityRef
                (checkProximity calculateDistance reportList suppressedReportIds
                                now position d).1
       <-> (distanceTo calculateDistance position r <= 3)%Q \/
           (id r ∈ previouslyInProximityRef d /\
            (distanceTo calculateDistance position r <= 6)%Q)).
Proof.
  intros H.
  specialize (H axisDistance demoReports [] (demoReport "r1" 1000)
                (demoNow + 500) (fixAt 7)
                (checkProximity axisDistance demoReports [] demoNow (fixAt 2)
                                initialDetector).1).
  destruct H as [Hfar _].
  - left.
  - reflexivity.
  - intros r' Hr' _ _. now apply list_elem_of_singleton in Hr'.
  - destruct Hfar as [Hle|[_ Hle]].
    + rewrite checkProximity_dropped by (vm_compute; reflexivity).
      apply (bool_decide_unpack _). vm_compute. exact I.
    + vm_compute in Hle. now apply Hle.
    + vm_compute in Hle. now apply Hle.
Qed.

(** ** The model run on the sample data *)

Example three_casts_then_a_repeat :
  result (traverse (incrementClearedCount tickClock "r1") ["a"; "b"; "c"; "a"])
         demoWorld
  = [ mkVoteResult true false; mkVoteResult true false;
      mkVoteResult true false; mkVoteResult false true ].
Proof. vm_compute. reflexivity. Qed.

Example resolved_after_each_cast :
  map (fun n => resolved <$>
         reports (after (traverse (incrementClearedCount tickClock "r1")
                                  (take n ["a"; "b"; "c"; "d"])) demoWorld) !! "r1")
      [0; 1; 2; 3; 4]%nat
  = [Some false; Some false; Some false; Some true; Some true].
Proof. vm_compute. reflexivity. Qed.

Example merge_sample :
  mergeReports demoLocal demoRemote
  = [ remoteRecord "a" 200; demoReport "b" 300; demoReport "c" 50;
      remoteRecord "d" 400 ].
Proof. vm_compute. reflexivity. Qed.

Example edge_sweep_sample :
  traverse (fun _ : unit => autoArchiveOldResolvedReports tickClock) [tt; tt]
           edgeWorld
  = ([0; 1],
     mkWorld {[ "edge" := archivedAtTick tickClock 2
                            (agedReport "edge" (tickClock 0) (7 * DAY_MS)) ]} 4).
Proof. vm_compute. reflexivity. Qed.

Example sweep_sample :
  result (autoArchiveOldResolvedReports (frozenClock demoNow)) sweepWorld = 1 /\
  (archived <$> reports (after (autoArchiveOldResolvedReports (frozenClock demoNow))
                               sweepWorld) !! "old") = Some (Some true) /\
  (archived <$> reports (after (autoArchiveOldResolvedReports (frozenClock demoNow))
                               sweepWorld) !! "young") = Some None /\
  (archived <$> reports (after (autoArchiveOldResolvedReports (frozenClock demoNow))
                               sweepWorld) !! "open") = Some None.
Proof. vm_compute. repeat split; reflexivity. Qed.

Example walk_sample :
  (watch axisDistance demoReports [] demoWalk initialDetector).2
  = [ [triggerVibration; showNotification; onAlertTriggered ["r1"]];
      [];
      [onAlertCleared] ].
Proof. vm_compute. reflexivity. Qed.

Example one_still_there_vote_unresolves :
  (fun r => (resolved r, clearedCount r, stillThereCount r))
    <$> reports (after (incrementStillThereCount tickClock "r1" "x") resolvedWorld)
        !! "r1"
  = Some (false, 3, 1).
Proof. vm_compute. reflexivity. Qed.

(** * Further properties of the store ([src/lib/db.ts]) *)

Section StoreRows.

Variable clock : nat -> Z.

Lemma rows_same (P : Report -> Report -> Prop) (keys : list string) w w' k :
  reports w' = reports w ->
  match reports w !! k with
  | Some r => exists r', reports w' !! k = Some r' /\
                         (r' = r \/ (k ∈ keys /\ P r r'))
  | None => reports w' !! k = None
  end.
Proof.
  intros ->. destruct (reports w !! k) as [r|]; [|reflexivity].
  exists r. auto.
Qed.

Lemma rows_insert (P : Report -> Report -> Prop) w key r r1 k :
  reports w !! key = Some r -> P r r1 ->
  match reports w !! k with
  | Some r => exists r', <[key := r1]> (reports w) !! k = Some r' /\
                         (r' = r \/ (k ∈ [key] /\ P r r'))
  | None => <[key := r1]> (reports w) !! k = None
  end.
Proof.
  intros Hr HP. rewrite lookup_insert.
  destruct (decide (key = k)) as [<-|Hne].
  - rewrite Hr. exists r1. split; [reflexivity|]. right. split; [left | exact HP].
  - destruct (reports w !! k) as [r0|]; [|reflexivity]. exists r0. auto.
Qed.

(** Every row after a mutation is the row before it, or, under a key
    the mutation was called with, what the mutation writes over it; no
    row appears or disappears. *)
Lemma perform_rows m w k :
  match reports w !! k with
  | Some r =>
      exists r', reports (after (perform clock m) w) !! k = Some r' /\
                 (r' = r \/ (k ∈ aimedAt m /\ written m r r'))
  | None => reports (after (perform clock m) w) !! k = None
  end.
Proof.
  destruct m as [key dev|key dev|key|key|key|key|key|ids|key updates];
    simpl perform; cbn [aimedAt].
  - rewrite bind_after. unfold ret, after at 1. simpl snd.
    destruct (reports w !! key) as [r|] eqn:Hr.
    + destruct (hasDeviceConfirmedCleared r dev) eqn:Hd.
      * unfold after. rewrite (incrementClearedCount_dup clock key dev w r Hr Hd).
        now apply rows_same.
      * unfold after.
        rewrite (incrementClearedCount_fresh clock key dev w r Hr Hd). simpl snd.
        cbn [reports]. apply (rows_insert _ w key r _ k Hr).
        split; [exact Hd|].
        exists (clock (ticks w)), (clock (S (ticks w))). reflexivity.
    + apply rows_same. unfold after, incrementClearedCount, bind, Table.get, ret.
      simpl. now rewrite Hr.
  - rewrite bind_after. unfold ret, after at 1. simpl snd.
    destruct (reports w !! key) as [r|] eqn:Hr.
    + destruct (result (hasDeviceConfirmedStillThereRecently clock r dev) w) eqn:Hd.
      * unfold after. rewrite (incrementStillThereCount_blocked clock key dev w r Hr Hd).
        now apply rows_same.
      * unfold after.
        rewrite (incrementStillThereCount_fresh clock key dev w r Hr Hd). simpl snd.
        cbn [reports]. apply (rows_insert _ w key r _ k Hr).
        exists (clock (S (ticks w))), (clock (S (S (ticks w)))). reflexivity.
    + apply rows_same. unfold after, incrementStillThereCount, bind, Table.get, ret.
      simpl. now rewrite Hr.
  - unfold after, toggleFlagged, bind, Table.get, Table.update, Date_now, ret.
    simpl. destruct (reports w !! key) as [r|] eqn:Hr; simpl.
    + rewrite Hr. simpl. apply (rows_insert _ w key r _ k Hr).
      exists (clock (ticks w)). reflexivity.
    + now apply rows_same.
  - unfold after, toggleNoGlassFound, bind, Table.get, Table.update, Date_now, ret.
    simpl. destruct (reports w !! key) as [r|] eqn:Hr; simpl.
    + rewrite Hr. simpl. apply (rows_insert _ w key r _ k Hr).
      exists (clock (ticks w)). reflexivity.
    + now apply rows_same.
  - unfold after, archiveReport, bind, Table.update, Date_now, ret.
    simpl. destruct (reports w !! key) as [r|] eqn:Hr; simpl.
    + apply (rows_insert _ w key r _ k Hr).
      exists (clock (ticks w)), (clock (S (ticks w))). reflexivity.
    + now apply rows_same.
  - unfold after, unarchiveReport, bind, Table.update, Date_now, ret.
    simpl. destruct (reports w !! key) as [r|] eqn:Hr; simpl.
    + apply (rows_insert _ w key r _ k Hr). exists (clock (ticks w)). reflexivity.
    + now apply rows_same.
  - unfold after, markAsResolved, bind, Table.update, Date_now, ret.
    simpl. destruct (reports w !! key) as [r|] eqn:Hr; simpl.
    + apply (rows_insert _ w key r _ k Hr). exists (clock (ticks w)). reflexivity.
    + now apply rows_same.
  - rewrite bulkMarkResolved_lookup.
    destruct (reports w !! k) as [r|] eqn:Hr.
    + destruct (decide (k ∈ ids)) as [Hin|]; simpl; eexists; split; try reflexivity.
      * right. split; [exact Hin|]. exists (clock (ticks w)). reflexivity.
      * now left.
    + now destruct (decide (k ∈ ids)).
  - unfold after, updateReport, bind, Table.update, Date_now, ret.
    simpl. destruct (reports w !! key) as [r|] eqn:Hr; simpl.
    + apply (rows_insert _ w key r _ k Hr). exists (clock (ticks w)). reflexivity.
    + now apply rows_same.
Qed.


Lemma written_content m r r' :
  isUpdateReport m = false -> written m r r' -> sameContent r r'.
Proof.
  unfold sameContent.
  destruct m; simpl; intros Hm Hw; try discriminate.
  - destruct Hw as (_ & stamp & now & ->). now destruct r.
  - destruct Hw as (stamp & now & ->). now destruct r.
  - destruct Hw as (now & ->). now destruct r.
  - destruct Hw as (now & ->). now destruct r.
  - destruct Hw as (at_ & now & ->). now destruct r.
  - destruct Hw as (now & ->). now destruct r.
  - destruct Hw as (now & ->). now destruct r.
  - destruct Hw as (now & ->). now destruct r.
Qed.

(** X2. Except for the generic [updateReport], no local mutation ever
    changes a report's id, coordinates, description, photo or date. *)
Theorem mutation_keeps_content m w k r r' :
  isUpdateReport m = false ->
  reports w !! k = Some r ->
  reports (after (perform clock m) w) !! k = Some r' ->
  sameContent r r'.
Proof.
  intros Hm Hr Hr'. pose proof (perform_rows m w k) as H. rewrite Hr in H.
  destruct H as (r1 & Hr1 & Hcase). rewrite Hr' in Hr1. injection Hr1 as <-.
  destruct Hcase as [->|[_ Hw]]; [repeat split|]. now apply (written_content m).
Qed.

Lemma written_tallies m r r' :
  isUpdateReport m = false -> written m r r' -> talliesAgree r -> talliesAgree r'.
Proof.
  unfold talliesAgree.
  destruct m; simpl; intros Hm Hw (Hc & Hs & Hnd); try discriminate.
  - destruct Hw as (Hfresh & stamp & now & ->).
    assert (Hnot : device ∉ voters (clearedConfirmations r)).
    { intros Hin. apply hasDeviceConfirmedCleared_voters in Hin. congruence. }
    destruct r; unfold voters in *; simpl in *.
    split; [reflexivity|]. split; [exact Hs|].
    rewrite map_app. simpl.
    apply NoDup_app. split; [exact Hnd|]. split; [|apply NoDup_singleton].
    intros x Hx Hx'. apply list_elem_of_singleton in Hx'. now subst x.
  - destruct Hw as (stamp & now & ->).
    destruct r; simpl in *. split; [|split; [reflexivity|]].
    + destruct (2 <=? _); [reflexivity | exact Hc].
    + destruct (2 <=? _); [apply NoDup_nil; exact I | exact Hnd].
  - destruct Hw as (now & ->). now destruct r.
  - destruct Hw as (now & ->). now destruct r.
  - destruct Hw as (at_ & now & ->). now destruct r.
  - destruct Hw as (now & ->). now destruct r.
  - destruct Hw as (now & ->). now destruct r.
  - destruct Hw as (now & ->). now destruct r.
Qed.

(** X3. Except for the generic [updateReport], every local mutation
    keeps the tallies sound: if [clearedCount] and [stillThereCount]
    equal the sizes of their ledgers and no device is twice on the
    cleared ledger before the call, the same holds after it. *)
Theorem mutation_keeps_tallies m w k r r' :
  isUpdateReport m = false ->
  reports w !! k = Some r ->
  reports (after (perform clock m) w) !! k = Some r' ->
  talliesAgree r -> talliesAgree r'.
Proof.
  intros Hm Hr Hr' Ht. pose proof (perform_rows m w k) as H. rewrite Hr in H.
  destruct H as (r1 & Hr1 & Hcase). rewrite Hr' in Hr1. injection Hr1 as <-.
  destruct Hcase as [->|[_ Hw]]; [exact Ht|]. now apply (written_tallies m r).
Qed.

End StoreRows.

Section StoreOps.

Variable clock : nat -> Z.

Lemma bind_result {A B} (m : Task A) (k : A -> Task B) w :
  result (bind m k) w = result (k (result m w)) (after m w).
Proof. unfold after, result, bind. now destruct (m w). Qed.

Lemma toArray_in w r :
  r ∈ result Table.toArray w <-> exists k, reports w !! k = Some r.
Proof.
  unfold result, Table.toArray. simpl. rewrite list_elem_of_fmap. split.
  - intros ([k r'] & -> & Hin). exists k. now apply elem_of_map_to_list.
  - intros (k & Hk). exists (k, r). split; [reflexivity|].
    now apply elem_of_map_to_list.
Qed.

Lemma getPendingReports_in w r :
  r ∈ result getPendingReports w <->
  syncStatus r = pending /\ exists k, reports w !! k = Some r.
Proof.
  unfold getPendingReports. rewrite bind_result. unfold ret, result at 1.
  simpl fst. rewrite list_elem_of_filter. now rewrite toArray_in.
Qed.

Lemma getActiveReports_in w r :
  r ∈ result getActiveReports w <->
  truthy (archived r) = false /\ exists k, reports w !! k = Some r.
Proof.
  unfold getActiveReports. rewrite bind_result. unfold ret, result at 1.
  simpl fst. rewrite list_elem_of_filter, toArray_in, negb_true_iff. reflexivity.
Qed.

Lemma perform_untouched m w :
  (forall k, k ∈ aimedAt m -> reports w !! k = None) ->
  reports (after (perform clock m) w) = reports w.
Proof.
  intros Hmiss. apply map_eq. intros k.
  pose proof (perform_rows clock m w k) as H.
  destruct (reports w !! k) as [r|] eqn:Hr; [|exact H].
  destruct H as (r' & -> & [->|[Hin _]]); [reflexivity|].
  rewrite (Hmiss k Hin) in Hr. discriminate.
Qed.

(** X4. Calls on an id that has no row change nothing: both vote casts
    answer [{success: false, alreadyConfirmed: false}], both toggles
    answer [false] (as they do for a report they have just unflagged),
    [updateReport] reports 0 rows, and after any mutation called with
    that id the table is what it was. *)
Theorem missing_report_is_a_no_op key w :
  reports w !! key = None ->
  (forall dev, result (incrementClearedCount clock key dev) w
               = mkVoteResult false false) /\
  (forall dev, result (incrementStillThereCount clock key dev) w
               = mkVoteResult false false) /\
  result (toggleFlagged clock key) w = false /\
  result (toggleNoGlassFound clock key) w = false /\
  (forall updates, result (updateReport clock key updates) w = 0) /\
  (forall m, aimedAt m = [key] ->
             reports (after (perform clock m) w) = reports w).
Proof.
  intros Hmiss. repeat split.
  - intros dev. unfold result, incrementClearedCount, bind, Table.get, ret.
    simpl. now rewrite Hmiss.
  - intros dev. unfold result, incrementStillThereCount, bind, Table.get, ret.
    simpl. now rewrite Hmiss.
  - unfold result, toggleFlagged, bind, Table.get, ret. simpl. now rewrite Hmiss.
  - unfold result, toggleNoGlassFound, bind, Table.get, ret. simpl. now rewrite Hmiss.
  - intros updates. unfold result, updateReport, bind, Table.update, Date_now.
    simpl. now rewrite Hmiss.
  - intros m Hm. apply perform_untouched. rewrite Hm. intros k Hk.
    apply list_elem_of_singleton in Hk. now subst k.
Qed.

(** X5. [addReport] under a free id stores the report with the sync and
    ledger fields at their defaults (still-there count 0, both ledgers
    empty, [pending], [lastModified] the clock reading) and the caller's
    content, [clearedCount] and [resolved]; [getReport] finds it, it is
    listed as pending, no other row changes, and deleting it again gives
    back the table as it was. *)
Theorem addReport_stores_a_pending_report report w :
  reports w !! id report = None ->
  let w' := after (addReport clock report) w in
  result (addReport clock report) w = Some (id report) /\
  (exists r',
     result (getReport (id report)) w' = Some r' /\
     sameContent report r' /\
     clearedCount r' = clearedCount report /\ resolved r' = resolved report /\
     stillThereCount r' = 0 /\ stillThereConfirmations r' = Some [] /\
     clearedConfirmations r' = Some [] /\
     syncStatus r' = pending /\ lastModified r' = clock (ticks w) /\
     r' ∈ result getPendingReports w') /\
  (forall k, k <> id report -> reports w' !! k = reports w !! k) /\
  reports (after (deleteReport (id report)) w') = reports w.
Proof.
  intros Hfree w'.
  set (full := applyChanges report
                 [ set_stillThereCount 0; set_stillThereConfirmations (Some []);
                   set_clearedConfirmations (Some []); set_syncStatus pending;
                   set_lastModified (clock (ticks w)) ]).
  assert (Hid : id full = id report) by (subst full; now destruct report).
  assert (Hrun : addReport clock report w
                 = (Some (id report),
                    mkWorld (<[id report := full]> (reports w)) (S (ticks w)))).
  { unfold addReport, bind, Date_now, Table.add. cbv beta iota.
    cbn [reports ticks]. fold full. rewrite Hid, Hfree. reflexivity. }
  subst w'. unfold result at 1, after. rewrite Hrun. cbn [fst snd].
  split; [reflexivity|]. split; [|split].
  - exists full. split; [apply lookup_insert_eq|].
    split; [subst full; unfold sameContent; now destruct report|].
    repeat (split; [subst full; now destruct report|]).
    apply getPendingReports_in. split; [subst full; now destruct report|].
    exists (id report). apply lookup_insert_eq.
  - intros k Hk. cbn [reports]. now rewrite lookup_insert_ne.
  - unfold deleteReport, Table.delete. cbn [snd reports].
    rewrite delete_insert_eq. now apply delete_id.
Qed.

(** X6. [addReport] under an id that is taken is rejected and leaves the
    stored report, and every other row, as it was. *)
Theorem addReport_never_overwrites report w r0 :
  reports w !! id report = Some r0 ->
  result (addReport clock report) w = None /\
  reports (after (addReport clock report) w) = reports w.
Proof.
  intros Htaken.
  assert (Hid : forall cs, id (applyChanges report cs) = id report).
  { intros cs. unfold applyChanges. revert report Htaken.
    induction cs as [|c cs IH]; intros r Hr; [reflexivity|].
    simpl. assert (E : id (applyChange r c) = id r) by (destruct r, c; reflexivity).
    rewrite <- E. apply IH. now rewrite E. }
  unfold result, after, addReport, bind, Date_now, Table.add. cbv beta iota.
  cbn [reports ticks]. rewrite Hid, Htaken. split; reflexivity.
Qed.

Lemma toggleFlagged_run key w r :
  reports w !! key = Some r ->
  toggleFlagged clock key w
  = (negb (truthy (flagged r)),
     mkWorld (<[key := applyChanges r
                 [ set_flagged (Some (negb (truthy (flagged r))));
                   set_lastModified (clock (ticks w)); set_syncStatus pending ]]>
                (reports w)) (S (ticks w))).
Proof.
  intros Hr. unfold toggleFlagged, bind, Table.get, Table.update, Date_now, ret.
  cbv beta iota. rewrite Hr. cbv beta iota. cbn [reports ticks]. now rewrite Hr.
Qed.

Lemma toggleNoGlassFound_run key w r :
  reports w !! key = Some r ->
  toggleNoGlassFound clock key w
  = (negb (truthy (noGlassFound r)),
     mkWorld (<[key := applyChanges r
                 [ set_noGlassFound (Some (negb (truthy (noGlassFound r))));
                   set_lastModified (clock (ticks w)); set_syncStatus pending ]]>
                (reports w)) (S (ticks w))).
Proof.
  intros Hr. unfold toggleNoGlassFound, bind, Table.get, Table.update, Date_now, ret.
  cbv beta iota. rewrite Hr. cbv beta iota. cbn [reports ticks]. now rewrite Hr.
Qed.

(** X7. On a stored report [toggleFlagged] answers the new flag, the
    negation of the old one ([undefined] counting as false), stores it,
    and leaves the votes, [resolved] and the other flag alone; a second
    toggle answers the old flag again.  [toggleNoGlassFound] does the
    same for its flag. *)
Theorem toggles_flip_only_their_flag key w r :
  reports w !! key = Some r ->
  (result (toggleFlagged clock key) w = negb (truthy (flagged r)) /\
   (exists r1,
      reports (after (toggleFlagged clock key) w) !! key = Some r1 /\
      flagged r1 = Some (negb (truthy (flagged r))) /\
      noGlassFound r1 = noGlassFound r /\ archived r1 = archived r /\
      sameVotes r r1 /\ sameContent r r1) /\
   result (toggleFlagged clock key) (after (toggleFlagged clock key) w)
   = truthy (flagged r)) /\
  (result (toggleNoGlassFound clock key) w = negb (truthy (noGlassFound r)) /\
   (exists r1,
      reports (after (toggleNoGlassFound clock key) w) !! key = Some r1 /\
      noGlassFound r1 = Some (negb (truthy (noGlassFound r))) /\
      flagged r1 = flagged r /\ archived r1 = archived r /\
      sameVotes r r1 /\ sameContent r r1) /\
   result (toggleNoGlassFound clock key) (after (toggleNoGlassFound clock key) w)
   = truthy (noGlassFound r)).
Proof.
  intros Hr. split.
  - pose proof (toggleFlagged_run key w r Hr) as Hrun.
    match type of Hrun with
    | _ = (_, mkWorld (<[_ := ?x]> _) _) => set (r1 := x) in Hrun
    end.
    unfold result at 1, after. rewrite Hrun. cbn [fst snd].
    split; [reflexivity|]. split.
    + exists r1. split; [apply lookup_insert_eq|].
      subst r1. unfold sameVotes, sameContent. destruct r. simpl. tauto.
    + unfold result.
      rewrite (toggleFlagged_run key _ r1) by apply lookup_insert_eq.
      subst r1. destruct r. simpl. now rewrite negb_involutive.
  - pose proof (toggleNoGlassFound_run key w r Hr) as Hrun.
    match type of Hrun with
    | _ = (_, mkWorld (<[_ := ?x]> _) _) => set (r1 := x) in Hrun
    end.
    unfold result at 1, after. rewrite Hrun. cbn [fst snd].
    split; [reflexivity|]. split.
    + exists r1. split; [apply lookup_insert_eq|].
      subst r1. unfold sameVotes, sameContent. destruct r. simpl. tauto.
    + unfold result.
      rewrite (toggleNoGlassFound_run key _ r1) by apply lookup_insert_eq.
      subst r1. destruct r. simpl. now rewrite negb_involutive.
Qed.

Lemma unarchiveReport_after key w :
  after (unarchiveReport clock key) w
  = mkWorld (alter (fun r => applyChanges r
                      [ set_archived (Some false); set_archivedAt None;
                        set_lastModified (clock (ticks w));
                        set_syncStatus pending ]) key (reports w))
            (S (ticks w)).
Proof.
  unfold unarchiveReport. rewrite !bind_after. cbv beta.
  unfold ret at 1, after at 1. simpl snd. rewrite update_after. reflexivity.
Qed.

(** X8. Archiving a stored report takes it out of [getActiveReports] and
    stamps [archivedAt] with the clock reading; unarchiving it brings it
    back into [getActiveReports] with [archivedAt] removed, and through
    both steps its content, votes, [resolved] and flags are untouched. *)
Theorem archive_hides_unarchive_restores key w r :
  reports w !! key = Some r ->
  let w1 := after (archiveReport clock key) w in
  let w2 := after (unarchiveReport clock key) w1 in
  (exists r1, reports w1 !! key = Some r1 /\
     (r1 ∉ result getActiveReports w1) /\
     archived r1 = Some true /\ archivedAt r1 = Some (clock (ticks w))) /\
  (exists r2, reports w2 !! key = Some r2 /\
     r2 ∈ result getActiveReports w2 /\
     archived r2 = Some false /\ archivedAt r2 = None /\
     sameContent r r2 /\ sameVotes r r2 /\
     flagged r2 = flagged r /\ noGlassFound r2 = noGlassFound r).
Proof.
  intros Hr w1 w2. subst w2 w1.
  rewrite unarchiveReport_after, archiveReport_after. cbn [reports ticks].
  rewrite !lookup_alter_eq, Hr. cbn [fmap option_fmap option_map]. split.
  - eexists. split; [reflexivity|]. split.
    + rewrite getActiveReports_in. intros [Harch _]. now destruct r.
    + now destruct r.
  - eexists. split; [reflexivity|]. split.
    + apply getActiveReports_in. split; [now destruct r|].
      exists key. cbn [reports]. now rewrite !lookup_alter_eq, Hr.
    + unfold sameContent, sameVotes. destruct r. simpl. tauto.
Qed.

(** X9. [bulkMarkResolved] reads the clock once, whatever the length of
    the list: every listed id that has a row becomes resolved and
    [pending] with that one reading as [lastModified] and nothing else
    changed; rows of unlisted ids are untouched (so the empty list
    changes no row); and for a single id it is [markAsResolved]. *)
Theorem bulkMarkResolved_marks_the_listed ids w :
  let w' := after (bulkMarkResolved clock ids) w in
  ticks w' = S (ticks w) /\
  (forall k r, k ∈ ids -> reports w !! k = Some r ->
     exists r', reports w' !! k = Some r' /\
       resolved r' = true /\ syncStatus r' = pending /\
       lastModified r' = clock (ticks w) /\
       sameContent r r' /\
       clearedCount r' = clearedCount r /\
       clearedConfirmations r' = clearedConfirmations r /\
       stillThereCount r' = stillThereCount r /\
       stillThereConfirmations r' = stillThereConfirmations r /\
       archived r' = archived r /\ flagged r' = flagged r /\
       archivedAt r' = archivedAt r /\ noGlassFound r' = noGlassFound r /\
       firebaseId r' = firebaseId r) /\
  (forall k, k ∉ ids -> reports w' !! k = reports w !! k) /\
  (forall key, bulkMarkResolved clock [key] w = markAsResolved clock key w).
Proof.
  intros w'. subst w'. split; [apply bulkMarkResolved_ticks|]. split; [|split].
  - intros k r Hin Hr. rewrite bulkMarkResolved_lookup.
    destruct (decide (k ∈ ids)); [|contradiction]. rewrite Hr.
    eexists. split; [reflexivity|]. unfold sameContent. destruct r. simpl. tauto.
  - intros k Hnin. rewrite bulkMarkResolved_lookup.
    now destruct (decide (k ∈ ids)).
  - intros key. unfold bulkMarkResolved, markAsResolved, bind, Date_now, ret.
    cbv beta iota. simpl map. cbn [Table.bulkUpdate]. unfold bind, ret.
    now destruct (Table.update key _ _).
Qed.

(** X10. On a table whose rows carry their own key, after
    [markAsSynced ids] the pending reports are exactly the reports that
    were pending before and are not listed; a listed row is marked
    [synced], gets the [firebaseId] the table has for it (none if the
    table has no entry) and keeps its [lastModified]. *)
Theorem markAsSynced_clears_the_listed ids fids w :
  keyed (reports w) ->
  let w' := after (markAsSynced ids fids) w in
  (forall r, r ∈ result getPendingReports w' <->
             r ∈ result getPendingReports w /\ id r ∉ ids) /\
  (forall k r, k ∈ ids -> reports w !! k = Some r ->
     exists r', reports w' !! k = Some r' /\
       syncStatus r' = synced /\ firebaseId r' = fids ≫= (.!! k) /\
       lastModified r' = lastModified r /\ sameContent r r' /\ sameVotes r r').
Proof.
  intros Hkeyed w'. subst w'. split.
  - intros r. rewrite !getPendingReports_in. split.
    + intros (Hp & k & Hk). rewrite markAsSynced_lookup in Hk.
      destruct (decide (k ∈ ids)) as [Hin|Hnin].
      * destruct (reports w !! k) as [r0|]; [|discriminate].
        simpl in Hk. injection Hk as <-. destruct r0. discriminate.
      * split; [split; [exact Hp | now exists k]|].
        now rewrite (Hkeyed _ _ Hk).
    + intros ((Hp & k & Hk) & Hnin). split; [exact Hp|].
      exists k. rewrite markAsSynced_lookup.
      rewrite (Hkeyed _ _ Hk) in Hnin.
      now destruct (decide (k ∈ ids)).
  - intros k r Hin Hr. rewrite markAsSynced_lookup.
    destruct (decide (k ∈ ids)); [|contradiction]. rewrite Hr.
    eexists. split; [reflexivity|].
    unfold sameContent, sameVotes. destruct r. simpl. tauto.
Qed.

(** X11. On a table whose rows carry their own key, the active reports
    after a sweep are exactly the active reports from before that were
    not due: no report left in [getActiveReports] is resolved and older
    than seven days at the time of the sweep. *)
Theorem sweep_leaves_no_due_report_active w :
  keyed (reports w) ->
  let now := clock (ticks w) in
  forall r,
    r ∈ result getActiveReports (after (autoArchiveOldResolvedReports clock) w)
    <-> r ∈ result getActiveReports w /\ ~ due now r.
Proof.
  intros Hkeyed now r. destruct (sweep_lookup clock w Hkeyed) as [_ Hk].
  fold now in Hk. rewrite !getActiveReports_in. split.
  - intros (Ha & k & Hr'). destruct (Hk k) as [Hout Hin].
    destruct (reports w !! k) as [r0|] eqn:Hr0.
    + destruct (decide (due now r0)) as [Hd|Hd].
      * destruct (Hin r0 eq_refl Hd) as (i & _ & Hl). rewrite Hl in Hr'.
        injection Hr' as <-. destruct r0. discriminate.
      * rewrite Hout in Hr'.
        2:{ intros r1 [= <-]. exact Hd. }
        injection Hr' as <-. split; [split; [exact Ha | now exists k] | exact Hd].
    + rewrite Hout in Hr'; [discriminate|]. intros r1 H1. discriminate.
  - intros ((Ha & k & Hr) & Hd). split; [exact Ha|]. exists k.
    destruct (Hk k) as [Hout _]. rewrite Hout; [exact Hr|].
    intros r1 H1. rewrite Hr in H1. now injection H1 as <-.
Qed.

(** X12. A rebuttal wipes the record of who voted cleared: once a
    still-there cast has succeeded on a report that already had a
    still-there entry, a cleared cast by any device succeeds, also by a
    device that was on the cleared ledger before, and leaves exactly
    that device on the ledger with [clearedCount = 1], unresolved. *)
Theorem rebuttal_lets_devices_vote_again key still dev w r :
  reports w !! key = Some r ->
  orEmpty (stillThereConfirmations r) <> [] ->
  success (result (incrementStillThereCount clock key still) w) = true ->
  let w1 := after (incrementStillThereCount clock key still) w in
  result (incrementClearedCount clock key dev) w1 = mkVoteResult true false /\
  exists r2,
    reports (after (incrementClearedCount clock key dev) w1) !! key = Some r2 /\
    voters (clearedConfirmations r2) = [dev] /\
    clearedCount r2 = 1 /\ resolved r2 = false.
Proof.
  intros Hr Hne Hok w1.
  destruct (incrementStillThereCount_written clock key still w Hok)
    as (r0 & r1 & Hr0 & Hr1 & _ & Hcount & _ & Hreset).
  rewrite Hr in Hr0. injection Hr0 as <-. fold w1 in Hr1.
  assert (Hge : 2 <= stillThereCount r1).
  { rewrite Hcount. destruct (orEmpty (stillThereConfirmations r));
      [contradiction | simpl length; lia]. }
  rewrite (proj2 (Z.leb_le _ _) Hge) in Hreset. destruct Hreset as [Hl Hc].
  assert (Hfresh : hasDeviceConfirmedCleared r1 dev = false).
  { unfold hasDeviceConfirmedCleared. now rewrite Hl. }
  pose proof (incrementClearedCount_fresh clock key dev w1 r1 Hr1 Hfresh) as Hrun.
  cbv zeta in Hrun.
  match type of Hrun with
  | _ = (_, mkWorld (<[_ := ?x]> _) _) => set (r2 := x) in Hrun
  end.
  unfold result, after. rewrite Hrun. cbn [fst snd reports].
  split; [reflexivity|]. exists r2. split; [apply lookup_insert_eq|].
  subst r2. destruct r1. simpl in *. subst. unfold voters. simpl. tauto.
Qed.

End StoreOps.

(** * Schema upgrades *)

Section Upgrades.

Variable clock : nat -> Z.

(** The three upgrades of one row, in order. *)
Lemma upgradeToV4_fused (rows : list StoredRow) : forall t,
  upgradeToV4 clock rows t
  = modify (fun row t => let '(row2, t') := upgradeV2 clock row t in
                         (upgradeV4 (upgradeV3 row2), t')) rows t.
Proof.
  unfold upgradeToV4. induction rows as [|row rows IH]; intros t; [reflexivity|].
  cbn [modify]. destruct (upgradeV2 clock row t) as [row2 t2].
  specialize (IH t2).
  destruct (modify (upgradeV2 clock) rows t2) as [rows2 t3].
  cbn [modify].
  destruct (modify (fun row t => (upgradeV3 row, t)) rows2 t3) as [rows3 t4].
  cbn [modify]. rewrite IH.
  now destruct (modify _ rows t2).
Qed.

Lemma upgrade_row row t :
  let '(row2, t') := upgradeV2 clock row t in
  (t <= t')%nat /\
  backfilled clock t t' row (upgradeV4 (upgradeV3 row2)) /\
  (forall u, upgradeV2 clock (upgradeV4 (upgradeV3 row2)) u
             = (upgradeV4 (upgradeV3 row2), u)) /\
  upgradeV3 (upgradeV4 (upgradeV3 row2)) = upgradeV4 (upgradeV3 row2) /\
  upgradeV4 (upgradeV4 (upgradeV3 row2)) = upgradeV4 (upgradeV3 row2).
Proof.
  destruct row as [i la ln de pb da cc re sc stc clc ss [lm|] fi pu ar aa fl ng];
    unfold backfilled; simpl.
  - repeat split; try reflexivity; try lia.
  - repeat split; try reflexivity; try lia. exists t. split; [lia | reflexivity].
Qed.

Lemma backfilled_widen t t' u u' old new :
  (u <= t)%nat -> (t' <= u')%nat ->
  backfilled clock t t' old new -> backfilled clock u u' old new.
Proof.
  unfold backfilled. intros Hu Hu' H.
  destruct (row_lastModified old); [exact H|].
  repeat (destruct H as [? H]; split; [assumption|]).
  destruct H as (i & Hi & E). exists i. split; [lia | exact E].
Qed.

(** X13. Opening a database written by any earlier version runs the
    upgrades so that every row keeps its version 1 fields and every
    value it already had, and gets each missing added field at its
    default (counts 0, ledgers empty, [pending], flags false,
    [lastModified] a clock reading taken during the upgrade); every
    upgraded row reads as a full [Report]; and running the upgrades on
    the result again changes nothing and reads no clock. *)
Theorem upgradeToV4_backfills_and_is_idempotent (rows : list StoredRow) (t : nat) :
  let rows' := (upgradeToV4 clock rows t).1 in
  let t' := (upgradeToV4 clock rows t).2 in
  Forall2 (fun old new => backfilled clock t t' old new
                          /\ is_Some (toReport new)) rows rows' /\
  upgradeToV4 clock rows' t' = (rows', t').
Proof.
  cbv zeta. rewrite !upgradeToV4_fused.
  assert (H : forall rows t,
    let out := modify (fun row t => let '(row2, t') := upgradeV2 clock row t in
                                    (upgradeV4 (upgradeV3 row2), t')) rows t in
    (t <= out.2)%nat /\
    Forall2 (fun old new => backfilled clock t out.2 old new
                            /\ is_Some (toReport new)) rows out.1 /\
    forall u, modify (fun row t => let '(row2, t') := upgradeV2 clock row t in
                                   (upgradeV4 (upgradeV3 row2), t')) out.1 u
              = (out.1, u)).
  { clear rows t. induction rows as [|row rows IH]; intros t; cbv zeta.
    - simpl. split; [lia|]. split; [constructor | reflexivity].
    - cbn [modify]. pose proof (upgrade_row row t) as Hrow.
      destruct (upgradeV2 clock row t) as [row2 t2].
      destruct Hrow as (Hle & Hback & H2 & H3 & H4).
      specialize (IH t2). cbv zeta in IH.
      destruct (modify _ rows t2) as [rest t3]. cbn [fst snd] in *.
      destruct IH as (Hle' & Hall & Hidem).
      split; [lia|]. split.
      + constructor.
        * split; [apply (backfilled_widen t t2); [lia | lia | exact Hback]|].
          unfold backfilled in Hback. unfold toReport.
          destruct Hback as (_&_&_&_&_&_&_&_&_&_&_&E1&E2&E3&E4&_&_&_&E5).
          rewrite E1, E2, E3, E4.
          destruct (row_lastModified row); [rewrite E5; eauto|].
          destruct E5 as (i & _ & ->). eauto.
        * eapply Forall2_impl; [exact Hall|]. intros old new [Hb Hs].
          split; [|exact Hs]. apply (backfilled_widen t2 t3); [lia | lia | exact Hb].
      + intros u. cbn [modify]. rewrite (H2 u), H3, H4, Hidem. reflexivity. }
  destruct (H rows t) as (_ & Hall & Hidem). cbv zeta in Hall, Hidem.
  split; [exact Hall | apply Hidem].
Qed.

End Upgrades.

(** * Realtime Database documents and the merge *)

Section Codec.

Variable clock : nat -> Z.

Lemma orBlank_id s : orBlank s = s.
Proof. unfold orBlank. destruct (String.eqb_spec s ""); congruence. Qed.

Lemma default_nonBlank key : default key (nonBlank (Some key)) = key.
Proof. simpl. destruct (String.eqb_spec key ""); reflexivity. Qed.

(** The echo of a pushed report, computed. *)
Lemma echo_run report t w :
  fromRealtimeDbReport clock (stampedBy t (toRealtimeDbReport report)) (id report) w
  = (mkReport (id report) (lat report) (lng report) (desc report)
              (nonBlank (photoBase64 report)) (nonBlank (photoUrl report))
              (date report)
              (clearedCount report) (resolved report) (stillThereCount report)
              (Some (orEmpty (stillThereConfirmations report)))
              (Some (orEmpty (clearedConfirmations report)))
              synced t (Some (id report))
              (Some (truthy (archived report)))
              (nonZero (archivedAt report))
              (Some (truthy (flagged report)))
              None,
     w).
Proof.
  unfold fromRealtimeDbReport, stampedBy, toRealtimeDbReport, bind, ret.
  cbn [doc_id doc_lat doc_lng doc_desc doc_photoBase64 doc_photoUrl doc_date
       doc_clearedCount doc_resolved doc_stillThereCount
       doc_stillThereConfirmations doc_clearedConfirmations doc_updatedAt
       doc_archived doc_archivedAt doc_flagged default truthy orEmpty].
  rewrite default_nonBlank, orBlank_id, !orZero_id, orb_false_r.
  reflexivity.
Qed.

(** X14. A report written with [toRealtimeDbReport], stamped by the
    server at time [t] and read back under its own id comes back with
    its id, coordinates, description, date, counts, ledgers
    ([undefined] as empty) and [resolved] intact, [archived] and
    [flagged] reduced to true or false, an empty photo string or a zero
    [archivedAt] dropped, [syncStatus = synced], [lastModified = t],
    [firebaseId] its id, and without [noGlassFound]; no clock is read. *)
Theorem realtime_document_round_trip report t w :
  fromRealtimeDbReport clock (stampedBy t (toRealtimeDbReport report)) (id report) w
  = (mkReport (id report) (lat report) (lng report) (desc report)
              (nonBlank (photoBase64 report)) (nonBlank (photoUrl report))
              (date report)
              (clearedCount report) (resolved report) (stillThereCount report)
              (Some (orEmpty (stillThereConfirmations report)))
              (Some (orEmpty (clearedConfirmations report)))
              synced t (Some (id report))
              (Some (truthy (archived report)))
              (nonZero (archivedAt report))
              (Some (truthy (flagged report)))
              None,
     w).
Proof.
  unfold fromRealtimeDbReport, stampedBy, toRealtimeDbReport, bind, ret.
  cbn [doc_id doc_lat doc_lng doc_desc doc_photoBase64 doc_photoUrl doc_date
       doc_clearedCount doc_resolved doc_stillThereCount
       doc_stillThereConfirmations doc_clearedConfirmations doc_updatedAt
       doc_archived doc_archivedAt doc_flagged default truthy orEmpty].
  rewrite default_nonBlank, orBlank_id, !orZero_id, orb_false_r.
  reflexivity.
Qed.

Lemma merge_singletons l r :
  id r = id l ->
  mergeReports [l] [r]
  = [ if lastModified l <? lastModified r
      then applyChange r (set_syncStatus synced) else l ].
Proof.
  intros Hid. unfold mergeReports, JsMap.empty, JsMap.values. cbn [foldl JsMap.set].
  rewrite mergeRemote_eq. rewrite Hid. cbn [JsMap.get]. rewrite eqb_refl'.
  destruct (lastModified l <? lastModified r).
  - cbn [JsMap.set]. now rewrite eqb_refl'.
  - destruct (_ && _); [|reflexivity]. cbn [JsMap.set]. now rewrite eqb_refl'.
Qed.

(** X15. [noGlassFound] does not survive a sync.  When a report has been
    pushed and the server's stamp [t] on the document is later than the
    report's [lastModified], merging the document back replaces the
    local report by the echo, which has no [noGlassFound]; when [t] is
    not later, the local report is kept as it is. *)
Theorem pulled_echo_drops_noGlassFound report t w :
  let echo := result (fromRealtimeDbReport clock
                        (stampedBy t (toRealtimeDbReport report)) (id report)) w in
  (lastModified report < t ->
     mergeReports [report] [echo] = [echo] /\ noGlassFound echo = None /\
     flagged echo = Some (truthy (flagged report)) /\
     clearedCount echo = clearedCount report /\ resolved echo = resolved report) /\
  (t <= lastModified report -> mergeReports [report] [echo] = [report]).
Proof.
  cbv zeta. unfold result. rewrite echo_run. cbn [fst].
  split; intros Ht.
  - rewrite merge_singletons by reflexivity. cbn [lastModified].
    rewrite (proj2 (Z.ltb_lt _ _) Ht). simpl. tauto.
  - rewrite merge_singletons by reflexivity. cbn [lastModified].
    now rewrite (proj2 (Z.ltb_ge _ _) Ht).
Qed.

End Codec.

Section MergeById.

Lemma get_elem (m : JsMap.t) key v :
  NoDup m.*1 -> (key, v) ∈ m -> JsMap.get key m = Some v.
Proof.
  induction m as [|[k v'] m IH]; intros Hnd Hin; [inversion Hin|].
  rewrite fmap_cons in Hnd. apply NoDup_cons in Hnd as [Hk Hnd]. cbn [fst] in Hk.
  cbn [JsMap.get]. apply elem_of_cons in Hin as [E|Hin].
  - injection E as -> ->. now rewrite eqb_refl'.
  - rewrite eqb_ne; [now apply IH|]. intros ->. apply Hk.
    apply list_elem_of_fmap. now exists (key, v).
Qed.

Lemma pairs_of_values (m : JsMap.t) :
  keyedEntries m -> (fun r => (id r, r)) <$> m.*2 = m.
Proof.
  induction m as [|[k v] m IH]; intros Hm; [reflexivity|].
  rewrite !fmap_cons. cbn [snd]. f_equal.
  - f_equal. apply (Hm (k, v)). left.
  - apply IH. intros kv Hin. apply Hm. now right.
Qed.

Lemma pairs_keys (xs : list Report) :
  ((fun r => (id r, r)) <$> xs).*1 = id <$> xs.
Proof. rewrite <- list_fmap_compose. reflexivity. Qed.

Lemma recordOf_Some xs k r : recordOf xs k = Some r -> r ∈ xs /\ id r = k.
Proof.
  unfold recordOf. intros H. apply get_Some_elem in H.
  apply list_elem_of_fmap in H as (x & E & Hx). injection E as -> ->. auto.
Qed.

Lemma recordOf_None xs k : recordOf xs k = None <-> k ∉ id <$> xs.
Proof. unfold recordOf. now rewrite get_None, pairs_keys. Qed.

Lemma recordOf_elem xs r :
  NoDup (id <$> xs) -> r ∈ xs -> recordOf xs (id r) = Some r.
Proof. intros Hnd Hin. unfold recordOf. now apply get_pairs. Qed.

(** The merged list, id by id. *)
Lemma merge_recordOf (l r : list Report) :
  NoDup (id <$> l) -> NoDup (id <$> r) ->
  NoDup (id <$> mergeReports l r) /\
  id <$> mergeReports l r
    = (id <$> l) ++ filter (fun k => k ∉ id <$> l) (id <$> r) /\
  forall k, recordOf (mergeReports l r) k
            = match recordOf r k with
              | Some b => Some (mergeOne (recordOf l k) b)
              | None => recordOf l k
              end.
Proof.
  intros Hl Hr. unfold mergeReports, JsMap.values, JsMap.empty.
  rewrite (localLoop l []) by exact Hl. simpl app.
  set (m0 := (fun r => (id r, r)) <$> l).
  assert (Hm0 : keyedEntries m0).
  { intros kv Hin. apply list_elem_of_fmap in Hin as (x & -> & _). reflexivity. }
  assert (Hk0 : m0.*1 = id <$> l) by apply pairs_keys.
  destruct (remoteLoop r m0 Hr Hm0) as (Hkeys & Hkeyed & Hget).
  set (m' := foldl mergeRemote m0 r) in *.
  assert (Hids : id <$> m'.*2 = m'.*1) by now apply keyedEntries_ids.
  rewrite Hk0 in Hkeys.
  assert (Hnd : NoDup (id <$> m'.*2)).
  { rewrite Hids, Hkeys. apply NoDup_app. split; [exact Hl|]. split.
    - intros k Hk Hk'. apply list_elem_of_filter in Hk' as [Hnot _]. contradiction.
    - now apply NoDup_filter. }
  split; [exact Hnd|]. split; [now rewrite Hids|].
  intros k. unfold recordOf at 1. rewrite (pairs_of_values m' Hkeyed).
  destruct (Hget k) as [Hout Hin].
  destruct (recordOf r k) as [b|] eqn:Hb.
  - apply recordOf_Some in Hb as [Hb Hid]. now rewrite (Hin b Hb Hid).
  - apply recordOf_None in Hb. now rewrite (Hout Hb).
Qed.

(** Two lists with the same ids in the same order and the same record
    for every id are the same list. *)
Lemma same_records (xs : list Report) : forall ys,
  NoDup (id <$> xs) -> id <$> xs = id <$> ys ->
  (forall k, recordOf xs k = recordOf ys k) -> xs = ys.
Proof.
  induction xs as [|x xs IH]; intros [|y ys] Hnd Hids Hrec; try discriminate;
    [reflexivity|].
  rewrite !fmap_cons in Hids. injection Hids as Hid Hids.
  rewrite fmap_cons in Hnd. apply NoDup_cons in Hnd as [Hx Hnd].
  assert (x = y).
  { specialize (Hrec (id x)). unfold recordOf in Hrec. rewrite !fmap_cons in Hrec.
    cbn [JsMap.get] in Hrec. rewrite <- Hid, eqb_refl' in Hrec. congruence. }
  subst y. f_equal. apply IH; [exact Hnd | exact Hids|].
  intros k. destruct (decide (k = id x)) as [->|Hne].
  - rewrite (proj2 (recordOf_None xs (id x)) Hx).
    symmetry. apply recordOf_None. now rewrite <- Hids.
  - specialize (Hrec k). unfold recordOf in *. rewrite !fmap_cons in Hrec.
    cbn [JsMap.get] in Hrec. now rewrite eqb_ne in Hrec by congruence.
Qed.

Lemma filter_all_out {A} (P : A -> Prop) `{forall x, Decision (P x)} (l : list A) :
  (forall x, x ∈ l -> ~ P x) -> filter P l = [].
Proof.
  induction l as [|x l IH]; intros Hl; [reflexivity|].
  rewrite filter_cons_False by (apply Hl; left).
  apply IH. intros y Hy. apply Hl. now right.
Qed.

Lemma filter_all_in {A} (P : A -> Prop) `{forall x, Decision (P x)} (l : list A) :
  (forall x, x ∈ l -> P x) -> filter P l = l.
Proof.
  induction l as [|x l IH]; intros Hl; [reflexivity|].
  rewrite filter_cons_True by (apply Hl; left). f_equal.
  apply IH. intros y Hy. apply Hl. now right.
Qed.

(** X16. For lists with pairwise-distinct ids: merging with nothing on
    either side gives back the other side unchanged, and merging the
    same remote list in a second time changes nothing (a snapshot that
    is delivered twice is harmless). *)
Theorem mergeReports_empty_and_repeated (l r : list Report) :
  NoDup (id <$> l) -> NoDup (id <$> r) ->
  mergeReports l [] = l /\
  mergeReports [] r = r /\
  mergeReports (mergeReports l r) r = mergeReports l r.
Proof.
  intros Hl Hr. split; [|split].
  - destruct (merge_recordOf l [] Hl (NoDup_nil_2)) as (Hnd & Hids & Hrec).
    apply same_records; [exact Hnd | now rewrite Hids, app_nil_r|].
    intros k. now rewrite Hrec.
  - destruct (merge_recordOf [] r (NoDup_nil_2) Hr) as (Hnd & Hids & Hrec).
    apply same_records; [exact Hnd| |].
    + rewrite Hids. simpl. apply filter_all_in. intros k _ Hk. inversion Hk.
    + intros k. rewrite Hrec. now destruct (recordOf r k).
  - destruct (merge_recordOf l r Hl Hr) as (Hnd & Hids & Hrec).
    destruct (merge_recordOf (mergeReports l r) r Hnd Hr) as (Hnd2 & Hids2 & Hrec2).
    apply same_records; [exact Hnd2| |].
    + rewrite Hids2. rewrite filter_all_out; [apply app_nil_r|].
      intros k Hk Hnot. apply Hnot. rewrite Hids. apply elem_of_app.
      destruct (decide (k ∈ id <$> l)); [now left | right].
      now apply list_elem_of_filter.
    + intros k. rewrite Hrec2, Hrec.
      destruct (recordOf r k) as [b|]; [|reflexivity].
      f_equal. unfold mergeOne.
      destruct (recordOf l k) as [a|].
      * destruct (Z.ltb_spec (lastModified a) (lastModified b)) as [Hlt|Hge].
        -- replace (lastModified (applyChange b (set_syncStatus synced)))
             with (lastModified b) by now destruct b.
           now rewrite Z.ltb_irrefl.
        -- now rewrite (proj2 (Z.ltb_ge _ _) Hge).
      * now rewrite Z.ltb_irrefl.
Qed.

End MergeById.

Section PushPull.

Variable clock : nat -> Z.
Variable remoteSet : string -> RemoteDoc -> option FirebaseError.

Lemma world_eq (w w' : World) :
  reports w = reports w' -> ticks w = ticks w' -> w = w'.
Proof. destruct w, w'. simpl. now intros -> ->. Qed.

(** The loop of [syncPendingToFirestore], field by field. *)
Lemma pushLoop (rs : list Report) : forall st,
  let st' := foldl (pushOne remoteSet) st rs in
  syncedIds st' = syncedIds st ++ (id <$> filter (accepts remoteSet) rs) /\
  errors st'
    = errors st ++ (id <$> filter (fun r => ~ accepts remoteSet r) rs) /\
  accepted st'
    = accepted st ++ ((fun r => (id r, toRealtimeDbReport r))
                        <$> filter (accepts remoteSet) rs) /\
  toasts st' = toasts st ++ omap (rejectionToast remoteSet) rs /\
  forall k, firebaseIds st' !! k
            = if decide (k ∈ id <$> filter (accepts remoteSet) rs)
              then Some k else firebaseIds st !! k.
Proof.
  induction rs as [|r rs IH]; intros st.
  - cbn. rewrite !app_nil_r. repeat split.
  - cbn [foldl]. cbv zeta. destruct (IH (pushOne remoteSet st r)) as (Hs & He & Ha & Ht & Hf).
    rewrite Hs, He, Ha, Ht. clear Hs He Ha Ht.
    unfold pushOne at 1 2 3 4, syncReportToFirestore.
    destruct (remoteSet (id r) (toRealtimeDbReport r)) as [err|] eqn:Hset.
    + assert (Hrej : ~ accepts remoteSet r) by (unfold accepts; congruence).
      assert (Ho : omap (rejectionToast remoteSet) (r :: rs)
                   = errorToast err :: omap (rejectionToast remoteSet) rs)
        by (cbn; unfold rejectionToast at 1; now rewrite Hset).
      rewrite Ho.
      rewrite (filter_cons_False (accepts remoteSet)) by exact Hrej.
      rewrite (filter_cons_True (fun r => ~ accepts remoteSet r)) by exact Hrej.
      cbn [syncedIds errors accepted toasts fmap option_fmap option_map].
      rewrite fmap_cons, <- !app_assoc.
      do 4 (split; [reflexivity|]). intros k. rewrite Hf. unfold pushOne, syncReportToFirestore. now rewrite Hset.
    + assert (Hacc : accepts remoteSet r) by exact Hset.
      assert (Ho : omap (rejectionToast remoteSet) (r :: rs)
                   = omap (rejectionToast remoteSet) rs)
        by (cbn; unfold rejectionToast at 1; now rewrite Hset).
      rewrite Ho, app_nil_r.
      rewrite (filter_cons_True (accepts remoteSet)) by exact Hacc.
      rewrite (filter_cons_False (fun r => ~ accepts remoteSet r)) by tauto.
      cbn [syncedIds errors accepted toasts fmap option_fmap option_map].
      rewrite !fmap_cons, <- !app_assoc.
      do 4 (split; [reflexivity|]). intros k. rewrite Hf. unfold pushOne, syncReportToFirestore. rewrite Hset.
      cbn [firebaseIds].
      destruct (decide (k ∈ id <$> filter (accepts remoteSet) rs)) as [Hin|Hnin].
      * rewrite decide_True by now right. reflexivity.
      * destruct (decide (k = id r)) as [->|Hne].
        -- rewrite decide_True by now left. now rewrite lookup_insert_eq.
        -- rewrite decide_False; [now rewrite lookup_insert_ne by congruence|].
           intros H. apply elem_of_cons in H as [?|?]; contradiction.
Qed.

(** The rows after a push, whatever the remote store answers. *)
Lemma syncPending_lookup w :
  keyed (reports w) ->
  let w' := after (syncPendingToFirestore remoteSet) w in
  ticks w' = ticks w /\
  forall k, reports w' !! k = pushed remoteSet k <$> reports w !! k.
Proof.
  intros Hkeyed w'. subst w'.
  unfold syncPendingToFirestore. rewrite bind_after.
  assert (Hw : after getPendingReports w = w) by reflexivity.
  rewrite Hw. set (pend := result getPendingReports w).
  assert (Hpend : forall r, r ∈ pend <->
                    syncStatus r = pending /\ reports w !! id r = Some r).
  { intros r. unfold pend. rewrite getPendingReports_in. split.
    - intros (Hp & k & Hk). split; [exact Hp|]. now rewrite (Hkeyed _ _ Hk).
    - intros (Hp & Hk). split; [exact Hp | now exists (id r)]. }
  assert (Hidle : (forall r, r ∈ pend -> ~ accepts remoteSet r) ->
            forall k, reports w !! k = pushed remoteSet k <$> reports w !! k).
  { intros Hno k. destruct (reports w !! k) as [r|] eqn:Hr; [|reflexivity].
    simpl. unfold pushed. destruct (decide _) as [[Hp Ha]|]; [|reflexivity].
    exfalso. apply (Hno r); [|exact Ha]. apply Hpend.
    split; [exact Hp|]. now rewrite (Hkeyed _ _ Hr). }
  destruct (length pend =? 0)%nat eqn:Hlen.
  - split; [reflexivity|]. apply Hidle. intros r Hin.
    apply Nat.eqb_eq in Hlen. destruct pend; [inversion Hin | discriminate].
  - destruct (pushLoop pend (mkPushState ∅ [] [] [] [])) as (Hs & _ & _ & _ & Hf).
    cbv zeta in Hs, Hf. cbn [syncedIds firebaseIds app] in Hs, Hf.
    set (st := foldl (pushOne remoteSet) _ pend) in *.
    rewrite bind_after.
    destruct (0 <? length (syncedIds st))%nat eqn:Hany.
    + change (after (ret _) ?x) with x.
      split.
      { rewrite markAsSynced_foldl.
        destruct (foldl_update_lookup
                    (fun key => [set_syncStatus synced;
                                 set_firebaseId (Some (firebaseIds st) ≫= (.!! key))])
                    (syncedIds st) (fun _ r => ltac:(now destruct r)) w) as [Ht _].
        exact Ht. }
      intros k. rewrite markAsSynced_lookup, Hs.
      destruct (reports w !! k) as [r|] eqn:Hr.
      * pose proof (Hkeyed _ _ Hr) as Hid. simpl. unfold pushed.
        destruct (decide (syncStatus r = pending /\ accepts remoteSet r))
          as [[Hp Ha]|Hno].
        -- rewrite decide_True.
           ++ simpl. rewrite Hf, decide_True; [reflexivity|].
              all: apply list_elem_of_fmap; exists r; split; [now rewrite Hid|];
                apply list_elem_of_filter; split; [exact Ha|];
                apply Hpend; split; [exact Hp | now rewrite Hid].
           ++ apply list_elem_of_fmap. exists r. split; [now rewrite Hid|].
              apply list_elem_of_filter. split; [exact Ha|].
              apply Hpend. split; [exact Hp | now rewrite Hid].
        -- rewrite decide_False; [reflexivity|].
           intros Hin. apply list_elem_of_fmap in Hin as (r0 & -> & Hin).
           apply list_elem_of_filter in Hin as [Ha Hin].
           apply Hpend in Hin as [Hp Hr0]. rewrite Hr in Hr0.
           injection Hr0 as ->. tauto.
      * now destruct (decide _).
    + split; [reflexivity|]. change (after (ret _) ?x) with x.
      change (after (ret _) ?x) with x.
      apply Hidle. intros r Hin Ha.
      apply Nat.ltb_ge in Hany. rewrite Hs in Hany.
      assert (Hr : r ∈ filter (accepts remoteSet) pend)
        by (apply list_elem_of_filter; now split).
      destruct (filter (accepts remoteSet) pend); [inversion Hr|].
      simpl in Hany. lia.
Qed.

(** X17. On a table whose rows carry their own key, a push touches
    only the pending reports the remote store accepted: each becomes
    [synced] with its own id as [firebaseId] and is otherwise kept; a
    rejected report stays exactly as it was, still pending, whatever
    happened to the reports pushed before or after it.  No row appears
    or disappears and the clock is not read. *)
Theorem push_isolates_failures w :
  keyed (reports w) ->
  let w' := after (syncPendingToFirestore remoteSet) w in
  (forall r, r ∈ result getPendingReports w' <->
             r ∈ result getPendingReports w /\ ~ accepts remoteSet r) /\
  (forall k r, reports w !! k = Some r ->
     ~ (syncStatus r = pending /\ accepts remoteSet r) ->
     reports w' !! k = Some r) /\
  (forall k r, reports w !! k = Some r ->
     syncStatus r = pending -> accepts remoteSet r ->
     exists r', reports w' !! k = Some r' /\
       syncStatus r' = synced /\ firebaseId r' = Some k /\
       lastModified r' = lastModified r /\ sameContent r r' /\ sameVotes r r' /\
       archived r' = archived r /\ archivedAt r' = archivedAt r /\
       flagged r' = flagged r /\ noGlassFound r' = noGlassFound r) /\
  dom (reports w') = dom (reports w) /\
  ticks w' = ticks w.
Proof.
  intros Hkeyed w'. destruct (syncPending_lookup w Hkeyed) as [Ht Hk].
  fold w' in Ht, Hk. split; [|split; [|split; [|split]]].
  - intros r. rewrite !getPendingReports_in. split.
    + intros (Hp & k & Hr). rewrite Hk in Hr.
      destruct (reports w !! k) as [r0|] eqn:Hr0; [|discriminate].
      simpl in Hr. injection Hr as <-. unfold pushed in *.
      destruct (decide _) as [|Hno]; [destruct r0; discriminate|].
      split; [split; [exact Hp | now exists k]|]. tauto.
    + intros ((Hp & k & Hr) & Hrej). split; [exact Hp|]. exists k.
      rewrite Hk, Hr. simpl. unfold pushed. now rewrite decide_False by tauto.
  - intros k r Hr Hno. rewrite Hk, Hr. simpl. unfold pushed.
    now rewrite decide_False.
  - intros k r Hr Hp Ha. rewrite Hk, Hr. simpl. unfold pushed.
    rewrite decide_True by tauto. eexists. split; [reflexivity|].
    unfold sameContent, sameVotes. destruct r. simpl. tauto.
  - apply set_eq. intros k. rewrite !elem_of_dom, Hk.
    destruct (reports w !! k); simpl; split; intros [? H]; try discriminate; eauto.
  - exact Ht.
Qed.

(** X18. What a push sends out: the remote store receives the document
    of every pending report it accepts, under that report's id and with
    that id inside, and nothing else.  Each rejected report shows its
    own toast and the push then adds one summary toast with the number
    of rejected reports; a push with nothing rejected shows none. *)
Theorem push_sends_pending_documents w :
  let pend := result getPendingReports w in
  let out := result (syncPendingToFirestore remoteSet) w in
  let failed := filter (fun r => ~ accepts remoteSet r) pend in
  (forall k d, (k, d) ∈ acceptedDocs out <->
     exists r, r ∈ pend /\ accepts remoteSet r /\
               k = id r /\ d = toRealtimeDbReport r) /\
  (forall k d, (k, d) ∈ acceptedDocs out ->
     doc_id d = Some k /\ doc_updatedAt d = serverTimestamp) /\
  shownToasts out
    = omap (rejectionToast remoteSet) pend
      ++ (if decide (failed = []) then [] else [toastFailedToSync (length failed)]) /\
  length (omap (rejectionToast remoteSet) pend) = length failed.
Proof.
  intros pend out failed.
  assert (Hfail : forall rs : list Report,
            length (omap (rejectionToast remoteSet) rs)
            = length (filter (fun r => ~ accepts remoteSet r) rs)).
  { induction rs as [|r rs IH]; [reflexivity|]. cbn [omap list_omap].
    unfold rejectionToast at 1.
    destruct (remoteSet (id r) (toRealtimeDbReport r)) as [err|] eqn:Hset.
    - rewrite filter_cons_True by (unfold accepts; congruence).
      simpl. f_equal. apply IH.
    - rewrite filter_cons_False by (unfold accepts; tauto). apply IH. }
  assert (Hout : acceptedDocs out
                 = (fun r => (id r, toRealtimeDbReport r))
                     <$> filter (accepts remoteSet) pend /\
                 shownToasts out
                 = omap (rejectionToast remoteSet) pend
                   ++ (if decide (failed = []) then []
                       else [toastFailedToSync (length failed)])).
  { subst out. unfold syncPendingToFirestore. rewrite bind_result.
    assert (Hw : after getPendingReports w = w) by reflexivity.
    rewrite Hw. fold pend.
    destruct (length pend =? 0)%nat eqn:Hlen.
    - apply Nat.eqb_eq in Hlen. subst failed.
      destruct pend; [|discriminate]. now split.
    - destruct (pushLoop pend (mkPushState ∅ [] [] [] [])) as (_ & He & Ha & Hts & _).
      cbv zeta in He, Ha, Hts. cbn [errors accepted toasts app] in He, Ha, Hts.
      set (st := foldl (pushOne remoteSet) _ pend) in *.
      rewrite !bind_result. unfold ret at 2, result at 1. cbn [fst].
      cbn [acceptedDocs shownToasts]. split; [exact Ha|].
      rewrite Hts, He. fold failed. rewrite length_fmap. f_equal.
      destruct failed; reflexivity. }
  destruct Hout as [Ha Hts]. split; [|split; [|split]].
  - intros k d. rewrite Ha, list_elem_of_fmap. split.
    + intros (r & E & Hin). injection E as -> ->.
      apply list_elem_of_filter in Hin as [Hacc Hin]. now exists r.
    + intros (r & Hin & Hacc & -> & ->). exists r. split; [reflexivity|].
      now apply list_elem_of_filter.
  - intros k d. rewrite Ha, list_elem_of_fmap.
    intros (r & E & _). injection E as -> ->. now split.
  - exact Hts.
  - apply Hfail.
Qed.

(** Reading a snapshot touches no row; the reports come out under the
    ids of [docKey], in order. *)
Lemma entries_run (data : list (string * RemoteDoc)) : forall w,
  reports (after (entriesToReports clock data) w) = reports w /\
  id <$> result (entriesToReports clock data) w = docKey <$> data.
Proof.
  induction data as [|[key d] data IH]; intros w; [now split|].
  cbn [entriesToReports]. rewrite !bind_after, !bind_result.
  set (w1 := after (fromRealtimeDbReport clock d key) w).
  assert (Hw1 : reports w1 = reports w).
  { subst w1. unfold fromRealtimeDbReport. rewrite bind_after.
    now destruct (doc_updatedAt d). }
  destruct (IH w1) as [Hr Hi]. split; [now rewrite <- Hw1|].
  unfold ret at 1, result at 1. cbn [fst]. rewrite !fmap_cons. f_equal.
  - unfold fromRealtimeDbReport. rewrite bind_result. reflexivity.
  - exact Hi.
Qed.

(** A snapshot whose documents all carry a number as [updatedAt] reads
    the same at any time, and reading it takes no clock reading. *)
Lemma entries_stamped (data : list (string * RemoteDoc)) :
  Forall (fun entry => isStamped entry.2 = true) data ->
  forall w, after (entriesToReports clock data) w = w /\
            forall w', result (entriesToReports clock data) w'
                       = result (entriesToReports clock data) w.
Proof.
  induction data as [|[key d] data IH]; intros Hall w; [now split|].
  apply Forall_cons in Hall as [Hd Hall]. cbn [snd] in Hd.
  assert (Hone : forall w0, fromRealtimeDbReport clock d key w0
                   = (result (fromRealtimeDbReport clock d key) w, w0)).
  { intros w0. unfold fromRealtimeDbReport, isStamped in *.
    destruct (doc_updatedAt d); try discriminate. reflexivity. }
  assert (Hafter : forall w0, after (fromRealtimeDbReport clock d key) w0 = w0)
    by (intros w0; unfold after; now rewrite Hone).
  assert (Hres : forall w0, result (fromRealtimeDbReport clock d key) w0
                   = result (fromRealtimeDbReport clock d key) w)
    by (intros w0; unfold result at 1; now rewrite Hone).
  cbn [entriesToReports]. split.
  - rewrite !bind_after, Hafter. apply (IH Hall).
  - intros w'. rewrite !bind_result, !Hafter, !Hres.
    transitivity (result (fromRealtimeDbReport clock d key) w
                  :: result (entriesToReports clock data) w'); [reflexivity|].
    now rewrite (proj2 (IH Hall w) w').
Qed.

Lemma recordOf_toArray (m : gmap string Report) k :
  keyed m -> recordOf (map_to_list m).*2 k = m !! k.
Proof.
  intros Hkeyed. destruct (m !! k) as [r|] eqn:Hr.
  - rewrite <- (Hkeyed _ _ Hr). apply recordOf_elem.
    + rewrite (toArray_ids m Hkeyed). apply NoDup_fst_map_to_list.
    + apply toArray_elem; [exact Hkeyed|]. now rewrite (Hkeyed _ _ Hr).
  - apply recordOf_None. rewrite (toArray_ids m Hkeyed).
    intros Hin. apply list_elem_of_fmap in Hin as ([k' r] & -> & Hin).
    apply elem_of_map_to_list in Hin. simpl in Hr. congruence.
Qed.

(** A run of [put]s over records with pairwise-distinct ids. *)
Lemma puts_lookup (xs : list Report) :
  NoDup (id <$> xs) -> forall w,
  ticks (after (forEach Table.put xs) w) = ticks w /\
  forall k, reports (after (forEach Table.put xs) w) !! k
            = match recordOf xs k with
              | Some r => Some r
              | None => reports w !! k
              end.
Proof.
  induction xs as [|x xs IH]; intros Hnd w; [now split|].
  rewrite fmap_cons in Hnd. apply NoDup_cons in Hnd as [Hx Hnd].
  rewrite forEach_after_cons.
  destruct (IH Hnd (after (Table.put x) w)) as [Ht Hk]. split; [now rewrite Ht|].
  intros k. rewrite Hk. unfold recordOf at 2. rewrite fmap_cons.
  cbn [JsMap.get]. fold (recordOf xs k).
  destruct (decide (id x = k)) as [<-|Hne].
  - rewrite eqb_refl', (proj2 (recordOf_None xs (id x)) Hx).
    unfold after, Table.put. cbn [snd reports]. now rewrite lookup_insert_eq.
  - rewrite eqb_ne by exact Hne.
    destruct (recordOf xs k); [reflexivity|].
    unfold after, Table.put. cbn [snd reports]. now rewrite lookup_insert_ne.
Qed.

Lemma mergeOne_again (held : option Report) (b : Report) :
  mergeOne (Some (mergeOne held b)) b = mergeOne held b.
Proof.
  unfold mergeOne. destruct held as [a|].
  - destruct (Z.ltb_spec (lastModified a) (lastModified b)) as [Hlt|Hge].
    + replace (lastModified (applyChange b (set_syncStatus synced)))
        with (lastModified b) by now destruct b.
      now rewrite Z.ltb_irrefl.
    + now rewrite (proj2 (Z.ltb_ge _ _) Hge).
  - now rewrite Z.ltb_irrefl.
Qed.

(** Merging a remote list into the table and storing the result, row by
    row: what [fullSync] and the live listener both do. *)
Lemma absorb_lookup (remote : list Report) w :
  keyed (reports w) -> NoDup (id <$> remote) ->
  let merged := mergeReports (result getAllReports w) remote in
  let w' := after (forEach Table.put merged) w in
  ticks w' = ticks w /\
  (forall k, reports w' !! k
             = match recordOf remote k with
               | Some b => Some (mergeOne (reports w !! k) b)
               | None => reports w !! k
               end) /\
  keyed (reports w') /\
  (forall r, r ∈ merged <-> reports w' !! id r = Some r).
Proof.
  intros Hkeyed Hr merged w'.
  assert (Hl : NoDup (id <$> result getAllReports w)).
  { unfold result, getAllReports, Table.toArray. cbn [fst].
    rewrite (toArray_ids _ Hkeyed). apply NoDup_fst_map_to_list. }
  destruct (merge_recordOf _ _ Hl Hr) as (Hnd & _ & Hrec). fold merged in Hnd, Hrec.
  destruct (puts_lookup merged Hnd w) as [Ht Hput]. fold w' in Ht, Hput.
  assert (Hlocal : forall k, recordOf (result getAllReports w) k = reports w !! k)
    by (intros k; now apply recordOf_toArray).
  assert (Hk : forall k, reports w' !! k = recordOf merged k).
  { intros k. rewrite Hput. destruct (recordOf merged k) eqn:Hm; [reflexivity|].
    rewrite Hrec, Hlocal in Hm. now destruct (recordOf remote k). }
  split; [exact Ht|]. split; [|split].
  - intros k. now rewrite Hk, Hrec, Hlocal.
  - intros k r. rewrite Hk. intros H. now apply recordOf_Some in H.
  - intros r. rewrite Hk. split.
    + now apply recordOf_elem.
    + intros H. now apply recordOf_Some in H.
Qed.

Lemma bind_run {A B} (m : Task A) (k : A -> Task B) w :
  bind m k w = k (result m w) (after m w).
Proof. unfold after, result, bind. now destruct (m w). Qed.

Lemma run_pair {A} (m : Task A) w : m w = (result m w, after m w).
Proof. unfold after, result. now destruct (m w). Qed.

Lemma fetch_ok snapshot w :
  fetchFromFirestore clock (inr snapshot) w
  = (inr (result (entriesToReports clock (default [] snapshot)) w),
     after (entriesToReports clock (default [] snapshot)) w).
Proof.
  destruct snapshot as [data|]; [|reflexivity].
  change (default [] (Some data)) with data.
  unfold fetchFromFirestore. now rewrite bind_run.
Qed.

Lemma fullSync_run snapshot w :
  let w0 := after (entriesToReports clock (default [] snapshot)) w in
  let remote := result (entriesToReports clock (default [] snapshot)) w in
  let merged := mergeReports (result getAllReports w0) remote in
  let w1 := after (forEach Table.put merged) w0 in
  fullSync clock remoteSet (inr snapshot) w
  = ((merged, result (syncPendingToFirestore remoteSet) w1),
     after (syncPendingToFirestore remoteSet) w1).
Proof.
  intros w0 remote merged w1. unfold fullSync.
  rewrite bind_run. unfold result at 1, after at 1. rewrite fetch_ok.
  cbn [fst snd]. fold w0 remote. rewrite bind_run.
  change (after getAllReports w0) with w0. fold merged.
  rewrite bind_run. fold w1. now rewrite bind_run.
Qed.

Lemma onRemoteValue_run snapshot w :
  let w0 := after (entriesToReports clock (default [] snapshot)) w in
  let remote := result (entriesToReports clock (default [] snapshot)) w in
  let merged := mergeReports (result getAllReports w0) remote in
  onRemoteValue clock true snapshot w
  = (Some merged, after (forEach Table.put merged) w0).
Proof.
  intros w0 remote merged. unfold onRemoteValue. cbn [negb].
  rewrite bind_run. fold w0 remote. rewrite bind_run.
  change (after getAllReports w0) with w0. fold merged.
  now rewrite bind_run.
Qed.

(** The rows after the remote list of a snapshot has been merged in and
    stored, in terms of the rows before. *)
Lemma snapshot_absorbed snapshot w :
  keyed (reports w) -> NoDup (docKey <$> default [] snapshot) ->
  let w0 := after (entriesToReports clock (default [] snapshot)) w in
  let remote := result (entriesToReports clock (default [] snapshot)) w in
  let merged := mergeReports (result getAllReports w0) remote in
  let w1 := after (forEach Table.put merged) w0 in
  ticks w1 = ticks w0 /\
  (forall k, reports w1 !! k
             = match recordOf remote k with
               | Some b => Some (mergeOne (reports w !! k) b)
               | None => reports w !! k
               end) /\
  keyed (reports w1) /\
  (forall r, r ∈ merged <-> reports w1 !! id r = Some r) /\
  (forall k, k ∉ docKey <$> default [] snapshot -> recordOf remote k = None).
Proof.
  intros Hkeyed Hnd w0 remote merged w1.
  destruct (entries_run (default [] snapshot) w) as [Hrows Hids].
  fold w0 in Hrows. fold remote in Hids.
  assert (Hkeyed0 : keyed (reports w0)) by now rewrite Hrows.
  assert (Hnd0 : NoDup (id <$> remote)) by now rewrite Hids.
  destruct (absorb_lookup remote w0 Hkeyed0 Hnd0) as (Ht & Hk & Hkeyed1 & Hin).
  fold merged in Ht, Hk, Hkeyed1, Hin. fold w1 in Ht, Hk, Hkeyed1, Hin.
  rewrite Hrows in Hk. repeat split; try assumption; try apply Hin.
  intros k Hout. apply recordOf_None. now rewrite Hids.
Qed.

(** X19. A full sync whose fetch fails writes nothing, locally or
    remotely, and answers with the local reports and one toast.  When
    the fetch succeeds (on a table whose rows carry their own key and a
    snapshot with pairwise-distinct ids) no local row is ever removed,
    also not one that is missing from the snapshot; the table ends up
    holding every returned report, except that a returned report that
    was pending and accepted by the remote store is by then stored as
    synced, so the returned list still shows it as pending; and if the
    remote store accepts every write, nothing is left pending. *)
Theorem fullSync_keeps_rows_and_returns_the_merge snapshot w :
  keyed (reports w) -> NoDup (docKey <$> default [] snapshot) ->
  (forall err, fullSync clock remoteSet (inl err) w
     = ((result getAllReports w, mkPushOutcome [] [toastSyncFailedLocalOnly]), w)) /\
  let run := fullSync clock remoteSet (inr snapshot) in
  let w' := after run w in
  let returned := (result run w).1 in
  (forall k, is_Some (reports w !! k) -> is_Some (reports w' !! k)) /\
  (forall k, k ∉ docKey <$> default [] snapshot ->
     reports w' !! k = pushed remoteSet k <$> reports w !! k) /\
  (forall r, r ∈ returned ->
     reports w' !! id r = Some (pushed remoteSet (id r) r)) /\
  (forall k r', reports w' !! k = Some r' ->
     exists r, r ∈ returned /\ id r = k /\ r' = pushed remoteSet k r) /\
  keyed (reports w') /\
  ((forall r, accepts remoteSet r) -> result getPendingReports w' = []).
Proof.
  intros Hkeyed Hnd. split; [reflexivity|]. intros run w' returned.
  subst returned w' run. unfold after, result. rewrite fullSync_run.
  cbn [fst snd].
  destruct (snapshot_absorbed snapshot w Hkeyed Hnd) as (_ & Hk & Hkeyed1 & Hin & Hout).
  cbv zeta in Hk, Hkeyed1, Hin, Hout.
  set (w0 := after (entriesToReports clock (default [] snapshot)) w) in *.
  set (remote := result (entriesToReports clock (default [] snapshot)) w) in *.
  set (merged := mergeReports (result getAllReports w0) remote) in *.
  set (w1 := after (forEach Table.put merged) w0) in *.
  destruct (syncPending_lookup w1 Hkeyed1) as [_ Hpush]. cbv zeta in Hpush.
  fold (after (syncPendingToFirestore remoteSet) w1).
  set (w2 := after (syncPendingToFirestore remoteSet) w1) in *.
  assert (Hkeyed2 : keyed (reports w2)).
  { intros k r. rewrite Hpush.
    destruct (reports w1 !! k) as [r1|] eqn:Hr1; [|discriminate].
    simpl. intros [= <-]. pose proof (Hkeyed1 _ _ Hr1) as Hid.
    unfold pushed. destruct (decide _); [now destruct r1 | exact Hid]. }
  split; [|split; [|split; [|split; [|split]]]].
  - intros k [r Hr]. rewrite Hpush, Hk, Hr.
    destruct (recordOf remote k); simpl; eauto.
  - intros k Hmiss. now rewrite Hpush, Hk, (Hout k Hmiss).
  - intros r Hr. apply Hin in Hr. now rewrite Hpush, Hr.
  - intros k r'. rewrite Hpush.
    destruct (reports w1 !! k) as [r1|] eqn:Hr1; [|discriminate].
    simpl. intros [= <-]. pose proof (Hkeyed1 _ _ Hr1) as Hid.
    exists r1. split; [|now split]. apply Hin. now rewrite Hid.
  - exact Hkeyed2.
  - intros Hall. apply elem_of_nil_inv. intros r Hr.
    apply getPendingReports_in in Hr as (Hp & k & Hr). rewrite Hpush in Hr.
    destruct (reports w1 !! k) as [r1|] eqn:Hr1; [|discriminate].
    simpl in Hr. injection Hr as <-. unfold pushed in Hp.
    destruct (decide _) as [|Hno]; [destruct r1; discriminate|].
    apply Hno. split; [exact Hp | apply Hall].
Qed.

(** X20. The live listener drops an update that arrives while the
    browser is offline.  Online (on a table whose rows carry their own
    key and a snapshot with pairwise-distinct ids) the list it hands on
    is exactly what the table then holds; a row whose id is not in the
    snapshot is left alone, so a report deleted remotely stays on this
    device; a row that changes is replaced by a strictly newer remote
    record, marked synced; and if every document carries its server
    stamp, a second delivery of the same snapshot changes nothing. *)
Theorem live_update_absorbs_the_snapshot snapshot w :
  keyed (reports w) -> NoDup (docKey <$> default [] snapshot) ->
  onRemoteValue clock false snapshot w = (None, w) /\
  let run := onRemoteValue clock true snapshot in
  let w' := after run w in
  (exists merged, result run w = Some merged /\
     forall r, r ∈ merged <-> reports w' !! id r = Some r) /\
  (forall k, k ∉ docKey <$> default [] snapshot ->
     reports w' !! k = reports w !! k) /\
  (forall k r, reports w !! k = Some r ->
     exists r', reports w' !! k = Some r' /\
       (r' = r \/ (lastModified r < lastModified r' /\ syncStatus r' = synced))) /\
  keyed (reports w') /\
  (Forall (fun entry => isStamped entry.2 = true) (default [] snapshot) ->
     after run w' = w').
Proof.
  intros Hkeyed Hnd. split; [reflexivity|]. intros run w'.
  assert (Hshape : forall v, keyed (reports v) ->
            let v0 := after (entriesToReports clock (default [] snapshot)) v in
            let remote := result (entriesToReports clock (default [] snapshot)) v in
            let merged := mergeReports (result getAllReports v0) remote in
            result run v = Some merged /\
            ticks (after run v) = ticks v0 /\
            (forall k, reports (after run v) !! k
               = match recordOf remote k with
                 | Some b => Some (mergeOne (reports v !! k) b)
                 | None => reports v !! k
                 end) /\
            keyed (reports (after run v)) /\
            (forall r, r ∈ merged <-> reports (after run v) !! id r = Some r) /\
            (forall k, k ∉ docKey <$> default [] snapshot ->
               recordOf remote k = None)).
  { intros v Hv v0 remote merged.
    destruct (snapshot_absorbed snapshot v Hv Hnd) as (Ht & Hk & Hk1 & Hin & Hout).
    unfold after, result, run. rewrite onRemoteValue_run. cbn [fst snd].
    split; [reflexivity|]. repeat split; try assumption; apply Hin. }
  destruct (Hshape w Hkeyed) as (Hres & Ht & Hk & Hkeyed' & Hin & Hout).
  cbv zeta in Hres, Ht, Hk, Hkeyed', Hin, Hout. fold w' in Ht, Hk, Hkeyed', Hin.
  split; [|split; [|split; [|split]]].
  - eexists. split; [exact Hres | exact Hin].
  - intros k Hmiss. now rewrite Hk, (Hout k Hmiss).
  - intros k r Hr. rewrite Hk, Hr. destruct (recordOf _ k) as [b|]; [|eauto].
    eexists. split; [reflexivity|]. unfold mergeOne.
    destruct (Z.ltb_spec (lastModified r) (lastModified b)); [right | now left].
    destruct b. simpl in *. now split.
  - exact Hkeyed'.
  - intros Hstamped.
    destruct (entries_stamped _ Hstamped w) as [Hafter _].
    destruct (entries_stamped _ Hstamped w') as [Hafter' Hsame].
    destruct (Hshape w' Hkeyed') as (_ & Ht2 & Hk2 & _).
    cbv zeta in Ht2, Hk2. rewrite Hafter' in Ht2.
    rewrite <- (Hsame w) in Hk2.
    apply world_eq; [|exact Ht2].
    apply map_eq. intros k. rewrite Hk2, Hk.
    destruct (recordOf _ k) as [b|]; [|reflexivity].
    now rewrite mergeOne_again.
Qed.

End PushPull.

Section Detector.

Variable calculateDistance : Q -> Q -> Q -> Q -> Q.
Variable reportList : list Report.
Variable suppressedReportIds : list string.

Local Abbreviation step :=
  (checkProximity calculateDistance reportList suppressedReportIds).
Local Abbreviation run := (watch calculateDistance reportList suppressedReportIds).

Lemma list_to_set_size_pos (ids : list string) :
  (0 < size (list_to_set ids : gset string))%nat -> ids <> [].
Proof. intros H ->. rewrite list_to_set_nil, size_empty in H. lia. Qed.

Lemma filter_fresh (previously : gset string) (ids : list string) :
  previously = ∅ -> filter (fun key => key ∉ previously) ids = ids.
Proof. intros ->. apply filter_all_in. intros key _. apply not_elem_of_empty. Qed.

(** The calls of one fix and what they do to the latch. *)
Lemma step_calls now position d :
  coherent d ->
  let d' := (step now position d).1 in
  let calls := (step now position d).2 in
  coherent d' /\
  ((calls = [] /\ hasTriggeredAlertRef d' = hasTriggeredAlertRef d) \/
   (calls = [triggerVibration; showNotification;
             onAlertTriggered (nearbyReportIds (state d'))] /\
    nearbyReportIds (state d') <> [] /\
    hasTriggeredAlertRef d = false /\ hasTriggeredAlertRef d' = true) \/
   (calls = [onAlertCleared] /\
    hasTriggeredAlertRef d = true /\ hasTriggeredAlertRef d' = false)).
Proof.
  intros (Hset & Hflag & Hlatch) d' calls. subst d' calls.
  destruct (Z.lt_ge_cases (now - lastCheckRef d) DEBOUNCE_MS) as [Hdrop|Hrun].
  - rewrite (checkProximity_dropped _ _ _ now position d Hdrop). cbn [fst snd].
    split; [now repeat split | now left].
  - rewrite (checkProximity_run _ _ _ now position d Hrun). cbv zeta.
    cbn [fst snd]. unfold coherent.
    cbn [previouslyInProximityRef hasTriggeredAlertRef state nearbyReportIds
         isInProximity].
    destruct (id <$> near calculateDistance reportList suppressedReportIds
                          (previouslyInProximityRef d) position) as [|key ids].
    + rewrite filter_nil. cbn [length Nat.eqb]. change (0 <? 0)%nat with false.
      cbn [andb app].
      destruct (0 <? size (previouslyInProximityRef d))%nat eqn:Hsize.
      * split; [now repeat split|]. right. right. split; [reflexivity|].
        split; [|reflexivity]. rewrite Hlatch, Hflag.
        apply Nat.ltb_lt in Hsize. rewrite Hset in Hsize.
        apply list_to_set_size_pos in Hsize.
        destruct (nearbyReportIds (state d)); [contradiction | reflexivity].
      * apply Nat.ltb_ge in Hsize.
        assert (Hempty : nearbyReportIds (state d) = []).
        { destruct (nearbyReportIds (state d)) as [|k ks] eqn:Hn; [reflexivity|].
          exfalso. assert (Hk : k ∈ previouslyInProximityRef d)
            by (rewrite Hset; apply elem_of_list_to_set; left).
          assert (Hz : previouslyInProximityRef d ≡ ∅)
            by (apply size_empty_inv; lia).
          rewrite Hz in Hk. now apply not_elem_of_empty in Hk. }
        split; [|now left]. repeat split.
        now rewrite Hlatch, Hflag, Hempty.
    + cbn [length Nat.eqb andb app]. rewrite app_nil_r.
      change (0 <? S (length ids))%nat with true.
      destruct (hasTriggeredAlertRef d) eqn:Ht.
      * rewrite andb_false_r. split; [now repeat split | now left].
      * assert (Hprev : previouslyInProximityRef d = ∅).
        { rewrite Hset. rewrite <- Hlatch in Hflag.
          destruct (nearbyReportIds (state d)); [reflexivity | discriminate]. }
        rewrite (filter_fresh _ _ Hprev). cbn [length Nat.ltb Nat.leb andb negb].
        split; [now repeat split|]. right. left. now repeat split.
Qed.

(** X21. Over any run of fixes that starts from the initial detector,
    from a detector that was just reset, or from any state in which refs
    and state agree, they keep agreeing: the alert latch is set exactly
    when the banner shows, the banner shows exactly when some report is
    listed as nearby, and the in-range set holds exactly the listed ids. *)
Theorem detector_refs_and_state_agree (fixes : list (Z * Coords)) :
  coherent initialDetector /\
  (forall d, coherent (resetDetector d)) /\
  (forall d, coherent d -> coherent (run fixes d).1).
Proof.
  split; [now repeat split|]. split; [now repeat split|].
  induction fixes as [|[now position] fixes IH]; intros d Hd; [exact Hd|].
  destruct (step_calls now position d Hd) as [Hd1 _].
  cbv zeta in Hd1. cbn [watch].
  destruct (checkProximity _ _ _ now position d) as [d1 calls].
  specialize (IH d1 Hd1).
  now destruct (watch _ _ _ fixes d1).
Qed.

(** X22. From a state in which refs and state agree, every fix makes
    one of three call sequences: nothing; vibration, notification and
    [onAlertTriggered] with the non-empty list of nearby ids; or
    [onAlertCleared] alone.  Over the whole watch the two callbacks take
    strict turns: an alert is never triggered twice without a clear in
    between, nothing is cleared that was not triggered, and the latch at
    the end tells which of the two came last. *)
Theorem alert_and_clear_take_turns (fixes : list (Z * Coords)) d :
  coherent d ->
  Forall (fun calls =>
            calls = [] \/ calls = [onAlertCleared] \/
            exists ids, ids <> [] /\
              calls = [triggerVibration; showNotification; onAlertTriggered ids])
         (run fixes d).2 /\
  latchAfter (hasTriggeredAlertRef d) (concat (run fixes d).2)
  = Some (hasTriggeredAlertRef (run fixes d).1).
Proof.
  revert d.
  induction fixes as [|[now position] fixes IH]; intros d Hd; [now split|].
  destruct (step_calls now position d Hd) as [Hd1 Hcalls].
  cbv zeta in Hd1, Hcalls. cbn [watch].
  destruct (checkProximity _ _ _ now position d) as [d1 calls].
  cbn [fst snd] in Hd1, Hcalls.
  destruct (IH d1 Hd1) as [Hshape Hturn].
  destruct (watch _ _ _ fixes d1) as [d2 more]. cbn [fst snd] in *.
  split.
  - apply Forall_cons. split; [|exact Hshape].
    destruct Hcalls as [[-> _]|[(-> & Hne & _)|[-> _]]];
      [now left | right; right; eauto | right; now left].
  - destruct Hcalls as [[-> Hl]|[(-> & _ & Hl & Hl')|(-> & Hl & Hl')]].
    + cbn [concat app]. rewrite <- Hl. exact Hturn.
    + cbn [concat app latchAfter]. rewrite Hl. now rewrite Hl' in Hturn.
    + cbn [concat app latchAfter]. rewrite Hl. now rewrite Hl' in Hturn.
Qed.

Lemma triggered_in_calls (fire exited : bool) (ids0 ids : list string) :
  onAlertTriggered ids
    ∈ (if fire then [triggerVibration; showNotification; onAlertTriggered ids0]
       else [])
      ++ (if exited then [onAlertCleared] else []) ->
  fire = true /\ ids = ids0.
Proof.
  destruct fire, exited; cbn [app]; intros H;
    repeat (apply elem_of_cons in H as [H|H]; [try discriminate|]);
    try (now inversion H); injection H as ->; now split.
Qed.

(** X23. What a processed fix lists as nearby: only ids of reports that
    are unresolved, not archived, not suppressed and at most 6 m away;
    every such report within 3 m is listed.  An alert is triggered only
    if some such report is within 3 m: the band between 3 m and 6 m
    keeps an alert up but never starts one. *)
Theorem nearby_are_live_reports_in_range now position d :
  DEBOUNCE_MS <= now - lastCheckRef d ->
  let d' := (step now position d).1 in
  let calls := (step now position d).2 in
  let dist := distanceTo calculateDistance position in
  (forall key, key ∈ nearbyReportIds (state d') ->
     exists r, r ∈ reportList /\ id r = key /\
       resolved r = false /\ truthy (archived r) = false /\
       includes suppressedReportIds key = false /\ (dist r <= 6)%Q) /\
  (forall r, r ∈ reportList -> candidate suppressedReportIds r = true ->
     (dist r <= 3)%Q -> id r ∈ nearbyReportIds (state d')) /\
  (forall ids, onAlertTriggered ids ∈ calls ->
     ids = nearbyReportIds (state d') /\
     exists r, r ∈ reportList /\ candidate suppressedReportIds r = true /\
       (dist r <= 3)%Q /\ id r ∈ ids).
Proof.
  intros Hrun d' calls dist. subst d' calls dist.
  rewrite (checkProximity_run _ _ _ now position d Hrun). cbv zeta.
  cbn [fst snd state nearbyReportIds].
  set (found := near calculateDistance reportList suppressedReportIds
                     (previouslyInProximityRef d) position).
  assert (Hfound : forall r, r ∈ found ->
            r ∈ reportList /\ candidate suppressedReportIds r = true /\
            ((distanceTo calculateDistance position r <= 3)%Q \/
             (id r ∈ previouslyInProximityRef d /\
              (distanceTo calculateDistance position r <= 6)%Q)))
    by (intros r Hr; apply near_elem in Hr as (? & ? & Hin);
        apply inRange_spec in Hin; tauto).
  split; [|split].
  - intros key Hkey. apply list_elem_of_fmap in Hkey as (r & -> & Hr).
    apply Hfound in Hr as (Hin & Hc & Hd). exists r.
    unfold candidate in Hc. apply andb_true_iff in Hc as [Hc Hs].
    apply andb_true_iff in Hc as [Hres Harch].
    apply negb_true_iff in Hs, Hres, Harch.
    repeat split; try assumption.
    destruct Hd as [H3|[_ H6]]; [|exact H6].
    eapply Qle_trans; [exact H3 | discriminate].
  - intros r Hin Hc H3. apply list_elem_of_fmap. exists r. split; [reflexivity|].
    apply near_elem. split; [exact Hin|]. split; [exact Hc|].
    apply inRange_spec. now left.
  - intros ids Hcall. apply triggered_in_calls in Hcall as [Hfire ->].
    split; [reflexivity|]. apply andb_true_iff in Hfire as [Hnew _].
    destruct (filter (fun key => key ∉ previouslyInProximityRef d) (id <$> found))
      as [|key fresh] eqn:Hfresh; [discriminate|].
    assert (Hkey : key ∈ filter (fun key => key ∉ previouslyInProximityRef d)
                                (id <$> found)) by (rewrite Hfresh; left).
    apply list_elem_of_filter in Hkey as [Hout Hkey].
    apply list_elem_of_fmap in Hkey as (r & -> & Hr).
    pose proof Hr as Hr'. apply Hfound in Hr as (Hin & Hc & [H3|[Hwas _]]);
      [|contradiction].
    exists r. repeat split; try assumption.
    apply list_elem_of_fmap. now exists r.
Qed.

(** X24. Switching the alerts off and on again re-arms them: whatever
    the detector held before the reset, the next processed fix with a
    live, unsuppressed report within 3 m triggers the alert, with that
    report among the ids.  The reset keeps the time of the last processed
    fix, so the 1000 ms debounce runs on across it. *)
Theorem reset_rearms_the_alert now position d r :
  DEBOUNCE_MS <= now - lastCheckRef d ->
  r ∈ reportList -> candidate suppressedReportIds r = true ->
  (distanceTo calculateDistance position r <= 3)%Q ->
  lastCheckRef (resetDetector d) = lastCheckRef d /\
  exists ids, id r ∈ ids /\
    (step now position (resetDetector d)).2
    = [triggerVibration; showNotification; onAlertTriggered ids] /\
    hasTriggeredAlertRef (step now position (resetDetector d)).1 = true.
Proof.
  intros Hrun Hin Hc H3. split; [reflexivity|].
  rewrite (checkProximity_run _ _ _ now position (resetDetector d) Hrun).
  cbv zeta. cbn [fst snd previouslyInProximityRef hasTriggeredAlertRef resetDetector].
  rewrite filter_fresh by reflexivity.
  set (ids := id <$> near calculateDistance reportList suppressedReportIds ∅ position).
  assert (Hid : id r ∈ ids).
  { apply list_elem_of_fmap. exists r. split; [reflexivity|].
    apply near_elem. split; [exact Hin|]. split; [exact Hc|].
    apply inRange_spec. now left. }
  exists ids. split; [exact Hid|].
  clearbody ids. destruct ids as [|key ids']; [inversion Hid|].
  cbn [length Nat.eqb Nat.ltb Nat.leb andb negb app]. now split.
Qed.

End Detector.

Section Admin.

Variable clock : nat -> Z.

(** X25. The tabs of the admin page: every report is listed under
    exactly one of the filters active, resolved and archived; the filter
    all lists the first two together and never an archived report, while
    flagged and no-glass-found list archived reports as well. *)
Theorem admin_tabs_split_the_reports (reportsState : list Report) :
  (forall r, r ∈ reportsState ->
     (r ∈ filteredReports filterActive reportsState /\
      (r ∉ filteredReports filterResolved reportsState) /\
      (r ∉ filteredReports filterArchived reportsState)) \/
     ((r ∉ filteredReports filterActive reportsState) /\
      r ∈ filteredReports filterResolved reportsState /\
      (r ∉ filteredReports filterArchived reportsState)) \/
     ((r ∉ filteredReports filterActive reportsState) /\
      (r ∉ filteredReports filterResolved reportsState) /\
      r ∈ filteredReports filterArchived reportsState)) /\
  (forall r, r ∈ filteredReports filterAll reportsState <->
     r ∈ filteredReports filterActive reportsState \/
     r ∈ filteredReports filterResolved reportsState) /\
  (length (filteredReports filterAll reportsState)
   = length (filteredReports filterActive reportsState)
     + length (filteredReports filterResolved reportsState))%nat /\
  (length reportsState
   = length (filteredReports filterAll reportsState)
     + length (filteredReports filterArchived reportsState))%nat /\
  (forall r, r ∈ reportsState -> truthy (archived r) = true ->
     (r ∈ filteredReports filterFlagged reportsState <-> truthy (flagged r) = true) /\
     (r ∈ filteredReports filterNoGlassFound reportsState
      <-> truthy (noGlassFound r) = true) /\
     (r ∉ filteredReports filterAll reportsState)).
Proof.
  unfold filteredReports. split; [|split; [|split; [|split]]].
  - intros r Hr. rewrite !list_elem_of_filter.
    destruct (resolved r), (truthy (archived r)); simpl;
      intuition discriminate.
  - intros r. rewrite !list_elem_of_filter.
    destruct (resolved r), (truthy (archived r)); simpl; intuition discriminate.
  - induction reportsState as [|r rs IH]; [reflexivity|].
    rewrite !filter_cons.
    destruct (resolved r), (truthy (archived r)); simpl;
      repeat (destruct (decide _); try discriminate; try contradiction);
      cbn [length]; lia.
  - induction reportsState as [|r rs IH]; [reflexivity|].
    rewrite !filter_cons.
    destruct (truthy (archived r)); simpl;
      repeat (destruct (decide _); try discriminate; try contradiction);
      cbn [length]; lia.
  - intros r Hr Harch. rewrite !list_elem_of_filter, Harch. simpl.
    intuition discriminate.
Qed.

Lemma find_id (key : string) (xs : list Report) report :
  find (fun r => String.eqb (id r) key) xs = Some report ->
  report ∈ xs /\ id report = key.
Proof.
  induction xs as [|x xs IH]; [discriminate|]. cbn [find].
  destruct (String.eqb_spec (id x) key) as [E|_].
  - intros [= <-]. split; [left | exact E].
  - intros H. destruct (IH H). split; [now right | assumption].
Qed.

Lemma find_none (key : string) (xs : list Report) :
  find (fun r => String.eqb (id r) key) xs = None <-> key ∉ id <$> xs.
Proof.
  induction xs as [|x xs IH]; cbn [find].
  - split; [intros _ H; inversion H | reflexivity].
  - rewrite fmap_cons, not_elem_of_cons.
    destruct (String.eqb_spec (id x) key) as [E|Hne].
    + split; [discriminate | intros [H _]; congruence].
    + rewrite IH. split; [intros H; split; [congruence | exact H] | tauto].
Qed.

(** X26. The admin toggle takes the current value from the page's own
    list, not from the table: when the list has the id, the table row
    (if there is one) ends up with the negation of the listed value,
    whatever the row held, marked pending and stamped with a clock
    reading of the call, its votes and ledgers untouched; every listed
    report with that id shows the same new value; no other row changes.
    When the list does not have the id, nothing happens, even if the
    table has the row. *)
Theorem admin_toggle_follows_the_page (reportsState : list Report) key w :
  let run := handleToggleResolved clock reportsState key in
  (key ∉ id <$> reportsState -> run w = (reportsState, w)) /\
  (forall report,
     find (fun r => String.eqb (id r) key) reportsState = Some report ->
     (forall r, reports w !! key = Some r ->
        exists r' i, reports (after run w) !! key = Some r' /\
          resolved r' = negb (resolved report) /\
          syncStatus r' = pending /\
          (ticks w <= i < ticks (after run w))%nat /\ lastModified r' = clock i /\
          sameContent r r' /\
          clearedCount r' = clearedCount r /\
          clearedConfirmations r' = clearedConfirmations r /\
          stillThereCount r' = stillThereCount r /\
          stillThereConfirmations r' = stillThereConfirmations r) /\
     (forall k, k <> key -> reports (after run w) !! k = reports w !! k) /\
     length (result run w) = length reportsState /\
     (forall r', r' ∈ result run w ->
        (id r' = key /\ resolved r' = negb (resolved report)) \/
        (id r' <> key /\ r' ∈ reportsState))).
Proof.
  intros run. subst run. split.
  - intros Hmiss. unfold handleToggleResolved.
    now rewrite (proj2 (find_none key reportsState) Hmiss).
  - intros report Hfind. unfold handleToggleResolved. rewrite Hfind.
    assert (Hui : forall run' : Task unit,
              result (run' ;;; ret (map (fun r => if String.eqb (id r) key
                        then applyChange r (set_resolved (negb (resolved report)))
                        else r) reportsState)) w
              = map (fun r => if String.eqb (id r) key
                        then applyChange r (set_resolved (negb (resolved report)))
                        else r) reportsState)
      by (intros run'; now rewrite bind_result).
    assert (Hrest : forall A (run' : Task unit) (v : A),
              after (run' ;;; ret v) w = after run' w)
      by (intros A run' v; now rewrite bind_after).
    cbv zeta.
    set (shown := map _ reportsState) in *.
    split; [|split; [|split]].
    + intros r Hr. rewrite bind_after, bind_after.
      set (w1 := after (bulkMarkResolved clock _) w).
      destruct (resolved report) eqn:Hres; cbn [negb] in *.
      * assert (Hw1 : reports w1 !! key = Some r /\ ticks w1 = S (ticks w)).
        { subst w1. rewrite bulkMarkResolved_lookup, bulkMarkResolved_ticks.
          rewrite decide_False by (intros H; inversion H). now split. }
        destruct Hw1 as [Hr1 Ht1].
        change (after (ret shown) ?x) with x.
        rewrite bind_after. change (after (Date_now clock) w1)
          with (mkWorld (reports w1) (S (ticks w1))).
        change (result (Date_now clock) w1) with (clock (ticks w1)).
        rewrite bind_after. change (after (ret tt) ?x) with x.
        rewrite update_lookup. cbn [reports]. rewrite decide_True by reflexivity.
        rewrite Hr1. cbn [fmap option_fmap option_map].
        eexists _, (ticks w1). split; [reflexivity|].
        rewrite update_ticks. cbn [ticks]. rewrite Ht1.
        unfold sameContent. destruct r. simpl. repeat split; lia.
      * change (after (ret shown) ?x) with x. change (after (ret tt) ?x) with x.
        subst w1. rewrite bulkMarkResolved_lookup, bulkMarkResolved_ticks.
        rewrite decide_True by left. rewrite Hr.
        cbn [fmap option_fmap option_map].
        eexists _, (ticks w). split; [reflexivity|].
        unfold sameContent. destruct r. simpl. repeat split; lia.
    + intros k Hne. rewrite bind_after, bind_after.
      change (after (ret shown) ?x) with x.
      set (w1 := after (bulkMarkResolved clock _) w).
      assert (Hw1 : reports w1 !! k = reports w !! k).
      { subst w1. rewrite bulkMarkResolved_lookup.
        destruct (decide _) as [Hin|]; [|reflexivity].
        destruct (negb (resolved report)); [|inversion Hin].
        apply list_elem_of_singleton in Hin. contradiction. }
      destruct (negb (negb (resolved report))).
      * rewrite bind_after. change (after (Date_now clock) w1)
          with (mkWorld (reports w1) (S (ticks w1))).
        rewrite bind_after. change (after (ret tt) ?x) with x.
        rewrite update_lookup. cbn [reports].
        now rewrite decide_False by congruence.
      * exact Hw1.
    + rewrite !bind_result. change (result (ret shown) ?x) with shown.
      subst shown. apply length_map.
    + intros r'. rewrite !bind_result. change (result (ret shown) ?x) with shown.
      subst shown. intros Hin. apply list_elem_of_fmap in Hin as (r0 & -> & Hin).
      destruct (String.eqb_spec (id r0) key) as [E|Hne].
      * left. destruct r0. simpl in *. now split.
      * right. now split.
Qed.

End Admin.

(** * The further properties at sample inputs *)

Lemma demoWorld_keyed : keyed (reports demoWorld).
Proof.
  intros k r Hr.
  apply (map_Forall_lookup_1 (fun k r => id r = k) (reports demoWorld)); [|exact Hr].
  apply (bool_decide_unpack _). vm_compute. exact I.
Qed.

Lemma pushWorld_keyed : keyed (reports pushWorld).
Proof.
  intros k r Hr.
  apply (map_Forall_lookup_1 (fun k r => id r = k) (reports pushWorld)); [|exact Hr].
  apply (bool_decide_unpack _). vm_compute. exact I.
Qed.

Lemma demoSnapshot_keys : NoDup (docKey <$> default [] demoSnapshot).
Proof. apply (bool_decide_unpack _). vm_compute. exact I. Qed.

Lemma mutation_keeps_content_witness :
  isUpdateReport (ArchiveReport "r1") = false /\
  reports demoWorld !! "r1" = Some (demoReport "r1" 1000) /\
  exists r',
    reports (after (perform tickClock (ArchiveReport "r1")) demoWorld) !! "r1"
      = Some r' /\
    sameContent (demoReport "r1" 1000) r'.
Proof.
  split; [reflexivity|]. split; [reflexivity|].
  eexists. split; [vm_compute; reflexivity|].
  apply (mutation_keeps_content tickClock (ArchiveReport "r1") demoWorld "r1");
    [reflexivity | reflexivity | vm_compute; reflexivity].
Defined.

Lemma mutation_keeps_tallies_witness :
  isUpdateReport (CastCleared "r1" "b") = false /\
  reports votedWorld !! "r1" = Some votedReport /\
  talliesAgree votedReport /\
  exists r',
    reports (after (perform tickClock (CastCleared "r1" "b")) votedWorld) !! "r1"
      = Some r' /\
    clearedCount r' = 2 /\ talliesAgree r'.
Proof.
  assert (Hagree : talliesAgree votedReport).
  { split; [reflexivity|]. split; [reflexivity|].
    apply (bool_decide_unpack _). vm_compute. exact I. }
  split; [reflexivity|]. split; [reflexivity|]. split; [exact Hagree|].
  eexists. split; [vm_compute; reflexivity|]. split; [reflexivity|].
  apply (mutation_keeps_tallies tickClock (CastCleared "r1" "b") votedWorld "r1"
           votedReport);
    [reflexivity | reflexivity | vm_compute; reflexivity | exact Hagree].
Defined.

Lemma missing_report_is_a_no_op_witness :
  reports demoWorld !! "gone" = None /\
  result (incrementClearedCount tickClock "gone" "a") demoWorld
  = mkVoteResult false false /\
  reports (after (perform tickClock (ArchiveReport "gone")) demoWorld)
  = reports demoWorld.
Proof.
  split; [reflexivity|].
  destruct (missing_report_is_a_no_op tickClock "gone" demoWorld eq_refl)
    as (Hcast & _ & _ & _ & _ & Hrows).
  split; [apply Hcast | apply Hrows; reflexivity].
Defined.

Lemma addReport_stores_a_pending_report_witness :
  reports demoWorld !! id (demoReport "r2" 0) = None /\
  result (addReport tickClock (demoReport "r2" 0)) demoWorld = Some "r2" /\
  reports (after (deleteReport "r2")
             (after (addReport tickClock (demoReport "r2" 0)) demoWorld))
  = reports demoWorld.
Proof.
  split; [reflexivity|].
  pose proof (addReport_stores_a_pending_report tickClock (demoReport "r2" 0)
                demoWorld eq_refl) as H.
  cbv zeta in H. destruct H as (Hkey & _ & _ & Hback).
  split; [exact Hkey | exact Hback].
Defined.

Lemma addReport_never_overwrites_witness :
  reports demoWorld !! id (demoReport "r1" 5) = Some (demoReport "r1" 1000) /\
  result (addReport tickClock (demoReport "r1" 5)) demoWorld = None /\
  reports (after (addReport tickClock (demoReport "r1" 5)) demoWorld)
  = reports demoWorld.
Proof.
  split; [reflexivity|].
  apply (addReport_never_overwrites tickClock (demoReport "r1" 5) demoWorld
           (demoReport "r1" 1000)).
  reflexivity.
Defined.

Lemma toggles_flip_only_their_flag_witness :
  reports demoWorld !! "r1" = Some (demoReport "r1" 1000) /\
  result (toggleFlagged tickClock "r1") demoWorld = true /\
  result (toggleFlagged tickClock "r1")
         (after (toggleFlagged tickClock "r1") demoWorld) = false /\
  result (toggleNoGlassFound tickClock "r1") demoWorld = true.
Proof.
  split; [reflexivity|].
  destruct (toggles_flip_only_their_flag tickClock "r1" demoWorld
              (demoReport "r1" 1000) eq_refl)
    as ((Hon & _ & Hoff) & (Hglass & _)).
  split; [exact Hon|]. split; [exact Hoff | exact Hglass].
Defined.

Lemma archive_hides_unarchive_restores_witness :
  reports demoWorld !! "r1" = Some (demoReport "r1" 1000) /\
  (exists r1,
     reports (after (archiveReport tickClock "r1") demoWorld) !! "r1" = Some r1 /\
     (r1 ∉ result getActiveReports (after (archiveReport tickClock "r1") demoWorld)) /\
     archived r1 = Some true /\ archivedAt r1 = Some (tickClock 0)).
Proof.
  split; [reflexivity|].
  pose proof (archive_hides_unarchive_restores tickClock "r1" demoWorld
                (demoReport "r1" 1000) eq_refl) as H.
  cbv zeta in H. destruct H as [Harchived _]. exact Harchived.
Defined.

Lemma markAsSynced_clears_the_listed_witness :
  keyed (reports demoWorld) /\
  exists r',
    reports (after (markAsSynced ["r1"] None) demoWorld) !! "r1" = Some r' /\
    syncStatus r' = synced /\ firebaseId r' = None /\ lastModified r' = 1000.
Proof.
  split; [exact demoWorld_keyed|].
  pose proof (markAsSynced_clears_the_listed ["r1"] None demoWorld demoWorld_keyed)
    as H.
  cbv zeta in H. destruct H as [_ Hrow].
  destruct (Hrow "r1" (demoReport "r1" 1000)) as (r' & Hr' & Hs & Hf & Hl & _);
    [left | reflexivity|].
  exists r'. split; [exact Hr'|]. split; [exact Hs|]. split; [exact Hf | exact Hl].
Defined.

Lemma sweep_leaves_no_due_report_active_witness :
  keyed (reports sweepWorld) /\
  agedReport "old" demoNow (8 * DAY_MS)
    ∉ result getActiveReports
        (after (autoArchiveOldResolvedReports (frozenClock demoNow)) sweepWorld).
Proof.
  split; [exact sweepWorld_keyed|]. intros Hin.
  apply (sweep_leaves_no_due_report_active (frozenClock demoNow) sweepWorld
           sweepWorld_keyed) in Hin as [_ Hearly].
  apply Hearly. apply (bool_decide_unpack _). vm_compute. exact I.
Defined.

Lemma rebuttal_lets_devices_vote_again_witness :
  (reports contestedWorld !! "r1" = Some contestedReport /\
   orEmpty (stillThereConfirmations contestedReport) <> [] /\
   success (result (incrementStillThereCount tickClock "r1" "y") contestedWorld)
   = true) /\
  hasDeviceConfirmedCleared contestedReport "a" = true /\
  result (incrementClearedCount tickClock "r1" "a")
         (after (incrementStillThereCount tickClock "r1" "y") contestedWorld)
  = mkVoteResult true false.
Proof.
  split; [split; [reflexivity | split; [discriminate | vm_compute; reflexivity]]|].
  split; [vm_compute; reflexivity|].
  pose proof (rebuttal_lets_devices_vote_again tickClock "r1" "y" "a"
                contestedWorld contestedReport eq_refl) as H.
  cbv zeta in H. apply H; [discriminate | vm_compute; reflexivity].
Defined.

Lemma mergeReports_empty_and_repeated_witness :
  (NoDup (id <$> demoLocal) /\ NoDup (id <$> demoRemote)) /\
  mergeReports demoLocal [] = demoLocal /\
  mergeReports [] demoRemote = demoRemote /\
  mergeReports (mergeReports demoLocal demoRemote) demoRemote
  = mergeReports demoLocal demoRemote.
Proof.
  assert (Hl : NoDup (id <$> demoLocal))
    by (apply (bool_decide_unpack _); vm_compute; exact I).
  assert (Hr : NoDup (id <$> demoRemote))
    by (apply (bool_decide_unpack _); vm_compute; exact I).
  split; [now split|].
  apply (mergeReports_empty_and_repeated demoLocal demoRemote Hl Hr).
Defined.

Lemma push_isolates_failures_witness :
  keyed (reports pushWorld) /\
  reports (after (syncPendingToFirestore refusesB) pushWorld) !! "b"
  = Some (demoReport "b" 300) /\
  exists r',
    reports (after (syncPendingToFirestore refusesB) pushWorld) !! "a" = Some r' /\
    syncStatus r' = synced /\ firebaseId r' = Some "a" /\ lastModified r' = 100.
Proof.
  split; [exact pushWorld_keyed|].
  pose proof (push_isolates_failures refusesB pushWorld pushWorld_keyed) as H.
  cbv zeta in H. destruct H as (_ & Hkept & Hsent & _).
  split.
  - apply Hkept; [reflexivity|]. intros [_ Hacc]. discriminate Hacc.
  - destruct (Hsent "a" (demoReport "a" 100)) as (r' & Hr' & Hs & Hf & Hl & _);
      [reflexivity | reflexivity | reflexivity|].
    exists r'. split; [exact Hr'|]. split; [exact Hs|]. split; [exact Hf | exact Hl].
Defined.

Lemma fullSync_keeps_rows_and_returns_the_merge_witness :
  (keyed (reports pushWorld) /\ NoDup (docKey <$> default [] demoSnapshot)) /\
  is_Some (reports (after (fullSync tickClock refusesB (inr demoSnapshot)) pushWorld)
             !! "c") /\
  keyed (reports (after (fullSync tickClock refusesB (inr demoSnapshot)) pushWorld)) /\
  result getPendingReports
         (after (fullSync tickClock (fun _ _ => None) (inr demoSnapshot)) pushWorld) = [].
Proof.
  split; [split; [exact pushWorld_keyed | exact demoSnapshot_keys]|].
  pose proof (fullSync_keeps_rows_and_returns_the_merge tickClock refusesB
                demoSnapshot pushWorld pushWorld_keyed demoSnapshot_keys) as H.
  cbv zeta in H. destruct H as (_ & Hkeep & _ & _ & _ & Hkeyed & _).
  split; [apply Hkeep; vm_compute; eauto|]. split; [exact Hkeyed|].
  pose proof (fullSync_keeps_rows_and_returns_the_merge tickClock (fun _ _ => None)
                demoSnapshot pushWorld pushWorld_keyed demoSnapshot_keys) as H.
  cbv zeta in H. destruct H as (_ & _ & _ & _ & _ & _ & Hdone).
  apply Hdone. reflexivity.
Defined.

Lemma live_update_absorbs_the_snapshot_witness :
  (keyed (reports pushWorld) /\ NoDup (docKey <$> default [] demoSnapshot)) /\
  reports (after (onRemoteValue tickClock true demoSnapshot) pushWorld) !! "c"
  = reports pushWorld !! "c" /\
  after (onRemoteValue tickClock true demoSnapshot)
        (after (onRemoteValue tickClock true demoSnapshot) pushWorld)
  = after (onRemoteValue tickClock true demoSnapshot) pushWorld.
Proof.
  split; [split; [exact pushWorld_keyed | exact demoSnapshot_keys]|].
  pose proof (live_update_absorbs_the_snapshot tickClock demoSnapshot pushWorld
                pushWorld_keyed demoSnapshot_keys) as H.
  cbv zeta in H. destruct H as (_ & _ & Hmiss & _ & _ & Hagain).
  split.
  - apply Hmiss. apply (bool_decide_unpack _). vm_compute. exact I.
  - apply Hagain. repeat constructor.
Defined.

Lemma alert_and_clear_take_turns_witness :
  coherent initialDetector /\
  latchAfter (hasTriggeredAlertRef initialDetector)
             (concat (watch axisDistance demoReports [] demoWalk initialDetector).2)
  = Some (hasTriggeredAlertRef
            (watch axisDistance demoReports [] demoWalk initialDetector).1).
Proof.
  assert (Hinit : coherent initialDetector) by (repeat split).
  split; [exact Hinit|].
  apply (alert_and_clear_take_turns axisDistance demoReports [] demoWalk
           initialDetector Hinit).
Defined.

Lemma nearby_are_live_reports_in_range_witness :
  DEBOUNCE_MS <= demoNow - lastCheckRef initialDetector /\
  "r1" ∈ nearbyReportIds
           (state (checkProximity axisDistance demoReports [] demoNow (fixAt 2)
                                  initialDetector).1).
Proof.
  assert (Hrun : DEBOUNCE_MS <= demoNow - lastCheckRef initialDetector)
    by (vm_compute; discriminate).
  split; [exact Hrun|].
  pose proof (nearby_are_live_reports_in_range axisDistance demoReports []
                demoNow (fixAt 2) initialDetector Hrun) as H.
  cbv zeta in H. destruct H as (_ & Hclose & _).
  apply (Hclose (demoReport "r1" 1000)); [left | reflexivity|].
  vm_compute. discriminate.
Defined.

Lemma reset_rearms_the_alert_witness :
  (hasTriggeredAlertRef latchedDetector = true /\
   DEBOUNCE_MS <= (demoNow + 1000) - lastCheckRef latchedDetector /\
   demoReport "r1" 1000 ∈ demoReports /\
   candidate [] (demoReport "r1" 1000) = true /\
   (distanceTo axisDistance (fixAt 2) (demoReport "r1" 1000) <= 3)%Q) /\
  exists ids, "r1" ∈ ids /\
    (checkProximity axisDistance demoReports [] (demoNow + 1000) (fixAt 2)
                    (resetDetector latchedDetector)).2
    = [triggerVibration; showNotification; onAlertTriggered ids].
Proof.
  assert (Hrun : DEBOUNCE_MS <= (demoNow + 1000) - lastCheckRef latchedDetector)
    by (vm_compute; discriminate).
  assert (Hin : demoReport "r1" 1000 ∈ demoReports) by left.
  assert (Hnear : (distanceTo axisDistance (fixAt 2) (demoReport "r1" 1000) <= 3)%Q)
    by (vm_compute; discriminate).
  split; [split; [vm_compute; reflexivity | now repeat split]|].
  destruct (reset_rearms_the_alert axisDistance demoReports [] (demoNow + 1000)
              (fixAt 2) latchedDetector (demoReport "r1" 1000) Hrun Hin eq_refl Hnear)
    as (_ & ids & Hid & Hcalls & _).
  exists ids. split; [exact Hid | exact Hcalls].
Defined.
